(** * Certple auto-renewal: a shallow embedding of the renewal engine

    The development follows the JavaScript sources of the auto-renewal
    library: [CertificateScanner] (expiry arithmetic and the certificate
    store), [ConfigManager] (renewal policy), [HistoryManager] (bounded
    audit trail), [ACMEClient] (one renewal attempt against the ACME
    engine of core.js), [RenewalScheduler] (the job driver) and
    [TelegramNotifier] (the notices), and the countdown of the
    certificate page that reads the same store.

    Conventions.
    - Time values are integers of milliseconds since the epoch, as in
      ECMAScript; a [Date] is [option Z], [None] being the Invalid Date,
      and a [number] is [option Z], [None] being NaN.  Quotients of time
      values are taken exactly; the IEEE-754 division of the source gives
      the same ceiling as long as the quotient stays below 2^26 days.
    - [localStorage] is given by the keys that the library reads; a
      stored text is seen through [JSON.parse], and every write is taken
      to succeed.
    - Code that awaits, throws and mutates is written in a state and
      exception monad over [World]. *)

From Stdlib Require Import ZArith Lia Ascii String.
From stdpp Require Import gmap strings list fin_maps pretty.

Local Open Scope Z_scope.

(** ** JavaScript values *)

Module JS.

(** The scalar values that occur in the fields of persisted records;
    the numbers are the integers (time stamps, indices). A field that
    holds an array or an object is outside the model. *)
Inductive value :=
| Undefined
| Null
| Bool (b : bool)
| Num (n : Z)
| Str (s : string).

#[global] Instance value_eq_dec : EqDecision value.
Proof. solve_decision. Defined.

#[global] Instance value_inhabited : Inhabited value := populate Undefined.

(** [ToBoolean]. *)
Definition truthy (v : value) : bool :=
  match v with
  | Undefined | Null => false
  | Bool b => b
  | Num n => negb (n =? 0)
  | Str s => negb (String.eqb s "")
  end.

(** [a || b]. *)
Definition or_else (a b : value) : value := if truthy a then a else b.

(** [a === b]. *)
Definition strict_eq (a b : value) : bool :=
  match a, b with
  | Undefined, Undefined | Null, Null => true
  | Bool x, Bool y => Bool.eqb x y
  | Num x, Num y => x =? y
  | Str x, Str y => String.eqb x y
  | _, _ => false
  end.

(** [ToString], as used by template literals. *)
Definition to_string (v : value) : string :=
  match v with
  | Undefined => "undefined"
  | Null => "null"
  | Bool true => "true"
  | Bool false => "false"
  | Num n => pretty n
  | Str s => s
  end.

(** A number is an integer or NaN. *)
Definition number := option Z.

Definition NaN : number := None.

Definition add (a b : number) : number :=
  match a, b with Some x, Some y => Some (x + y) | _, _ => None end.

Definition sub (a b : number) : number :=
  match a, b with Some x, Some y => Some (x - y) | _, _ => None end.

(** [a <= b]: false as soon as one side is NaN. *)
Definition le (a b : number) : bool :=
  match a, b with Some x, Some y => x <=? y | _, _ => false end.

(** [a < b]: false as soon as one side is NaN. *)
Definition lt (a b : number) : bool :=
  match a, b with Some x, Some y => x <? y | _, _ => false end.

(** [Math.ceil(a / d)] for a positive integer constant [d]. *)
Definition ceil_div (a : number) (d : Z) : number :=
  match a with Some x => Some (- ((- x) / d)) | None => None end.

(** Objects whose fields are scalars; an absent key reads [Undefined]. *)
Definition get (o : gmap string value) (k : string) : value :=
  default Undefined (o !! k).

(** [{...a, ...b}]: the fields of [b] win. *)
Definition spread (a b : gmap string value) : gmap string value := b ∪ a.

(** [JSON.parse(JSON.stringify(o))] for such an object: fields holding
    [undefined] are not written. *)
Definition stringify (o : gmap string value) : gmap string value :=
  filter (λ kv, kv.2 ≠ Undefined) o.

(** [s.includes(sub)]. *)
Definition includes (s sub : string) : bool :=
  match String.index 0 sub s with Some _ => true | None => false end.

(** [xs.join(sep)] on strings. *)
Fixpoint join (sep : string) (xs : list string) : string :=
  match xs with
  | [] => ""
  | [x] => x
  | x :: rest => x +:+ sep +:+ join sep rest
  end.

(** [encodeURIComponent] on the UTF-8 bytes of a string. *)
Definition unreserved (c : ascii) : bool :=
  let n := Z.of_nat (nat_of_ascii c) in
  ((65 <=? n) && (n <=? 90)) || ((97 <=? n) && (n <=? 122))
  || ((48 <=? n) && (n <=? 57))
  || bool_decide (c ∈ ["-"; "_"; "."; "!"; "~"; "*"; "'"; "("; ")"]%char).

Definition hex_digit (n : Z) : ascii :=
  ascii_of_nat (Z.to_nat (if n <? 10 then 48 + n else 55 + n)).

Fixpoint encodeURIComponent (s : string) : string :=
  match s with
  | EmptyString => EmptyString
  | String c rest =>
      if unreserved c then String c (encodeURIComponent rest)
      else
        let n := Z.of_nat (nat_of_ascii c) in
        String "%" (String (hex_digit (n / 16)) (String (hex_digit (n mod 16))
          (encodeURIComponent rest)))
  end.

(** [a && b]. *)
Definition and_then (a b : value) : value := if truthy a then b else a.

(** [`${n}`] for a number. *)
Definition number_to_string (n : number) : string :=
  match n with Some x => pretty x | None => "NaN" end.

End JS.

(** ** The host environment

    What the browser supplies and the sources only call: the local time
    zone adjustment and [Date.parse], whose accepted formats are left to
    the implementation by the language standard, and the number that a
    text stands for ([StringToNumber]), whose grammar of numeric
    literals is not spelt out here. *)

Class Host := {
  LocalTZA : Z → bool → Z;
  DateParse : string → option Z;
  StringToNumber : string → JS.number;
}.

(** [ToNumber] on the scalars, as a comparison with a number applies
    it. *)
Definition ToNumber `{Host} (v : JS.value) : JS.number :=
  match v with
  | JS.Undefined => JS.NaN
  | JS.Null => Some 0
  | JS.Bool b => Some (if b then 1 else 0)
  | JS.Num n => Some n
  | JS.Str s => StringToNumber s
  end.

(** ** Dates (ECMAScript, Date objects) *)

Module JSDate.

Definition msPerDay : Z := 86400000.

Definition Day (t : Z) : Z := t / msPerDay.

Definition TimeWithinDay (t : Z) : Z := t mod msPerDay.

Definition DayFromYear (y : Z) : Z :=
  365 * (y - 1970) + (y - 1969) / 4 - (y - 1901) / 100 + (y - 1601) / 400.

Definition DaysInYear (y : Z) : Z :=
  if negb (y mod 4 =? 0) then 365
  else if negb (y mod 100 =? 0) then 366
  else if negb (y mod 400 =? 0) then 365
  else 366.

(** The largest year whose first day is not after [t]: an estimate from
    the mean year length, corrected by one either way. *)
Definition YearFromTime (t : Z) : Z :=
  let d := Day t in
  let y := 1970 + (400 * d) / 146097 in
  if d <? DayFromYear y then y - 1
  else if DayFromYear (y + 1) <=? d then y + 1
  else y.

Definition InLeapYear (t : Z) : Z :=
  if DaysInYear (YearFromTime t) =? 366 then 1 else 0.

Definition DayWithinYear (t : Z) : Z := Day t - DayFromYear (YearFromTime t).

(** Days of the year that precede month [m] (0 = January). *)
Definition DaysBeforeMonth (m leap : Z) : Z :=
  match m with
  | 0 => 0
  | 1 => 31
  | 2 => 59 + leap
  | 3 => 90 + leap
  | 4 => 120 + leap
  | 5 => 151 + leap
  | 6 => 181 + leap
  | 7 => 212 + leap
  | 8 => 243 + leap
  | 9 => 273 + leap
  | 10 => 304 + leap
  | _ => 334 + leap
  end.

Definition MonthFromTime (t : Z) : Z :=
  let d := DayWithinYear t in
  let l := InLeapYear t in
  if d <? 31 then 0
  else if d <? 59 + l then 1
  else if d <? 90 + l then 2
  else if d <? 120 + l then 3
  else if d <? 151 + l then 4
  else if d <? 181 + l then 5
  else if d <? 212 + l then 6
  else if d <? 243 + l then 7
  else if d <? 273 + l then 8
  else if d <? 304 + l then 9
  else if d <? 334 + l then 10
  else 11.

Definition DateFromTime (t : Z) : Z :=
  DayWithinYear t - DaysBeforeMonth (MonthFromTime t) (InLeapYear t) + 1.

Definition HourFromTime (t : Z) : Z := (t / 3600000) mod 24.
Definition MinFromTime (t : Z) : Z := (t / 60000) mod 60.
Definition SecFromTime (t : Z) : Z := (t / 1000) mod 60.
Definition msFromTime (t : Z) : Z := t mod 1000.

(** [MakeDay]: the day number of the first of the month, plus [date - 1]. *)
Definition MakeDay (year month date : Z) : Z :=
  let ym := year + month / 12 in
  let mn := month mod 12 in
  let leap := if DaysInYear ym =? 366 then 1 else 0 in
  DayFromYear ym + DaysBeforeMonth mn leap + date - 1.

Definition MakeDate (day time : Z) : Z := day * msPerDay + time.

Definition TimeClip (t : Z) : option Z :=
  if Z.abs t <=? 8640000000000000 then Some t else None.

(** A Date object is its time value; [None] is the Invalid Date. *)
Definition Date := option Z.

Section WithHost.
Context `{Host}.

Definition LocalTime (t : Z) : Z := t + LocalTZA t true.

Definition UTC (t : Z) : Z := t - LocalTZA t false.

(** [new Date(v)]. *)
Definition construct (v : JS.value) : Date :=
  match v with
  | JS.Undefined => None
  | JS.Null => Some 0
  | JS.Bool b => Some (if b then 1 else 0)
  | JS.Num n => TimeClip n
  | JS.Str s => DateParse s ≫= TimeClip
  end.

(** [d.getDate()]. *)
Definition getDate (d : Date) : JS.number :=
  match d with
  | Some tv => Some (DateFromTime (LocalTime tv))
  | None => JS.NaN
  end.

(** [d.setDate(date)], returning the date object after the call. *)
Definition setDate (d : Date) (date : JS.number) : Date :=
  match d, date with
  | Some tv, Some dt =>
      let t := LocalTime tv in
      let newDate :=
        MakeDate (MakeDay (YearFromTime t) (MonthFromTime t) dt)
                 (TimeWithinDay t) in
      TimeClip (UTC newDate)
  | _, _ => None
  end.

End WithHost.

(** [d.getTime()]. *)
Definition getTime (d : Date) : JS.number := d.

(** The decimal digits of [|n|], padded with zeros on the left to
    width [w]. *)
Fixpoint zeros (k : nat) : string :=
  match k with O => "" | S k' => "0" +:+ zeros k' end.

Definition pad (w : nat) (n : Z) : string :=
  let s := pretty (Z.abs n) in
  zeros (w - String.length s) +:+ s.

(** [new Date(t).toISOString()] for a valid time value. *)
Definition toISOString (t : Z) : string :=
  let y := YearFromTime t in
  let year :=
    if (0 <=? y) && (y <=? 9999) then pad 4 y
    else (if y <? 0 then "-" else "+") +:+ pad 6 y in
  year +:+ "-" +:+ pad 2 (MonthFromTime t + 1) +:+ "-" +:+ pad 2 (DateFromTime t)
  +:+ "T" +:+ pad 2 (HourFromTime t) +:+ ":" +:+ pad 2 (MinFromTime t)
  +:+ ":" +:+ pad 2 (SecFromTime t) +:+ "." +:+ pad 3 (msFromTime t) +:+ "Z".

(** The date-time format of [toISOString], which every [Date.parse]
    accepts: [YYYY-MM-DDTHH:mm:ss.sssZ]. *)
Definition digit (c : ascii) : option Z :=
  let n := Z.of_nat (nat_of_ascii c) in
  if (48 <=? n) && (n <=? 57) then Some (n - 48) else None.

Fixpoint digits (s : string) (acc : Z) : option Z :=
  match s with
  | EmptyString => Some acc
  | String c rest => d ← digit c; digits rest (10 * acc + d)
  end.

Definition field (s : string) (from len : nat) : option Z :=
  digits (String.substring from len s) 0.

Definition sep (s : string) (at_ : nat) (c : ascii) : option unit :=
  match String.get at_ s with
  | Some c' => if Ascii.eqb c c' then Some () else None
  | None => None
  end.

Definition parseISO (s : string) : option Z :=
  if negb (String.length s =? 24)%nat then None else
  y ← field s 0 4; _ ← sep s 4 "-";
  mo ← field s 5 2; _ ← sep s 7 "-";
  d ← field s 8 2; _ ← sep s 10 "T";
  h ← field s 11 2; _ ← sep s 13 ":";
  mi ← field s 14 2; _ ← sep s 16 ":";
  se ← field s 17 2; _ ← sep s 19 ".";
  ms ← field s 20 3; _ ← sep s 23 "Z";
  let day := MakeDay y (mo - 1) d in
  if (1 <=? mo) && (mo <=? 12) && (1 <=? d)
     && (d <=? MakeDay y mo 1 - MakeDay y (mo - 1) 1)
     && (h <=? 23) && (mi <=? 59) && (se <=? 59)
  then Some (MakeDate day (h * 3600000 + mi * 60000 + se * 1000 + ms))
  else None.

End JSDate.

(** A host in the UTC time zone whose [Date.parse] reads the ISO format
    only, and for which the texts of decimal digits are the numerals. *)
Definition utcHost : Host :=
  {| LocalTZA := λ _ _, 0; DateParse := JSDate.parseISO;
     StringToNumber := λ s, JSDate.digits s 0 |}.

(** ** The persisted store

    [localStorage] seen through the readers of the library: one slot per
    key that the sources read or write. *)

(** The text stored under a key that a reader parses as JSON. *)
Inductive stored (A : Type) :=
| Blank                     (** the empty string: [!data] holds *)
| Malformed (msg : string)  (** [JSON.parse], or the reader's first use of
                                the parsed value, throws with this message *)
| Doc (a : A).              (** the parsed value *)

Arguments Blank {A}.
Arguments Malformed {A} msg.
Arguments Doc {A} a.

(** An entry of the renewal history. *)
Record HistoryRecord := {
  hr_id : string;
  hr_domain : JS.value;
  hr_timestamp : Z;
  hr_status : string;
  hr_error : option string;     (** [None] is [null] *)
  hr_oldExpiry : option Z;
  hr_newExpiry : option Z;
}.

(** A per-certificate setting of the renewal policy. *)
Record CertSetting := {
  cs_enabled : JS.value;
  cs_lastCheck : JS.value;
  cs_lastRenewal : JS.value;
}.

(** The persisted policy document; [None] is a key that is not there,
    and so is a threshold that is [Undefined], which JSON does not
    write. *)
Record ConfigDoc := {
  doc_enabled : option JS.value;
  doc_threshold : JS.value;
  doc_checkInterval : option Z;
  doc_certSettings : option (gmap string CertSetting);
}.

Record LocalStorage := {
  acmeAccountKey : option string;                     (** 'q-acmeAccountKey' *)
  email : option string;                              (** 'x-q-email' *)
  acmeURL : option string;                            (** 'q-acmeURL' *)
  manageDataPairs : option (stored (list (gmap string JS.value)));
                                                      (** 'q-manageDataPairs' *)
  certs : option (stored (list (gmap string JS.value)));
                                                      (** 'q-certs' *)
  renewalHistory : option (stored (list HistoryRecord));
                                                      (** 'certple-renewal-history' *)
  autoRenewalConfig : option (stored ConfigDoc);      (** 'certple-auto-renewal-config' *)
}.

Definition set_manageDataPairs (v : stored (list (gmap string JS.value)))
    (ls : LocalStorage) : LocalStorage :=
  {| acmeAccountKey := acmeAccountKey ls; email := email ls; acmeURL := acmeURL ls;
     manageDataPairs := Some v; certs := certs ls;
     renewalHistory := renewalHistory ls; autoRenewalConfig := autoRenewalConfig ls |}.

Definition set_certs (v : stored (list (gmap string JS.value)))
    (ls : LocalStorage) : LocalStorage :=
  {| acmeAccountKey := acmeAccountKey ls; email := email ls; acmeURL := acmeURL ls;
     manageDataPairs := manageDataPairs ls; certs := Some v;
     renewalHistory := renewalHistory ls; autoRenewalConfig := autoRenewalConfig ls |}.

Definition set_renewalHistory (v : stored (list HistoryRecord))
    (ls : LocalStorage) : LocalStorage :=
  {| acmeAccountKey := acmeAccountKey ls; email := email ls; acmeURL := acmeURL ls;
     manageDataPairs := manageDataPairs ls; certs := certs ls;
     renewalHistory := Some v; autoRenewalConfig := autoRenewalConfig ls |}.

Definition remove_renewalHistory (ls : LocalStorage) : LocalStorage :=
  {| acmeAccountKey := acmeAccountKey ls; email := email ls; acmeURL := acmeURL ls;
     manageDataPairs := manageDataPairs ls; certs := certs ls;
     renewalHistory := None; autoRenewalConfig := autoRenewalConfig ls |}.

Definition set_autoRenewalConfig (v : stored ConfigDoc)
    (ls : LocalStorage) : LocalStorage :=
  {| acmeAccountKey := acmeAccountKey ls; email := email ls; acmeURL := acmeURL ls;
     manageDataPairs := manageDataPairs ls; certs := certs ls;
     renewalHistory := renewalHistory ls; autoRenewalConfig := Some v |}.

(** ** CertificateScanner *)

Module CertificateScanner.

(** A certificate as [scanCertificates] returns it. *)
Record Certificate := {
  id : nat;
  domains : JS.value;
  cert : JS.value;
  key : JS.value;
  time : JS.value;
  autoRenewal : JS.value;
  renewalStatus : JS.value;
  lastRenewalAttempt : JS.value;
}.

(** The fields of a scanned certificate, as an object. *)
Definition to_obj (c : Certificate) : gmap string JS.value :=
  <["id" := JS.Num (Z.of_nat (id c))]> (
  <["domains" := domains c]> (
  <["cert" := cert c]> (
  <["key" := key c]> (
  <["time" := time c]> (
  <["autoRenewal" := autoRenewal c]> (
  <["renewalStatus" := renewalStatus c]> (
  <["lastRenewalAttempt" := lastRenewalAttempt c]> ∅))))))).

(** The keys of a scanned certificate. *)
Definition schema : list string :=
  ["id"; "domains"; "cert"; "key"; "time"; "autoRenewal"; "renewalStatus";
   "lastRenewalAttempt"].

(** The callback of [certificates.map] in [scanCertificates]. *)
Definition normalize (now : Z) (index : nat) (c : gmap string JS.value)
    : Certificate :=
  {| id := index;
     domains := JS.or_else (JS.get c "domains") (JS.Str "");
     cert := JS.or_else (JS.get c "cert") (JS.Str "");
     key := JS.or_else (JS.get c "key") (JS.Str "");
     time := JS.or_else (JS.get c "time") (JS.Str (JSDate.toISOString now));
     autoRenewal :=
       if JS.strict_eq (JS.get c "autoRenewal") JS.Undefined
       then JS.Bool true else JS.get c "autoRenewal";
     renewalStatus := JS.or_else (JS.get c "renewalStatus") (JS.Str "idle");
     lastRenewalAttempt := JS.or_else (JS.get c "lastRenewalAttempt") JS.Null |}.

(** The certificate, the key and the issuance time that a scan reads
    at an index. *)
Definition identity_of (now : Z) (j : nat) (e : gmap string JS.value)
    : JS.value * JS.value * JS.value :=
  (cert (normalize now j e), key (normalize now j e), time (normalize now j e)).

(** [scanCertificates]. The entries of the stored array are objects;
    an entry that is a number, a string or a boolean reads as the object
    without fields, and an array with a [null] entry, on which the
    callback throws, counts as [Malformed]. *)
Definition scanCertificates (ls : LocalStorage) (now : Z) : list Certificate :=
  match manageDataPairs ls with
  | None | Some Blank => []
  | Some (Doc certificates) => imap (normalize now) certificates
  | Some (Malformed _) => []
  end.

(** A certificate as [detectExpiringCertificates] returns it:
    [{...cert, status, daysUntilExpiry}]. *)
Record ExpiringCertificate := {
  certificate : Certificate;
  status : string;
  daysUntilExpiry : JS.number;
}.

Section WithHost.
Context `{Host}.

Definition getExpiryDate (c : Certificate) : JSDate.Date :=
  let issueDate := JSDate.construct (time c) in
  let expiryDate := issueDate in
  JSDate.setDate expiryDate (JS.add (JSDate.getDate expiryDate) (Some 90)).

Definition getDaysUntilExpiry (now : Z) (c : Certificate) : JS.number :=
  let expiryDate := getExpiryDate c in
  let diffTime := JS.sub expiryDate (Some now) in
  let diffDays := JS.ceil_div diffTime (1000 * 60 * 60 * 24) in
  diffDays.

Definition isExpired (now : Z) (c : Certificate) : bool :=
  match getExpiryDate c with
  | Some e => e <? now
  | None => false
  end.

Definition getCertificateStatus (now : Z) (c : Certificate) (threshold : Z)
    : string :=
  let daysUntilExpiry := getDaysUntilExpiry now c in
  if JS.le daysUntilExpiry (Some 0) then "expired"
  else if JS.le daysUntilExpiry (Some threshold) then "needs_renewal"
  else "valid".

Definition detectExpiringCertificates (ls : LocalStorage) (now : Z)
    (threshold : Z) : list ExpiringCertificate :=
  let certificates := scanCertificates ls now in
  omap (λ c,
    let status := getCertificateStatus now c threshold in
    if String.eqb status "needs_renewal" || String.eqb status "expired"
    then Some {| certificate := c; status := status;
                 daysUntilExpiry := getDaysUntilExpiry now c |}
    else None) certificates.

End WithHost.

(** [updateCertificate(id, updates)]; the array index is a number of the
    scanner's own making, so the range test is on naturals. *)
Definition updateCertificate (id : nat) (updates : gmap string JS.value)
    (ls : LocalStorage) (now : Z) : LocalStorage :=
  let certificates := to_obj <$> scanCertificates ls now in
  match certificates !! id with
  | Some c =>
      let certificates := <[id := JS.spread c updates]> certificates in
      set_manageDataPairs (Doc (JS.stringify <$> certificates)) ls
  | None => ls
  end.

End CertificateScanner.

(** ** ConfigManager *)

Module ConfigManager.

(** The configuration as the code holds it. The threshold is the
    scalar that the document or the caller gives: the code compares it
    as a number and stores it as it is. [None] is NaN, which a caller
    can give and no document holds. *)
Record Config := {
  enabled : JS.value;
  threshold : option JS.value;
  checkInterval : Z;
  certSettings : gmap string CertSetting;
}.

Definition getDefaultConfig : Config :=
  {| enabled := JS.Bool false;
     threshold := Some (JS.Num 30);
     checkInterval := 24 * 60 * 60 * 1000;
     certSettings := ∅ |}.

(** [{...this.getDefaultConfig(), ...config}]. *)
Definition getAutoRenewalConfig (ls : LocalStorage) : Config :=
  match autoRenewalConfig ls with
  | None | Some Blank => getDefaultConfig
  | Some (Doc config) =>
      {| enabled := default (enabled getDefaultConfig) (doc_enabled config);
         threshold :=
           match doc_threshold config with
           | JS.Undefined => threshold getDefaultConfig
           | given => Some given
           end;
         checkInterval :=
           default (checkInterval getDefaultConfig) (doc_checkInterval config);
         certSettings :=
           default (certSettings getDefaultConfig) (doc_certSettings config) |}
  | Some (Malformed _) => getDefaultConfig
  end.

(** [JSON.stringify(config)]: a threshold that is [undefined] is not
    written, and one that is NaN is written as [null]. *)
Definition to_doc (config : Config) : ConfigDoc :=
  {| doc_enabled := Some (enabled config);
     doc_threshold := default JS.Null (threshold config);
     doc_checkInterval := Some (checkInterval config);
     doc_certSettings := Some (certSettings config) |}.

Definition isGloballyEnabled (ls : LocalStorage) : bool :=
  let config := getAutoRenewalConfig ls in
  JS.strict_eq (enabled config) (JS.Bool true).

(** [domain] is used as a property key, hence through [ToString].
    Under a key that [certSettings] inherits and does not have itself,
    the code reads a function or the prototype, which is truthy and has
    no [enabled]: the answer is that of a key without a setting. *)
Definition isCertAutoRenewalEnabled (ls : LocalStorage) (domain : JS.value)
    : bool :=
  let config := getAutoRenewalConfig ls in
  if negb (JS.truthy (enabled config)) then false
  else
    match certSettings config !! JS.to_string domain with
    | Some certSetting =>
        if JS.strict_eq (cs_enabled certSetting) (JS.Bool false) then false
        else true
    | None => true
    end.

(** The keys that [certSettings], as every object, inherits from
    [Object.prototype]: under such a key an object without a property
    of its own shows a function, or the prototype itself, which has
    none of the fields of a setting. *)
Definition Object_prototype : list string :=
  ["constructor"; "__defineGetter__"; "__defineSetter__"; "hasOwnProperty";
   "__lookupGetter__"; "__lookupSetter__"; "isPrototypeOf";
   "propertyIsEnumerable"; "toString"; "valueOf"; "__proto__";
   "toLocaleString"].

(** [certSettings[key] = setting]. On an object without a property
    '__proto__' of its own that key is the accessor of
    [Object.prototype]: the assignment sets the prototype of
    [certSettings] and creates no property, and [JSON.stringify] writes
    the properties only. *)
Definition assign (key : string) (setting : CertSetting)
    (settings : gmap string CertSetting) : gmap string CertSetting :=
  if String.eqb key "__proto__" && bool_decide (settings !! key = None)
  then settings
  else <[key := setting]> settings.

(** [if (!certSettings[key]) certSettings[key] = { enabled: true }],
    and then an assignment to a field of [certSettings[key]]. Under an
    inherited key the object is there, so that none is created, and it
    is the inherited object that takes the field: the properties of
    [certSettings] are as before. (Under '__proto__' that object is
    [Object.prototype], and the field becomes one that every object of
    the page inherits; [Object.prototype] is taken here as the browser
    sets it up, so that what a page shows under the keys 'lastCheck'
    and 'lastRenewal' after such a call is not followed.) *)
Definition touch (key : string) (stamp : CertSetting → CertSetting)
    (settings : gmap string CertSetting) : gmap string CertSetting :=
  match settings !! key with
  | Some setting => <[key := stamp setting]> settings
  | None =>
      if bool_decide (key ∈ Object_prototype) then settings
      else <[key := stamp {| cs_enabled := JS.Bool true;
                             cs_lastCheck := JS.Undefined;
                             cs_lastRenewal := JS.Undefined |}]> settings
  end.

Section WithHost.
Context `{Host}.

(** The threshold as the comparisons read it. *)
Definition threshold_number (config : Config) : JS.number :=
  threshold config ≫= ToNumber.

(** Returns the success flag and the store after the call. The two
    comparisons of the threshold are false for a threshold that is no
    number. *)
Definition saveAutoRenewalConfig (config : Config) (ls : LocalStorage)
    : bool * LocalStorage :=
  match enabled config with
  | JS.Bool _ =>
      if JS.lt (threshold_number config) (Some 1)
         || JS.lt (Some 60) (threshold_number config)
      then (false, ls)
      else (true, set_autoRenewalConfig (Doc (to_doc config)) ls)
  | _ => (false, ls)
  end.

Definition setCertAutoRenewal (domain : JS.value) (enabled_ : bool)
    (ls : LocalStorage) (now : Z) : LocalStorage :=
  let config := getAutoRenewalConfig ls in
  let setting := {| cs_enabled := JS.Bool enabled_; cs_lastCheck := JS.Num now;
                    cs_lastRenewal := JS.Undefined |} in
  let config :=
    {| enabled := enabled config; threshold := threshold config;
       checkInterval := checkInterval config;
       certSettings :=
         assign (JS.to_string domain) setting (certSettings config) |} in
  (saveAutoRenewalConfig config ls).2.

Definition updateLastCheck (domain : JS.value) (ls : LocalStorage) (now : Z)
    : LocalStorage :=
  let config := getAutoRenewalConfig ls in
  let stamp old := {| cs_enabled := cs_enabled old; cs_lastCheck := JS.Num now;
                      cs_lastRenewal := cs_lastRenewal old |} in
  let config :=
    {| enabled := enabled config; threshold := threshold config;
       checkInterval := checkInterval config;
       certSettings := touch (JS.to_string domain) stamp (certSettings config) |} in
  (saveAutoRenewalConfig config ls).2.

Definition updateLastRenewal (domain : JS.value) (ls : LocalStorage) (now : Z)
    : LocalStorage :=
  let config := getAutoRenewalConfig ls in
  let stamp old := {| cs_enabled := cs_enabled old; cs_lastCheck := cs_lastCheck old;
                      cs_lastRenewal := JS.Num now |} in
  let config :=
    {| enabled := enabled config; threshold := threshold config;
       checkInterval := checkInterval config;
       certSettings := touch (JS.to_string domain) stamp (certSettings config) |} in
  (saveAutoRenewalConfig config ls).2.

End WithHost.

End ConfigManager.

(** ** HistoryManager *)

Module HistoryManager.

Definition MAX_RECORDS : nat := 10.

(** The [records] array of the stored history, empty when the key is
    absent or does not hold [{ records: [...] }]. *)
Definition getHistory (ls : LocalStorage) : list HistoryRecord :=
  match renewalHistory ls with
  | Some (Doc records) => records
  | _ => []
  end.

(** [`${Date.now()}-${Math.random().toString(36).substr(2, 9)}`]; [rnd]
    is the random suffix. *)
Definition generateId (now : Z) (rnd : string) : string :=
  pretty now +:+ "-" +:+ rnd.

(** [recordRenewal]; an [oldExpiry] or [newExpiry] that is NaN is
    written as [null], like one that was not given. *)
Definition recordRenewal (domain : JS.value) (status : string)
    (error : option string) (oldExpiry newExpiry : JS.number)
    (ls : LocalStorage) (now : Z) (rnd : string) : LocalStorage :=
  let records := getHistory ls in
  let record :=
    {| hr_id := generateId now rnd; hr_domain := domain; hr_timestamp := now;
       hr_status := status; hr_error := error;
       hr_oldExpiry := oldExpiry; hr_newExpiry := newExpiry |} in
  let records := record :: records in
  let records :=
    if (MAX_RECORDS <? length records)%nat then take MAX_RECORDS records
    else records in
  set_renewalHistory (Doc records) ls.

Definition getDomainHistory (ls : LocalStorage) (domain : JS.value)
    : list HistoryRecord :=
  filter (λ record, JS.strict_eq (hr_domain record) domain = true)
         (getHistory ls).

Definition getLastRenewal (ls : LocalStorage) (domain : JS.value)
    : option HistoryRecord :=
  head (getDomainHistory ls domain).

Definition cleanupOldRecords (ls : LocalStorage) : LocalStorage :=
  let records := getHistory ls in
  if (MAX_RECORDS <? length records)%nat
  then set_renewalHistory (Doc (take MAX_RECORDS records)) ls
  else ls.

Definition clearHistory (ls : LocalStorage) : LocalStorage :=
  remove_renewalHistory ls.

Record Statistics := {
  total : nat;
  success : nat;
  failure : nat;
  inProgress : nat;
}.

(** One turn of the loop of [getStatistics]. *)
Definition tally (stats : Statistics) (record : HistoryRecord) : Statistics :=
  if String.eqb (hr_status record) "success" then
    {| total := total stats; success := S (success stats);
       failure := failure stats; inProgress := inProgress stats |}
  else if String.eqb (hr_status record) "failure" then
    {| total := total stats; success := success stats;
       failure := S (failure stats); inProgress := inProgress stats |}
  else if String.eqb (hr_status record) "in_progress" then
    {| total := total stats; success := success stats;
       failure := failure stats; inProgress := S (inProgress stats) |}
  else stats.

Definition getStatistics (ls : LocalStorage) : Statistics :=
  let records := getHistory ls in
  let stats := {| total := length records; success := 0; failure := 0;
                  inProgress := 0 |} in
  fold_left tally records stats.

End HistoryManager.

(** ** The world of the renewal engine

    The browser state that the client and the scheduler read and change:
    the persisted store, the clock, the ACME engine of core.js behind
    [window.ACME] and [window.X509], the fields of the [ACMEClient] and
    [RenewalScheduler] instances, and the messages handed to the
    notifier. A call runs from its start to its return with nothing else
    in between; a renewal that is still awaiting the engine when a call
    starts shows as the [isRenewing] flag being set. *)

(** The outcome of an engine step: it calls back success or failure. *)
Inductive settle :=
| Resolved
| Rejected (err : string).

(** An outcome that returns or throws. *)
Inductive result (A : Type) :=
| Ok (a : A)
| Throw (message : string).

Arguments Ok {A} a.
Arguments Throw {A} message.

Inductive AcmeCall :=
| CallKeyParse
| CallDirectory
| CallStepAccount
| CallStepOrder
| CallStepFinalizeOrder.

#[global] Instance AcmeCall_eq_dec : EqDecision AcmeCall.
Proof. solve_decision. Defined.

(** The engine as one renewal attempt meets it: what each step answers,
    and what it leaves in [ACME.StepData]. What the client writes for
    the engine ([ACME.URL], the configuration in [ACME.StepData]) is left
    out, and a step that succeeds is taken to leave its part of
    [StepData] ([account], [order], [auths]) in place, as core.js does. *)
Record ACMEEngine := {
  Directory : settle;
  StepAccount : settle;
  StepOrder : settle;
  auths : list (string * string);
      (** [StepData.auths] after [StepOrder]: the authorization status of
          each domain, in the order of the object's keys *)
  StepFinalizeOrder : settle;
  downloadPEM : JS.value;
      (** [StepData.order.downloadPEM] after [StepFinalizeOrder] *)
}.

(** [X509.KeyParse(pem, resolve, reject, 1)]: the [pem] field of the key
    it resolves with, or the message of the error it rejects with. *)
Record X509Engine := {
  KeyParse : JS.value → result JS.value;
}.

Record Window := {
  ACME : option ACMEEngine;
  X509 : option X509Engine;
}.

(** A call of the scheduler to the notifier. *)
Inductive Notification :=
| NotifyExpiring (domain : JS.value) (daysUntilExpiry : JS.number)
| NotifyRenewalFailure (domain : JS.value) (error : string).

Record World := {
  localStorage : LocalStorage;
  now : Z;                        (** [Date.now()] *)
  elapsed : AcmeCall → Z;         (** the time an awaited engine call takes *)
  random : nat → string;          (** the successive random suffixes *)
  draws : nat;                    (** how many of them were drawn *)
  window : Window;
  isRenewing : bool;              (** [ACMEClient.isRenewing] *)
  calls : list AcmeCall;          (** engine calls made so far, oldest first *)
  notifiedDomains : list JS.value;(** [RenewalScheduler.notifiedDomains] *)
  notifications : list Notification;  (** notifier calls, oldest first *)
}.

Definition with_localStorage (ls : LocalStorage) (w : World) : World :=
  {| localStorage := ls; now := now w; elapsed := elapsed w; random := random w;
     draws := draws w; window := window w; isRenewing := isRenewing w;
     calls := calls w; notifiedDomains := notifiedDomains w;
     notifications := notifications w |}.

Definition with_now (t : Z) (w : World) : World :=
  {| localStorage := localStorage w; now := t; elapsed := elapsed w;
     random := random w; draws := draws w; window := window w;
     isRenewing := isRenewing w; calls := calls w;
     notifiedDomains := notifiedDomains w; notifications := notifications w |}.

Definition with_draws (n : nat) (w : World) : World :=
  {| localStorage := localStorage w; now := now w; elapsed := elapsed w;
     random := random w; draws := n; window := window w;
     isRenewing := isRenewing w; calls := calls w;
     notifiedDomains := notifiedDomains w; notifications := notifications w |}.

Definition with_isRenewing (b : bool) (w : World) : World :=
  {| localStorage := localStorage w; now := now w; elapsed := elapsed w;
     random := random w; draws := draws w; window := window w;
     isRenewing := b; calls := calls w;
     notifiedDomains := notifiedDomains w; notifications := notifications w |}.

Definition with_calls (l : list AcmeCall) (w : World) : World :=
  {| localStorage := localStorage w; now := now w; elapsed := elapsed w;
     random := random w; draws := draws w; window := window w;
     isRenewing := isRenewing w; calls := l;
     notifiedDomains := notifiedDomains w; notifications := notifications w |}.

Definition with_notifiedDomains (l : list JS.value) (w : World) : World :=
  {| localStorage := localStorage w; now := now w; elapsed := elapsed w;
     random := random w; draws := draws w; window := window w;
     isRenewing := isRenewing w; calls := calls w;
     notifiedDomains := l; notifications := notifications w |}.

Definition with_notifications (l : list Notification) (w : World) : World :=
  {| localStorage := localStorage w; now := now w; elapsed := elapsed w;
     random := random w; draws := draws w; window := window w;
     isRenewing := isRenewing w; calls := calls w;
     notifiedDomains := notifiedDomains w; notifications := l |}.

(** Computations that read and change the world and may throw. *)
Definition M (A : Type) : Type := World → result A * World.

Definition ret {A} (a : A) : M A := λ w, (Ok a, w).

Definition throw {A} (message : string) : M A := λ w, (Throw message, w).

Definition bind {A B} (m : M A) (k : A → M B) : M B :=
  λ w, match m w with
       | (Ok a, w') => k a w'
       | (Throw e, w') => (Throw e, w')
       end.

(** [try { m } catch (error) { handler(error.message) }]. *)
Definition try_catch {A} (m : M A) (handler : string → M A) : M A :=
  λ w, match m w with
       | (Ok a, w') => (Ok a, w')
       | (Throw e, w') => handler e w'
       end.

(** [try { m } finally { cleanup }], for a cleanup that does not throw. *)
Definition finally {A} (m : M A) (cleanup : World → World) : M A :=
  λ w, let (r, w') := m w in (r, cleanup w').

Definition gets {A} (f : World → A) : M A := λ w, (Ok (f w), w).

Definition modify (f : World → World) : M unit := λ w, (Ok (), f w).

(** What holds of every value that a computation returns. *)
Definition returns {A} (m : M A) (P : A → Prop) : Prop :=
  ∀ w, match (m w).1 with Ok a => P a | Throw _ => True end.

(** A computation that leaves an observation of the world as it is. *)
Definition unchanged {A B} (f : World → B) (m : M A) : Prop :=
  ∀ w, f (m w).2 = f w.

(** A computation that maintains a property of the world. *)
Definition maintains {A} (I : World → Prop) (m : M A) : Prop :=
  ∀ w, I w → I (m w).2.

Declare Scope js_scope.
Delimit Scope js_scope with js.

Notation "'let*' x := m 'in' k" := (bind m (λ x, k))
  (at level 10, x name, m at level 100, k at level 200) : js_scope.

Notation "m ;;; k" := (bind m (λ _, k))
  (at level 100, k at level 200, right associativity) : js_scope.

Open Scope js_scope.

(** [Date.now()]. *)
Definition Date_now : M Z := gets now.

(** [Math.random().toString(36).substr(2, 9)]. *)
Definition Math_random : M string :=
  λ w, (Ok (random w (draws w)), with_draws (S (draws w)) w).

(** Awaiting an engine call: it is logged, and the clock moves on. *)
Definition awaited (w : World) (call : AcmeCall) : World :=
  with_now (now w + elapsed w call) (with_calls (calls w ++ [call]) w).

Definition await (call : AcmeCall) : M unit := modify (λ w, awaited w call).

(** A call to the notifier is logged; whether and when the message is
    delivered is the notifier's affair. *)
Definition notify (n : Notification) : M unit :=
  modify (λ w, with_notifications (notifications w ++ [n]) w).

(** ** ACMEClient *)

Module ACMEClient.

Import CertificateScanner.

(** The [certificate] field of a successful result. *)
Record RenewedCertificate := {
  rc_domains : JS.value;
  rc_cert : JS.value;
  rc_key : JS.value;
  rc_time : Z;
}.

(** What [renewCertificate] resolves with; [None] is a field that the
    object literal does not have. *)
Record RenewalResult := {
  success : bool;
  requiresManual : bool;
  message : option string;
  inProgress : option bool;
  authorizationsNeeded : option (list string);
  renewalUrl : option string;
  hint : option string;
  error : option string;
  renewed : option RenewedCertificate;
}.

(** [!!localStorage.getItem(key)] for a key that holds plain text. *)
Definition present (item : option string) : bool :=
  match item with
  | Some s => negb (String.eqb s "")
  | None => false
  end.

Record Capability := {
  hasAccount : bool;
  hasEmail : bool;
  canAutoRenew : bool;
  capabilityMessage : string;
}.

Definition checkRenewalCapability (ls : LocalStorage) : Capability :=
  let acmeAccountKey := present (acmeAccountKey ls) in
  let userEmail := present (email ls) in
  {| hasAccount := acmeAccountKey;
     hasEmail := userEmail;
     canAutoRenew := acmeAccountKey && userEmail;
     capabilityMessage :=
       if negb acmeAccountKey
       then "ACME account key not configured. Please complete initial certificate setup first."
       else if negb userEmail
       then "Email not configured. Please complete initial certificate setup first."
       else "Ready for renewal" |}.

(** The [errors] array of [validateCertificate]; the certificate is
    valid when it is empty. *)
Definition validateCertificate (certificate : Certificate) : list string :=
  (if JS.truthy (domains certificate) then [] else ["Missing domains"])
  ++ (if JS.truthy (cert certificate) then [] else ["Missing certificate data"])
  ++ (if JS.truthy (key certificate) then [] else ["Missing private key"])
  ++ (if JS.truthy (time certificate) then [] else ["Missing certificate timestamp"]).

(** [s.split(',')]. *)
Fixpoint split_comma (s : string) : list string :=
  match s with
  | EmptyString => [EmptyString]
  | String c rest =>
      if Ascii.eqb c "," then EmptyString :: split_comma rest
      else match split_comma rest with
           | x :: xs => String c x :: xs
           | [] => [String c EmptyString]
           end
  end.

(** [s.trim()], for the white space of ASCII. *)
Definition is_space (c : ascii) : bool :=
  bool_decide (c ∈ [" "; "009"; "010"; "011"; "012"; "013"]%char).

Fixpoint trim_start (s : string) : string :=
  match s with
  | String c rest => if is_space c then trim_start rest else s
  | EmptyString => s
  end.

Fixpoint trim_end (s : string) : string :=
  match s with
  | String c rest =>
      match trim_end rest with
      | EmptyString => if is_space c then EmptyString else String c EmptyString
      | rest' => String c rest'
      end
  | EmptyString => s
  end.

Definition trim (s : string) : string := trim_end (trim_start s).

Record Configuration := {
  cfg_domains : list string;
  cfg_privateKey : JS.value;   (** [privateKey.pem] *)
  cfg_accountKey : JS.value;
  cfg_email : string;
  cfg_acmeURL : string;
}.

(** Awaiting [X509.KeyParse]. *)
Definition KeyParse_await (x509 : X509Engine) (pem : JS.value) : M JS.value :=
  await CallKeyParse ;;;
  match KeyParse x509 pem with
  | Ok k => ret k
  | Throw e => throw e
  end.

Definition loadConfiguration (certificate : Certificate) (x509 : X509Engine)
    : M Configuration :=
  let* ls := gets localStorage in
  if negb (present (acmeAccountKey ls))
  then throw "ACME account key not found. Please complete initial certificate setup."
  else if negb (present (email ls))
  then throw "Email not configured. Please complete initial certificate setup."
  else
    let acmeURL :=
      if present (acmeURL ls) then default "" (acmeURL ls)
      else "https://acme-v02.api.letsencrypt.org/directory" in
    let* accountKey :=
      KeyParse_await x509 (JS.Str (default "" (acmeAccountKey ls))) in
    let* privateKey :=
      if JS.truthy (key certificate) then KeyParse_await x509 (key certificate)
      else throw "Certificate private key not found" in
    let* domains :=
      match domains certificate with
      | JS.Str s => ret (trim <$> split_comma s)
      | _ => throw "Invalid domains format"
      end in
    ret {| cfg_domains := domains; cfg_privateKey := privateKey;
           cfg_accountKey := accountKey;
           cfg_email := default "" (email ls); cfg_acmeURL := acmeURL |}.

Record AuthorizationStatus := {
  allValid : bool;
  pendingDomains : list string;
}.

(** The loop [for (const domain in auths)]. *)
Definition checkAuthorizationStatus (auths : list (string * string))
    : AuthorizationStatus :=
  fold_left
    (λ acc auth,
       if negb (String.eqb auth.2 "valid")
       then {| allValid := false;
               pendingDomains := pendingDomains acc ++ [auth.1] |}
       else acc)
    auths
    {| allValid := true; pendingDomains := [] |}.

(** The test of [certs.findIndex]. *)
Definition same_certificate (oldCert : Certificate)
    (c : gmap string JS.value) : bool :=
  JS.strict_eq (JS.get c "domains") (domains oldCert)
  || JS.strict_eq (JS.get c "time") (time oldCert).

(** The object that replaces the found entry [c]. *)
Definition renewed_entry (c : gmap string JS.value)
    (newCertPEM privateKeyPEM : JS.value) (t : Z) : gmap string JS.value :=
  JS.spread c
    (<["cert" := newCertPEM]> (
     <["key" := privateKeyPEM]> (
     <["time" := JS.Num t]> (
     <["renewalStatus" := JS.Str "success"]> (
     <["lastRenewalSuccess" := JS.Num t]> (
     <["autoRenewed" := JS.Bool true]> ∅)))))).

Definition storeCertificate (oldCert : Certificate)
    (newCertPEM privateKeyPEM : JS.value) : M unit :=
  let* ls := gets localStorage in
  match certs ls with
  | None | Some Blank => throw "Certificate storage not found"
  | Some (Malformed e) => throw e
  | Some (Doc certs) =>
      match list_find (λ c, same_certificate oldCert c = true) certs with
      | None => throw "Original certificate not found in storage"
      | Some (certIndex, c) =>
          let* t := Date_now in
          let updated := renewed_entry c newCertPEM privateKeyPEM t in
          let certs := <[certIndex := updated]> certs in
          modify (λ w, with_localStorage
                         (set_certs (Doc (JS.stringify <$> certs)) (localStorage w)) w)
      end
  end.

(** Awaiting one step of the engine; a failure is rethrown as an
    [Error] whose message starts with [prefix]. *)
Definition step (call : AcmeCall) (outcome : settle) (prefix : string)
    : M bool :=
  await call ;;;
  match outcome with
  | Resolved => ret true
  | Rejected err => throw (prefix +:+ err)
  end.

Definition renewalUrl_of (certificate : Certificate) : string :=
  "/?autoRenew=1&domain="
  +:+ JS.encodeURIComponent (JS.to_string (domains certificate)).

(** The outcome of a call that finds a renewal running. *)
Definition alreadyInProgress : RenewalResult :=
  {| success := false;
     requiresManual := false;
     message := Some "Renewal already in progress";
     inProgress := Some true;
     authorizationsNeeded := None;
     renewalUrl := None;
     hint := None;
     error := None;
     renewed := None |}.

(** The outcome of a call that finds an authorization that is not
    valid. *)
Definition manualRequired (certificate : Certificate)
    (pending : list string) : RenewalResult :=
  {| success := false;
     requiresManual := true;
     message := Some "Authorization cache expired (>30 days since last validation). Manual domain verification required.";
     inProgress := None;
     authorizationsNeeded := Some pending;
     renewalUrl := Some (renewalUrl_of certificate);
     hint := Some "Please complete domain verification through the web interface, or wait until within 30 days of last validation.";
     error := None;
     renewed := None |}.

(** The outcome of a renewal that went through. *)
Definition renewedAutomatically (certificate : Certificate)
    (newCertPEM privateKeyPEM : JS.value) (t : Z) : RenewalResult :=
  {| success := true;
     requiresManual := false;
     message := Some "Certificate renewed automatically using cached authorizations";
     inProgress := None;
     authorizationsNeeded := None;
     renewalUrl := None;
     hint := None;
     error := None;
     renewed := Some {| rc_domains := domains certificate;
                        rc_cert := newCertPEM;
                        rc_key := privateKeyPEM;
                        rc_time := t |} |}.

(** The outcome of a call that failed, as the outer [catch] builds it. *)
Definition failed (message_ : string) : RenewalResult :=
  {| success := false;
     requiresManual := true;
     message := None;
     inProgress := None;
     authorizationsNeeded := None;
     renewalUrl := None;
     hint := None;
     error := Some message_;
     renewed := None |}.

(** Steps 5 to 8 of the inner [try]: the authorizations are inspected,
    and the order is finalized if all of them are valid. *)
Definition conclude (certificate : Certificate) (acme : ACMEEngine)
    (config : Configuration) : M RenewalResult :=
  let authStatus := checkAuthorizationStatus (auths acme) in
  if negb (allValid authStatus) then
    ret (manualRequired certificate (pendingDomains authStatus))
  else
  let* orderFinalized :=
    step CallStepFinalizeOrder (StepFinalizeOrder acme)
         "Order finalization failed: " in
  if negb orderFinalized then throw "Failed to finalize order" else
  let newCertPEM := downloadPEM acme in
  if negb (JS.truthy newCertPEM)
  then throw "Certificate download failed - no PEM data" else
  storeCertificate certificate newCertPEM (cfg_privateKey config) ;;;
  let* t := Date_now in
  ret (renewedAutomatically certificate newCertPEM (cfg_privateKey config) t).

(** The body of the inner [try]. *)
Definition attempt (certificate : Certificate) : M RenewalResult :=
  let* w := gets window in
  match ACME w with
  | None => throw "ACME client not available. Please ensure core.js is loaded."
  | Some acme =>
  match X509 w with
  | None => throw "X509 utilities not available. Please ensure core.js is loaded."
  | Some x509 =>
      let* config := loadConfiguration certificate x509 in
      let* directoryLoaded :=
        step CallDirectory (Directory acme) "Failed to load ACME directory: " in
      if negb directoryLoaded then throw "Failed to load ACME directory" else
      let* accountCreated :=
        step CallStepAccount (StepAccount acme) "ACME account error: " in
      if negb accountCreated then throw "Failed to create/verify ACME account" else
      let* orderCreated :=
        step CallStepOrder (StepOrder acme) "Order creation failed: " in
      if negb orderCreated then throw "Failed to create order" else
      conclude certificate acme config
  end
  end.

(** The inner [catch]. *)
Definition on_attempt_error (certificate : Certificate) (message_ : string)
    : M RenewalResult :=
  if JS.includes message_ "authorization"
     || JS.includes message_ "pending"
     || JS.includes message_ "invalid"
  then
    ret {| success := false;
           requiresManual := true;
           message := Some "Authorization verification required. Authorizations may have expired.";
           inProgress := None;
           authorizationsNeeded := None;
           renewalUrl := Some (renewalUrl_of certificate);
           hint := None;
           error := Some message_;
           renewed := None |}
  else throw message_.

(** The body of the outer [try]. *)
Definition guarded (certificate : Certificate) : M RenewalResult :=
  let* ls := gets localStorage in
  let capability := checkRenewalCapability ls in
  if negb (canAutoRenew capability) then throw (capabilityMessage capability) else
  let validation := validateCertificate certificate in
  if negb (bool_decide (validation = []))
  then throw ("Invalid certificate: " +:+ JS.join ", " validation) else
  let* renewing := gets isRenewing in
  if renewing then ret alreadyInProgress
  else
  modify (with_isRenewing true) ;;;
  try_catch (attempt certificate) (on_attempt_error certificate).

(** The outer [catch]. *)
Definition on_error (message_ : string) : M RenewalResult :=
  ret (failed message_).

Definition renewCertificate (certificate : Certificate) : M RenewalResult :=
  finally (try_catch (guarded certificate) on_error) (with_isRenewing false).

Definition isRenewalInProgress : M bool := gets isRenewing.

(** An entry of [renewalQueue]; [None] is a [completedAt] that is not
    set. *)
Record QueueEntry := {
  q_domain : JS.value;
  q_timestamp : Z;
  q_status : string;
  q_completedAt : option Z;
}.

Definition getPendingRenewals (renewalQueue : list QueueEntry)
    : list QueueEntry :=
  filter (λ r, q_status r = "pending") renewalQueue.


(** The queue after [markRenewalCompleted(domain, success)]. *)
Definition markRenewalCompleted (domain : JS.value) (success_ : bool) (now : Z)
    (renewalQueue : list QueueEntry) : list QueueEntry :=
  match list_find (λ r, JS.strict_eq (q_domain r) domain = true) renewalQueue with
  | Some (index, item) =>
      <[index := {| q_domain := q_domain item; q_timestamp := q_timestamp item;
                    q_status := if success_ then "completed" else "failed";
                    q_completedAt := Some now |}]> renewalQueue
  | None => renewalQueue
  end.

End ACMEClient.

(** ** The timers of the page

    [setInterval] and [clearInterval]: the timers that are set, with
    their delays, and the identifier that the next timer gets. The
    identifiers that a browser hands out are positive. *)

Record Timers := {
  active : list (nat * Z);
  next : nat;
}.

Definition setInterval (delay : Z) (timers : Timers) : nat * Timers :=
  (next timers,
   {| active := active timers ++ [(next timers, delay)];
      next := S (next timers) |}).

Definition clearInterval (id : nat) (timers : Timers) : Timers :=
  {| active := filter (λ timer, timer.1 ≠ id) (active timers);
     next := next timers |}.

(** ** RenewalScheduler *)

Module RenewalScheduler.

Import CertificateScanner.

Record Job := {
  job_id : string;
  domain : JS.value;
  status : string;
  createdAt : Z;
  startedAt : option Z;
  completedAt : option Z;
  error : option string;
  originalCert : ExpiringCertificate;
  newCert : option ACMEClient.RenewedCertificate;
  renewalUrl : option string;
}.

(** Assignments to the fields of a job. *)
Definition started (t : Z) (job : Job) : Job :=
  {| job_id := job_id job; domain := domain job; status := "in_progress";
     createdAt := createdAt job; startedAt := Some t;
     completedAt := completedAt job; error := error job;
     originalCert := originalCert job; newCert := newCert job;
     renewalUrl := renewalUrl job |}.

Definition finished (status_ : string) (t : Z) (error_ : option string)
    (newCert_ : option ACMEClient.RenewedCertificate)
    (renewalUrl_ : option string) (job : Job) : Job :=
  {| job_id := job_id job; domain := domain job; status := status_;
     createdAt := createdAt job; startedAt := startedAt job;
     completedAt := Some t; error := error_;
     originalCert := originalCert job; newCert := newCert_;
     renewalUrl := renewalUrl_ |}.

Definition createRenewalJob (c : ExpiringCertificate) : M Job :=
  let* t := Date_now in
  let* rnd := Math_random in
  ret {| job_id := "renewal-" +:+ pretty t +:+ "-" +:+ rnd;
         domain := domains (certificate c);
         status := "pending";
         createdAt := t;
         startedAt := None;
         completedAt := None;
         error := None;
         originalCert := c;
         newCert := None;
         renewalUrl := None |}.

(** The calls into the scanner, the history and the policy, on the
    store of the world. *)
Definition scanner_updateCertificate (id : nat)
    (updates : gmap string JS.value) : M unit :=
  modify (λ w, with_localStorage
                 (updateCertificate id updates (localStorage w) (now w)) w).

Definition historyManager_recordRenewal (domain_ : JS.value) (status_ : string)
    (error_ : option string) (oldExpiry : JS.number) : M unit :=
  let* t := Date_now in
  let* rnd := Math_random in
  modify (λ w, with_localStorage
                 (HistoryManager.recordRenewal domain_ status_ error_ oldExpiry
                    None (localStorage w) t rnd) w).

Definition configManager_updateLastCheck `{Host} (domain_ : JS.value) : M unit :=
  modify (λ w, with_localStorage
                 (ConfigManager.updateLastCheck domain_ (localStorage w) (now w)) w).

(** [`${x}`] for a string that may be [undefined]. *)
Definition shown (x : option string) : string := default "undefined" x.

(** [x || fallback] for a string that may be [undefined]. *)
Definition or_string (x : option string) (fallback : string) : string :=
  match x with
  | Some s => if String.eqb s "" then fallback else s
  | None => fallback
  end.

Definition newline : string := String "010" EmptyString.

Section WithHost.
Context `{Host}.

Definition oldExpiry_of (job : Job) : JS.number :=
  JSDate.getTime (getExpiryDate (certificate (originalCert job))).

(** The start of a job: the certificate and the history are marked
    in_progress. *)
Definition mark_in_progress (job : Job) : M Job :=
  let* t := Date_now in
  let job := started t job in
  scanner_updateCertificate (id (certificate (originalCert job)))
    (<["renewalStatus" := JS.Str "in_progress"]> (
     <["lastRenewalAttempt" := JS.Num t]> ∅)) ;;;
  historyManager_recordRenewal (domain job) "in_progress" None
    (oldExpiry_of job) ;;;
  ret job.

(** The branch [if (renewalResult.success)]. *)
Definition on_success (job : Job) (renewalResult : ACMEClient.RenewalResult)
    : M Job :=
  let* t := Date_now in
  let job := finished "completed" t (error job)
               (ACMEClient.renewed renewalResult) (renewalUrl job) job in
  scanner_updateCertificate (id (certificate (originalCert job)))
    (<["renewalStatus" := JS.Str "success"]> (
     <["lastRenewalSuccess" := JS.Num t]> ∅)) ;;;
  historyManager_recordRenewal (domain job) "success" None
    (oldExpiry_of job) ;;;
  modify (λ w, with_notifiedDomains
                 (filter (λ d, JS.strict_eq d (domain job) = false)
                         (notifiedDomains w)) w) ;;;
  ret job.

(** The branch [else if (renewalResult.requiresManual)]. *)
Definition on_manual (job : Job) (renewalResult : ACMEClient.RenewalResult)
    : M Job :=
  let* t := Date_now in
  let job := finished "manual_required" t
               (ACMEClient.message renewalResult) (newCert job)
               (ACMEClient.renewalUrl renewalResult) job in
  scanner_updateCertificate (id (certificate (originalCert job)))
    (<["renewalStatus" := JS.Str "manual_required"]> (
     <["renewalUrl" :=
         from_option JS.Str JS.Undefined
           (ACMEClient.renewalUrl renewalResult)]> ∅)) ;;;
  historyManager_recordRenewal (domain job) "manual_required"
    (ACMEClient.message renewalResult) (oldExpiry_of job) ;;;
  notify (NotifyRenewalFailure (domain job)
            ("Manual renewal required: "
             +:+ shown (ACMEClient.message renewalResult) +:+ newline
             +:+ "Please visit: "
             +:+ shown (ACMEClient.renewalUrl renewalResult))) ;;;
  ret job.

(** The last [else] branch. *)
Definition on_failure (job : Job) (renewalResult : ACMEClient.RenewalResult)
    : M Job :=
  let errorMsg :=
    or_string (ACMEClient.error renewalResult) "Unknown error occurred" in
  let* t := Date_now in
  let job := finished "failure" t (Some errorMsg) (newCert job)
               (renewalUrl job) job in
  scanner_updateCertificate (id (certificate (originalCert job)))
    (<["renewalStatus" := JS.Str "failure"]> ∅) ;;;
  historyManager_recordRenewal (domain job) "failure" (Some errorMsg)
    (oldExpiry_of job) ;;;
  notify (NotifyRenewalFailure (domain job) errorMsg) ;;;
  ret job.

(** The body of the [try] of [executeRenewalJob]; the job is returned
    as the call leaves it. *)
Definition run (job : Job) : M Job :=
  let* job := mark_in_progress job in
  let* renewalResult :=
    ACMEClient.renewCertificate (certificate (originalCert job)) in
  let* job :=
    if ACMEClient.success renewalResult then on_success job renewalResult
    else if ACMEClient.requiresManual renewalResult
         then on_manual job renewalResult
         else on_failure job renewalResult in
  configManager_updateLastCheck (domain job) ;;;
  ret job.

(** The [catch] of [executeRenewalJob]. None of the calls of the [try]
    throws, each of them catching its own errors, so the handler is here
    for the shape of the source. *)
Definition on_job_error (job : Job) (message_ : string) : M Job :=
  let* t := Date_now in
  let job := finished "failure" t (Some message_) (newCert job)
               (renewalUrl job) job in
  scanner_updateCertificate (id (certificate (originalCert job)))
    (<["renewalStatus" := JS.Str "failure"]> ∅) ;;;
  historyManager_recordRenewal (domain job) "failure" (Some message_)
    (oldExpiry_of job) ;;;
  notify (NotifyRenewalFailure (domain job) message_) ;;;
  ret job.

Definition executeRenewalJob (job : Job) : M Job :=
  try_catch (run job) (on_job_error job).

(** The store after the two writes that start a job. *)
Definition marked (job : Job) (w : World) : LocalStorage :=
  HistoryManager.recordRenewal (domain job) "in_progress" None
    (oldExpiry_of job) None
    (updateCertificate (id (certificate (originalCert job)))
       (<["renewalStatus" := JS.Str "in_progress"]> (
        <["lastRenewalAttempt" := JS.Num (now w)]> ∅))
       (localStorage w) (now w))
    (now w) (random w (draws w)).

(** The store after the two writes of the failure branch. *)
Definition failed_store (job : Job) (errorMsg : string) (ls : LocalStorage)
    (t : Z) (rnd : string) : LocalStorage :=
  HistoryManager.recordRenewal (domain job) "failure" (Some errorMsg)
    (oldExpiry_of job) None
    (updateCertificate (id (certificate (originalCert job)))
       (<["renewalStatus" := JS.Str "failure"]> ∅) ls t)
    t rnd.

(** The world that a job leaves when it meets a running renewal. *)
Definition overlapped (job : Job) (w : World) : World :=
  with_isRenewing false
    (with_notifications
       (notifications w
        ++ [NotifyRenewalFailure (domain job) "Unknown error occurred"])
       (with_localStorage
          (ConfigManager.updateLastCheck (domain job)
             (failed_store job "Unknown error occurred" (marked job w) (now w)
                (random w (S (draws w))))
             (now w))
          (with_draws (S (S (draws w))) w))).

(** One turn of the loop of [checkAndRenew]. The certificates of
    [detectExpiringCertificates] have no [isExpired] field, so the test
    [!cert.isExpired] of the source always holds. *)
Definition check_one (c : ExpiringCertificate) : M unit :=
  let* ls := gets localStorage in
  if negb (ConfigManager.isCertAutoRenewalEnabled ls (domains (certificate c)))
  then ret ()
  else
    let* notified := gets notifiedDomains in
    (if negb (existsb (JS.strict_eq (domains (certificate c))) notified)
     then
       notify (NotifyExpiring (domains (certificate c)) (daysUntilExpiry c)) ;;;
       modify (λ w, with_notifiedDomains
                      (notifiedDomains w ++ [domains (certificate c)]) w)
     else ret ()) ;;;
    if JS.strict_eq (renewalStatus (certificate c)) (JS.Str "in_progress")
    then ret ()
    else
      let* job := createRenewalJob c in
      executeRenewalJob job ;;;
      ret ().

Fixpoint for_each {A} (body : A → M unit) (l : list A) : M unit :=
  match l with
  | [] => ret ()
  | x :: rest => body x ;;; for_each body rest
  end.

(** [this.scanner.detectExpiringCertificates(config.threshold)]. The
    threshold of a policy is any scalar: [undefined] takes the default
    of the parameter, 30, and [daysUntilExpiry <= threshold] reads the
    threshold as a number. When it is no number that test is false for
    every certificate, and [getCertificateStatus] is 'expired' when the
    days are at most 0 and 'valid' otherwise, which is its answer for
    the threshold 0: the call finds what it finds with the threshold
    0. *)
Definition scanner_detectExpiringCertificates (ls : LocalStorage) (now : Z)
    (config : ConfigManager.Config) : list ExpiringCertificate :=
  match ConfigManager.threshold config with
  | Some JS.Undefined => detectExpiringCertificates ls now 30
  | _ =>
      match ConfigManager.threshold_number config with
      | Some n => detectExpiringCertificates ls now n
      | None => detectExpiringCertificates ls now 0
      end
  end.

Definition checkAndRenew : M unit :=
  try_catch
    (let* ls := gets localStorage in
     if negb (ConfigManager.isGloballyEnabled ls) then ret ()
     else
       let config := ConfigManager.getAutoRenewalConfig ls in
       let* t := Date_now in
       let expiringCerts := scanner_detectExpiringCertificates ls t config in
       for_each check_one expiringCerts)
    (λ _, ret ()).

End WithHost.

(** The fields [isRunning] and [intervalId] of a scheduler; [None] is
    [null]. *)
Record Instance := {
  isRunning : bool;
  intervalId : option nat;
}.

(** The fields as the constructor sets them. *)
Definition constructed : Instance :=
  {| isRunning := false; intervalId := None |}.

(** [start()]. The check that it runs first is not awaited: the call
    returns whether it launched one, and the check itself is
    [checkAndRenew], which does not write the policy before it first
    awaits. The delay of the timer is the [checkInterval] of the policy
    that is stored when the scheduler starts. *)
Definition start (ls : LocalStorage) (s : Instance) (timers : Timers)
    : Instance * Timers * bool :=
  if isRunning s then (s, timers, false)
  else
    let config := ConfigManager.getAutoRenewalConfig ls in
    let (id, timers) := setInterval (ConfigManager.checkInterval config) timers in
    ({| isRunning := true; intervalId := Some id |}, timers, true).

(** [stop()]. *)
Definition stop (s : Instance) (timers : Timers) : Instance * Timers :=
  if negb (isRunning s) then (s, timers)
  else
    match intervalId s with
    | Some id =>
        if negb (id =? 0)%nat
        then ({| isRunning := false; intervalId := None |},
              clearInterval id timers)
        else ({| isRunning := false; intervalId := Some id |}, timers)
    | None => ({| isRunning := false; intervalId := None |}, timers)
    end.

End RenewalScheduler.

(** ** TelegramNotifier *)

Module TelegramNotifier.

(** The text under the key 'certple-telegram-config'; a stored text
    that is valid JSON but no object reads as the object without
    fields. *)
Definition Slot : Type := option (stored (gmap string JS.value)).

(** A call of [fetch]: the address, and the fields of the JSON body. *)
Record Request := {
  url : string;
  method : string;
  contentType : string;
  chat_id : JS.value;
  text : string;
  parse_mode : string;
}.

(** What the Bot API answers: nothing that parses as JSON ([fetch] or
    [response.json()] rejects), or an object with its [ok] and
    [description] fields. *)
Inductive Answer :=
| Unreachable
| Json (ok description : JS.value).

(** The network: how a request is answered, and the requests made so
    far, oldest first. *)
Record Network := {
  answer : Request → Answer;
  requests : list Request;
}.

Definition getDefaultConfig : gmap string JS.value :=
  <["enabled" := JS.Bool false]> (
  <["botToken" := JS.Str ""]> (
  <["chatId" := JS.Str ""]> (
  <["notifyOnExpiring" := JS.Bool true]> (
  <["notifyOnRenewalSuccess" := JS.Bool true]> (
  <["notifyOnRenewalFailure" := JS.Bool true]> ∅))))).

Definition getTelegramConfig (slot : Slot) : gmap string JS.value :=
  match slot with
  | None | Some Blank => getDefaultConfig
  | Some (Doc config) => JS.spread getDefaultConfig config
  | Some (Malformed _) => getDefaultConfig
  end.

(** Returns the success flag and the slot after the call. *)
Definition saveTelegramConfig (config : gmap string JS.value) (slot : Slot)
    : bool * Slot :=
  if JS.truthy (JS.get config "enabled")
     && (negb (JS.truthy (JS.get config "botToken"))
         || negb (JS.truthy (JS.get config "chatId")))
  then (false, slot)
  else (true, Some (Doc (JS.stringify config))).

(** [config.enabled && config.botToken && config.chatId]. *)
Definition isEnabled (slot : Slot) : JS.value :=
  let config := getTelegramConfig slot in
  JS.and_then (JS.and_then (JS.get config "enabled") (JS.get config "botToken"))
               (JS.get config "chatId").

(** Returns the success flag and the network after the call. *)
Definition sendMessage (slot : Slot) (message : string) (net : Network)
    : bool * Network :=
  if negb (JS.truthy (isEnabled slot)) then (false, net)
  else
    let config := getTelegramConfig slot in
    let url := "https://api.telegram.org/bot"
               +:+ JS.to_string (JS.get config "botToken") +:+ "/sendMessage" in
    let request :=
      {| url := url; method := "POST"; contentType := "application/json";
         chat_id := JS.get config "chatId"; text := message;
         parse_mode := "HTML" |} in
    let net := {| answer := answer net; requests := requests net ++ [request] |} in
    match answer net request with
    | Json ok _ => if negb (JS.truthy ok) then (false, net) else (true, net)
    | Unreachable => (false, net)
    end.

Definition nl : string := String "010" EmptyString.

Section WithLocale.

(** [new Date(t).toLocaleString('zh-CN')], which the host renders. *)
Variable toLocaleString : Z → string.

Definition notifyExpiring (slot : Slot) (now : Z) (domain : JS.value)
    (daysUntilExpiry : JS.number) (net : Network) : Network :=
  let config := getTelegramConfig slot in
  if negb (JS.truthy (JS.get config "notifyOnExpiring")) then net
  else
    let message :=
      "⚠️ <b>证书即将到期提醒</b>" +:+ nl +:+ nl
      +:+ "域名: <code>" +:+ JS.to_string domain +:+ "</code>" +:+ nl
      +:+ "剩余天数: <b>" +:+ JS.number_to_string daysUntilExpiry +:+ "</b> 天" +:+ nl
      +:+ "时间: " +:+ toLocaleString now in
    (sendMessage slot message net).2.

Definition notifyRenewalSuccess (slot : Slot) (now : Z) (domain : JS.value)
    (newExpiryDays : JS.number) (net : Network) : Network :=
  let config := getTelegramConfig slot in
  if negb (JS.truthy (JS.get config "notifyOnRenewalSuccess")) then net
  else
    let message :=
      "✅ <b>证书续期成功</b>" +:+ nl +:+ nl
      +:+ "域名: <code>" +:+ JS.to_string domain +:+ "</code>" +:+ nl
      +:+ "新证书有效期: <b>" +:+ JS.number_to_string newExpiryDays +:+ "</b> 天" +:+ nl
      +:+ "时间: " +:+ toLocaleString now in
    (sendMessage slot message net).2.

Definition notifyRenewalFailure (slot : Slot) (now : Z) (domain : JS.value)
    (error : string) (net : Network) : Network :=
  let config := getTelegramConfig slot in
  if negb (JS.truthy (JS.get config "notifyOnRenewalFailure")) then net
  else
    let message :=
      "❌ <b>证书续期失败</b>" +:+ nl +:+ nl
      +:+ "域名: <code>" +:+ JS.to_string domain +:+ "</code>" +:+ nl
      +:+ "错误: " +:+ error +:+ nl
      +:+ "时间: " +:+ toLocaleString now in
    (sendMessage slot message net).2.

Definition testConnection (slot : Slot) (now : Z) (net : Network)
    : bool * Network :=
  let message :=
    "🔔 <b>Certple 测试通知</b>" +:+ nl +:+ nl
    +:+ "Telegram 通知配置成功！" +:+ nl
    +:+ "时间: " +:+ toLocaleString now in
  sendMessage slot message net.

(** The call that the scheduler makes for a notification. *)
Definition deliver (slot : Slot) (now : Z) (n : Notification) (net : Network)
    : Network :=
  match n with
  | NotifyExpiring domain daysUntilExpiry =>
      notifyExpiring slot now domain daysUntilExpiry net
  | NotifyRenewalFailure domain error =>
      notifyRenewalFailure slot now domain error net
  end.

End WithLocale.

End TelegramNotifier.

(** ** The certificate page (pages/manage)

    The cell of the table that counts down to the expiry of a stored
    certificate, as [updateGuoqiTimes] fills it. *)

Module ManagePage.

(** What the cell shows: that the certificate has expired, or the days,
    hours and minutes that are left. *)
Inductive Remaining :=
| Expired
| Left (days hours minutes : JS.number).

Definition textContent (r : Remaining) : string :=
  match r with
  | Expired => "已过期"
  | Left days hours minutes =>
      JS.number_to_string days +:+ " 天 " +:+ JS.number_to_string hours +:+ " 小时 " +:+ JS.number_to_string minutes +:+ " 分"
  end.

(** The attribute [data-time] of the cell of a stored entry:
    [`${d.time}`]. The attribute is read as it is written: a time whose
    text holds a quote or a character reference, which the parser of
    the page would change, is outside the model. *)
Definition data_time (d : gmap string JS.value) : string :=
  JS.to_string (JS.get d "time").

Section WithHost.
Context `{Host}.

(** [new Date(new Date(attr).getTime() + 90 * 24 * 60 * 60 * 1000) - now]. *)
Definition time_left (attr : string) (now : Z) : JS.number :=
  let issued := JSDate.construct (JS.Str attr) in
  let expiry :=
    JS.add (JSDate.getTime issued) (Some (90 * 24 * 60 * 60 * 1000))
    ≫= JSDate.TimeClip in
  JS.sub expiry (Some now).

(** The callback of [guoqiTimes.forEach]; the quotients are of positive
    integers. *)
Definition updateGuoqiTimes (attr : string) (now : Z) : Remaining :=
  match time_left attr now with
  | Some time =>
      if (time <? 0) || (time =? 0) then Expired
      else
        let days := time / (1000 * 60 * 60 * 24) in
        let hours := (time mod (1000 * 60 * 60 * 24)) / (1000 * 60 * 60) in
        let minutes := (time mod (1000 * 60 * 60)) / (1000 * 60) in
        Left (Some days) (Some hours) (Some minutes)
  | None => Left JS.NaN JS.NaN JS.NaN
  end.

End WithHost.

End ManagePage.


(** ** The situation after the order step

    What it takes for an attempt to reach the inspection of the
    authorizations: no renewal is running, the account key and the e-mail
    are configured, the certificate is complete, the engine is loaded,
    both keys parse, the domains are a string, and the directory, account
    and order steps succeed. *)

Record OrderCreated (c : CertificateScanner.Certificate) (w : World)
    (acme : ACMEEngine) (x509 : X509Engine) (privateKey : JS.value) : Prop := {
  oc_idle : isRenewing w = false;
  oc_capable :
    ACMEClient.canAutoRenew (ACMEClient.checkRenewalCapability (localStorage w))
    = true;
  oc_complete : ACMEClient.validateCertificate c = [];
  oc_ACME : ACME (window w) = Some acme;
  oc_X509 : X509 (window w) = Some x509;
  oc_accountKey :
    ∃ k, KeyParse x509 (JS.Str (default "" (acmeAccountKey (localStorage w))))
         = Ok k;
  oc_privateKey : KeyParse x509 (CertificateScanner.key c) = Ok privateKey;
  oc_domains : ∃ s, CertificateScanner.domains c = JS.Str s;
  oc_directory : Directory acme = Resolved;
  oc_account : StepAccount acme = Resolved;
  oc_order : StepOrder acme = Resolved;
}.

(** The domains whose authorization is not valid, in the order of the
    authorization map. *)
Definition non_valid (statuses : list (string * string)) : list string :=
  (filter (λ a, a.2 ≠ "valid") statuses).*1.

(** The engine calls of an attempt up to the order step. *)
Definition calls_to_order : list AcmeCall :=
  [CallKeyParse; CallKeyParse; CallDirectory; CallStepAccount; CallStepOrder].

(** ** What a job keeps of the scanned certificates *)

(** The scanner's collection still shows, at every index, the
    certificate, key and time that a scan of [entries] at [now] reads. *)
Definition Keeps (entries : list (gmap string JS.value)) (now : Z)
    (w : World) : Prop :=
  ∃ entries',
    manageDataPairs (localStorage w) = Some (Doc entries')
    ∧ length entries' = length entries
    ∧ ∀ j e, entries !! j = Some e →
        ∃ e', entries' !! j = Some e'
              ∧ ∀ t, CertificateScanner.identity_of t j e'
                     = CertificateScanner.identity_of now j e.

(** The updates of the scheduler mention none of [cert], [key] and
    [time]. *)
Definition spares_identity (updates : gmap string JS.value) : Prop :=
  updates !! "cert" = None ∧ updates !! "key" = None ∧ updates !! "time" = None.

(** What the scanner's collection retains of the stored [entries]: at
    every index the certificate and the key that a scan reads, and the
    time of an entry that has one. The time of an entry without one is
    not retained: a scan reads the time of the scan for it, until an
    update of the collection writes the time of that update. *)
Definition Retains (entries : list (gmap string JS.value)) (w : World) : Prop :=
  ∃ entries',
    manageDataPairs (localStorage w) = Some (Doc entries')
    ∧ length entries' = length entries
    ∧ ∀ j e, entries !! j = Some e →
        ∃ e', entries' !! j = Some e'
              ∧ ∀ t,
                  CertificateScanner.cert (CertificateScanner.normalize t j e')
                  = CertificateScanner.cert (CertificateScanner.normalize t j e)
                  ∧ CertificateScanner.key (CertificateScanner.normalize t j e')
                    = CertificateScanner.key (CertificateScanner.normalize t j e)
                  ∧ (JS.truthy (JS.get e "time") = true →
                     CertificateScanner.time (CertificateScanner.normalize t j e')
                     = CertificateScanner.time
                         (CertificateScanner.normalize t j e)).

(** ** Sequences of history calls *)

(** One call [recordRenewal(domain, status, error, oldExpiry, newExpiry)],
    with the clock and the random suffix it meets. *)
Record HistoryCall := {
  call_domain : JS.value;
  call_status : string;
  call_error : option string;
  call_oldExpiry : JS.number;
  call_newExpiry : JS.number;
  call_now : Z;
  call_random : string;
}.

(** The record that a call creates. *)
Definition record_of (c : HistoryCall) : HistoryRecord :=
  {| hr_id := HistoryManager.generateId (call_now c) (call_random c);
     hr_domain := call_domain c;
     hr_timestamp := call_now c;
     hr_status := call_status c;
     hr_error := call_error c;
     hr_oldExpiry := call_oldExpiry c;
     hr_newExpiry := call_newExpiry c |}.

Definition record_call (ls : LocalStorage) (c : HistoryCall) : LocalStorage :=
  HistoryManager.recordRenewal (call_domain c) (call_status c) (call_error c)
    (call_oldExpiry c) (call_newExpiry c) ls (call_now c) (call_random c).

Definition record_calls (ls : LocalStorage) (cs : list HistoryCall)
    : LocalStorage :=
  fold_left record_call cs ls.

(** ** Counting the records of a history *)

(** The records of a history that have a given status. *)
Definition count (status : string) (records : list HistoryRecord) : nat :=
  length (filter (λ record, hr_status record = status) records).

(** ** Policies that can be saved *)

(** A policy that [saveAutoRenewalConfig] accepts: [enabled] is a
    boolean, and the threshold, read as a number, is not below 1 and
    not above 60: it is between 1 and 60, or it is no number. *)
Definition acceptable `{Host} (config : ConfigManager.Config) : Prop :=
  (∃ b, ConfigManager.enabled config = JS.Bool b)
  ∧ match ConfigManager.threshold_number config with
    | Some n => 1 <= n <= 60
    | None => True
    end.

#[global] Instance acceptable_dec `{Host} (config : ConfigManager.Config) :
  Decision (acceptable config).
Proof.
  unfold acceptable.
  destruct (ConfigManager.enabled config) as [| |b|n|s];
    [right; intros [[? [=]] _] | right; intros [[? [=]] _] |
     | right; intros [[? [=]] _] | right; intros [[? [=]] _]].
  destruct (ConfigManager.threshold_number config) as [n|].
  - destruct (decide (1 <= n <= 60)); [left; eauto | right; tauto].
  - left; eauto.
Defined.

(** ** The outcomes of a renewal *)

(** An outcome of [renewCertificate] that settles the attempt: a success
    that carries the new certificate of the domains, or a request for a
    manual renewal. *)
Definition settled (c : CertificateScanner.Certificate)
    (r : ACMEClient.RenewalResult) : Prop :=
  ACMEClient.inProgress r = None
  ∧ ((ACMEClient.success r = true ∧ ACMEClient.requiresManual r = false
      ∧ ∃ pem k t,
          ACMEClient.renewed r
          = Some {| ACMEClient.rc_domains := CertificateScanner.domains c;
                    ACMEClient.rc_cert := pem;
                    ACMEClient.rc_key := k;
                    ACMEClient.rc_time := t |}
          ∧ JS.truthy pem = true)
     ∨ (ACMEClient.success r = false ∧ ACMEClient.requiresManual r = true
        ∧ ACMEClient.renewed r = None)).

(** The message of the first prerequisite of a renewal that fails. *)
Definition prerequisite_error (c : CertificateScanner.Certificate)
    (ls : LocalStorage) : string :=
  if ACMEClient.canAutoRenew (ACMEClient.checkRenewalCapability ls)
  then "Invalid certificate: "
       +:+ JS.join ", " (ACMEClient.validateCertificate c)
  else ACMEClient.capabilityMessage (ACMEClient.checkRenewalCapability ls).

(** ** The engine calls of a renewal *)

(** A computation that adds engine calls to the log, and what holds of
    its outcome and of the calls it adds. *)
Definition logs {A} (m : M A) (Q : result A → list AcmeCall → Prop) : Prop :=
  ∀ w, ∃ l, calls (m w).2 = calls w ++ l ∧ Q (m w).1 l.

(** The engine calls of a renewal that goes through. *)
Definition calls_of_renewal : list AcmeCall :=
  calls_to_order ++ [CallStepFinalizeOrder].

(** What the calls of an attempt say, for the engine [acme]. *)
Definition in_order (acme : ACMEEngine) (r : result ACMEClient.RenewalResult)
    (l : list AcmeCall) : Prop :=
  l `prefix_of` calls_of_renewal
  ∧ (CallStepFinalizeOrder ∈ l → Forall (λ a, a.2 = "valid") (auths acme))
  ∧ (∀ res, r = Ok res → ACMEClient.success res = true → l = calls_of_renewal).

(** What the calls of an invocation say, in the world [w] where it
    starts. *)
Definition ordered_calls (w : World) (r : result ACMEClient.RenewalResult)
    (l : list AcmeCall) : Prop :=
  l `prefix_of` calls_of_renewal
  ∧ (CallStepFinalizeOrder ∈ l →
     ∃ acme, ACME (window w) = Some acme
             ∧ Forall (λ a, a.2 = "valid") (auths acme))
  ∧ (∀ res, r = Ok res → ACMEClient.success res = true → l = calls_of_renewal).

(** ** What a renewal writes *)

(** The list of the client after a call, against the one before it: a
    list is still a list of the same length, and a key that is absent,
    empty or not a list is as it was. *)
Definition client_list_kept (before after : LocalStorage) : Prop :=
  match certs before with
  | Some (Doc l) => ∃ l', certs after = Some (Doc l') ∧ length l' = length l
  | other => certs after = other
  end.

(** ** The end of a job *)

(** The status that the history records for a job that ended with
    [status]. *)
Definition recorded_status (status : string) : string :=
  if String.eqb status "completed" then "success" else status.

(** The text of the failure notice of a job that did not complete. *)
Definition failure_notice (job : RenewalScheduler.Job) : string :=
  if String.eqb (RenewalScheduler.status job) "manual_required"
  then "Manual renewal required: "
       +:+ RenewalScheduler.shown (RenewalScheduler.error job)
       +:+ RenewalScheduler.newline +:+ "Please visit: "
       +:+ RenewalScheduler.shown (RenewalScheduler.renewalUrl job)
  else RenewalScheduler.shown (RenewalScheduler.error job).

Section Branches.
Context `{Host}.
Import CertificateScanner RenewalScheduler.

(** The store after the two writes of a branch of [executeRenewalJob]. *)
Definition branch_store (job : Job) (updates : gmap string JS.value)
    (status_ : string) (error_ : option string) (w : World) : LocalStorage :=
  HistoryManager.recordRenewal (domain job) status_ error_ (oldExpiry_of job) None
    (updateCertificate (id (certificate (originalCert job))) updates
       (localStorage w) (now w))
    (now w) (random w (draws w)).

(** The branch that [executeRenewalJob] takes on a result. *)
Definition branch (job : Job) (r : ACMEClient.RenewalResult) : M Job :=
  if ACMEClient.success r then on_success job r
  else if ACMEClient.requiresManual r then on_manual job r
       else on_failure job r.

End Branches.

(** ** Sequences of calls to a scheduler *)

(** A call of [start], with the store that it finds, or of [stop]. *)
Inductive SchedulerCall :=
| Start (ls : LocalStorage)
| Stop.

Definition scheduler_call (state : RenewalScheduler.Instance * Timers)
    (call : SchedulerCall) : RenewalScheduler.Instance * Timers :=
  match call with
  | Start ls => (RenewalScheduler.start ls state.1 state.2).1
  | Stop => RenewalScheduler.stop state.1 state.2
  end.

(** The timers of others are as they were, and the scheduler has one
    timer when it runs and none when it does not. *)
Definition one_timer (others : list (nat * Z))
    (state : RenewalScheduler.Instance * Timers) : Prop :=
  (0 < next state.2)%nat
  ∧ Forall (λ timer, (timer.1 < next state.2)%nat) (active state.2)
  ∧ if RenewalScheduler.isRunning state.1
    then ∃ id delay,
           RenewalScheduler.intervalId state.1 = Some id
           ∧ active state.2 = others ++ [(id, delay)]
           ∧ (id ∉ others.*1) ∧ (0 < id)%nat
    else RenewalScheduler.intervalId state.1 = None ∧ active state.2 = others.

(** ** The switches of the notifier *)

(** The switch of the configuration that governs a notification. *)
Definition switch_of (n : Notification) : string :=
  match n with
  | NotifyExpiring _ _ => "notifyOnExpiring"
  | NotifyRenewalFailure _ _ => "notifyOnRenewalFailure"
  end.

(** ** Sample data *)

Module Sample.

(** 2023-11-14T22:13:20.000Z. *)
Definition t0 : Z := 1700000000000.

Definition days (n : Z) : Z := n * JSDate.msPerDay.

Definition entry (key_ time_ : JS.value) : gmap string JS.value :=
  <["domains" := JS.Str "example.com"]> (
  <["cert" := JS.Str "OLD-CERTIFICATE"]> (
  <["key" := key_]> (
  <["time" := time_]> ∅))).

(** A certificate issued 65 days before [t0]. *)
Definition issued : gmap string JS.value :=
  entry (JS.Str "PRIVATE-KEY") (JS.Num (t0 - days 65)).

Definition store (pairs : list (gmap string JS.value))
    (qcerts : option (stored (list (gmap string JS.value)))) : LocalStorage :=
  {| acmeAccountKey := Some "ACCOUNT-KEY";
     email := Some "admin@example.com";
     acmeURL := None;
     manageDataPairs := Some (Doc pairs);
     certs := qcerts;
     renewalHistory := None;
     autoRenewalConfig := None |}.

Definition engine (statuses : list (string * string)) (finalize : settle)
    : ACMEEngine :=
  {| Directory := Resolved;
     StepAccount := Resolved;
     StepOrder := Resolved;
     auths := statuses;
     StepFinalizeOrder := finalize;
     downloadPEM := JS.Str "NEW-CERTIFICATE" |}.

(** A key parser that accepts every key and gives its PEM text back
    under a header. *)
Definition x509 : X509Engine :=
  {| KeyParse := λ pem, Ok (JS.Str ("PEM " +:+ JS.to_string pem)) |}.

Definition world (ls : LocalStorage) (acme : ACMEEngine) (renewing : bool)
    : World :=
  {| localStorage := ls;
     now := t0;
     elapsed := λ _, 250;
     random := λ n, "r" +:+ pretty (Z.of_nat n);
     draws := 0;
     window := {| ACME := Some acme; X509 := Some x509 |};
     isRenewing := renewing;
     calls := [];
     notifiedDomains := [];
     notifications := [] |}.

(** The certificate is in the list of the scanner and in the list of
    the client. *)
Definition both : LocalStorage := store [issued] (Some (Doc [issued])).

Definition cached : ACMEEngine := engine [("example.com", "valid")] Resolved.

Definition lapsed : ACMEEngine :=
  engine [("example.com", "valid"); ("www.example.com", "pending")] Resolved.

Definition refusing : ACMEEngine :=
  engine [("example.com", "valid")] (Rejected "server error").

(** A stored certificate whose [time] is no date, one without a private
    key, and one that carries fields of earlier updates. *)
Definition undated : gmap string JS.value :=
  entry (JS.Str "PRIVATE-KEY") (JS.Str "not-a-date").

Definition keyless : gmap string JS.value :=
  entry (JS.Str "") (JS.Num (t0 - days 65)).

Definition annotated : gmap string JS.value :=
  <["renewalUrl" := JS.Str "/?autoRenew=1&domain=example.com"]> (
  <["lastRenewalSuccess" := JS.Num (t0 - days 65)]> issued).

Definition scanned (ls : LocalStorage) : CertificateScanner.Certificate :=
  default (CertificateScanner.normalize t0 0 ∅)
          (head (CertificateScanner.scanCertificates ls t0)).

Definition expiring (ls : LocalStorage)
    : CertificateScanner.ExpiringCertificate :=
  {| CertificateScanner.certificate := scanned ls;
     CertificateScanner.status := "needs_renewal";
     CertificateScanner.daysUntilExpiry := Some 25 |}.

Definition job (ls : LocalStorage) : RenewalScheduler.Job :=
  {| RenewalScheduler.job_id := "renewal-1700000000000-r";
     RenewalScheduler.domain :=
       CertificateScanner.domains (scanned ls);
     RenewalScheduler.status := "pending";
     RenewalScheduler.createdAt := t0;
     RenewalScheduler.startedAt := None;
     RenewalScheduler.completedAt := None;
     RenewalScheduler.error := None;
     RenewalScheduler.originalCert := expiring ls;
     RenewalScheduler.newCert := None;
     RenewalScheduler.renewalUrl := None |}.

(** A policy that is enabled and switches one domain off. *)
Definition policy (enabled_ : bool) : ConfigDoc :=
  {| doc_enabled := Some (JS.Bool enabled_);
     doc_threshold := JS.Num 30;
     doc_checkInterval := None;
     doc_certSettings :=
       Some {[ "off.example.com" :=
                 {| cs_enabled := JS.Bool false; cs_lastCheck := JS.Num t0;
                    cs_lastRenewal := JS.Undefined |};
               "on.example.com" :=
                 {| cs_enabled := JS.Bool true; cs_lastCheck := JS.Num t0;
                    cs_lastRenewal := JS.Undefined |} ]} |}.

(** The [n]-th of a series of history calls, for a domain of its own. *)
Definition call (n : nat) : HistoryCall :=
  {| call_domain := JS.Str ("host" +:+ pretty (Z.of_nat n) +:+ ".example.com");
     call_status := "failure";
     call_error := Some "Unknown error occurred";
     call_oldExpiry := Some (t0 + days 25);
     call_newExpiry := JS.NaN;
     call_now := t0 + Z.of_nat n;
     call_random := "r" +:+ pretty (Z.of_nat n) |}.

(** What a collection of certificates shows of each entry: its
    [renewalStatus], [cert], [key] and [time]. *)
Definition fields (collection : option (stored (list (gmap string JS.value))))
    : list (list JS.value) :=
  match collection with
  | Some (Doc entries) =>
      (λ e, JS.get e <$> ["renewalStatus"; "cert"; "key"; "time"]) <$> entries
  | _ => []
  end.

(** What a finished job shows: its status, its error and its new
    certificate. *)
Definition summary (r : result RenewalScheduler.Job)
    : option (string * option string * option ACMEClient.RenewedCertificate) :=
  match r with
  | Ok job => Some (RenewalScheduler.status job, RenewalScheduler.error job,
                    RenewalScheduler.newCert job)
  | Throw _ => None
  end.

(** A stored certificate whose [time] is a text in the ISO format, and
    one that has no [time]. *)
Definition dated : gmap string JS.value :=
  entry (JS.Str "PRIVATE-KEY") (JS.Str "2023-09-10T22:13:20.000Z").

Definition timeless : gmap string JS.value :=
  <["domains" := JS.Str "example.com"]> (
  <["cert" := JS.Str "OLD-CERTIFICATE"]> (
  <["key" := JS.Str "PRIVATE-KEY"]> ∅)).

(** A store in which the account key was never set. *)
Definition unconfigured : LocalStorage :=
  {| acmeAccountKey := None;
     email := Some "admin@example.com";
     acmeURL := None;
     manageDataPairs := Some (Doc [issued]);
     certs := None;
     renewalHistory := None;
     autoRenewalConfig := None |}.

(** A policy whose threshold no save accepts. *)
Definition overlong : ConfigDoc :=
  {| doc_enabled := Some (JS.Bool true);
     doc_threshold := JS.Num 90;
     doc_checkInterval := None;
     doc_certSettings := None |}.

(** A page on which another timer is set. *)
Definition timers : Timers := {| active := [(7%nat, 1000)]; next := 8 |}.

End Sample.

(** * Properties *)

(** ** Calendar arithmetic *)

Section Calendar.

Import JSDate.

(** [YearFromTime] does give the year that contains the day of [t]. *)
Lemma YearFromTime_spec (t : Z) :
  DayFromYear (YearFromTime t) <= Day t < DayFromYear (YearFromTime t + 1).
Proof.
  unfold YearFromTime, DayFromYear.
  generalize (Day t); intros d.
  repeat match goal with
         | |- context [if ?b then _ else _] => destruct b eqn:?
         end;
    Z.to_euclidean_division_equations; lia.
Qed.

Lemma MonthFromTime_range (t : Z) : 0 <= MonthFromTime t <= 11.
Proof.
  unfold MonthFromTime.
  repeat match goal with
         | |- context [if ?b then _ else _] => destruct b
         end; lia.
Qed.

(** Moving the day of the month moves the day number by as much. *)
Lemma MakeDay_of_date (t n : Z) :
  MakeDay (YearFromTime t) (MonthFromTime t) (DateFromTime t + n) = Day t + n.
Proof.
  pose proof (MonthFromTime_range t) as Hm.
  unfold MakeDay, DateFromTime, DayWithinYear, InLeapYear.
  rewrite Z.div_small, Z.mod_small, Z.add_0_r by lia.
  cbv zeta. lia.
Qed.

Lemma MakeDate_of_day (t n : Z) :
  MakeDate (Day t + n) (TimeWithinDay t) = t + n * msPerDay.
Proof.
  unfold MakeDate, Day, TimeWithinDay, msPerDay.
  pose proof (Z.div_mod t 86400000). lia.
Qed.

End Calendar.

(** ** CertificateScanner: expiry and status *)

Section Expiry.

Context `{Host}.

Import CertificateScanner.

(** [d.setDate(d.getDate() + n)] keeps the local time of day and moves
    the local date by [n] calendar days. *)
Lemma setDate_getDate_plus (d : JSDate.Date) (n : Z) :
  JSDate.setDate d (JS.add (JSDate.getDate d) (Some n))
  = d ≫= λ tv, JSDate.TimeClip
                  (JSDate.UTC (JSDate.LocalTime tv + n * JSDate.msPerDay)).
Proof.
  destruct d as [tv|]; [|reflexivity].
  cbn [JSDate.getDate JS.add JSDate.setDate mbind option_bind].
  cbv zeta.
  now rewrite MakeDay_of_date, MakeDate_of_day.
Qed.

Lemma getExpiryDate_calendar (c : Certificate) :
  getExpiryDate c
  = JSDate.construct (time c) ≫= λ issuedAt,
      JSDate.TimeClip
        (JSDate.UTC (JSDate.LocalTime issuedAt + 90 * JSDate.msPerDay)).
Proof. unfold getExpiryDate. cbv zeta. apply setDate_getDate_plus. Qed.

(** [Math.ceil(x / m)] is the least integer [d] with [x <= d * m]. *)
Lemma ceil_div_bounds (x m : Z) :
  0 < m →
  ∃ d, JS.ceil_div (Some x) m = Some d ∧ (d - 1) * m < x <= d * m.
Proof.
  intros Hm. eexists; split; [reflexivity|].
  Z.to_euclidean_division_equations. nia.
Qed.

Lemma status_cases (now : Z) (c : Certificate) (threshold : Z) :
  getCertificateStatus now c threshold
  = if JS.le (getDaysUntilExpiry now c) (Some 0) then "expired"
    else if JS.le (getDaysUntilExpiry now c) (Some threshold)
         then "needs_renewal" else "valid".
Proof. reflexivity. Qed.

(** C3. The expiry date is the issuance date moved by 90 calendar days
    (same local time of day), [getDaysUntilExpiry] is the ceiling of the
    time left divided by one day, and the status is 'expired' iff that
    number is [<= 0], otherwise 'needs_renewal' iff it is [<= threshold],
    otherwise 'valid'. *)
Theorem days_until_expiry_and_status (now : Z) (c : Certificate) (threshold : Z) :
  let expiryDate := getExpiryDate c in
  let daysUntilExpiry := getDaysUntilExpiry now c in
  let status := getCertificateStatus now c threshold in
  expiryDate
    = JSDate.construct (time c) ≫= (λ issuedAt,
        JSDate.TimeClip
          (JSDate.UTC (JSDate.LocalTime issuedAt + 90 * JSDate.msPerDay)))
  ∧ match expiryDate with
    | Some e =>
        ∃ d, daysUntilExpiry = Some d
             ∧ (d - 1) * JSDate.msPerDay < e - now <= d * JSDate.msPerDay
    | None => daysUntilExpiry = JS.NaN
    end
  ∧ (status = "expired" ↔ JS.le daysUntilExpiry (Some 0) = true)
  ∧ (status = "needs_renewal"
     ↔ JS.le daysUntilExpiry (Some 0) = false
       ∧ JS.le daysUntilExpiry (Some threshold) = true)
  ∧ (status = "valid"
     ↔ JS.le daysUntilExpiry (Some 0) = false
       ∧ JS.le daysUntilExpiry (Some threshold) = false).
Proof.
  cbv zeta. split; [apply getExpiryDate_calendar|]. split.
  - unfold getDaysUntilExpiry. cbv zeta.
    destruct (getExpiryDate c) as [e|]; [|reflexivity].
    cbn [JS.sub]. change (1000 * 60 * 60 * 24) with JSDate.msPerDay.
    apply ceil_div_bounds. reflexivity.
  - rewrite status_cases.
    destruct (JS.le (getDaysUntilExpiry now c) (Some 0));
      destruct (JS.le (getDaysUntilExpiry now c) (Some threshold));
      repeat split; intros; try discriminate; try tauto;
      match goal with H : _ ∧ _ |- _ => destruct H; discriminate end.
Qed.

(** A time stamp that is there but is no date gives no expiry date. *)
Lemma getExpiryDate_invalid (c : Certificate) :
  JSDate.construct (time c) = None → getExpiryDate c = None.
Proof. intros Hc. now rewrite getExpiryDate_calendar, Hc. Qed.

Lemma scanCertificates_lookup (ls : LocalStorage) (now : Z)
    (entries : list (gmap string JS.value)) (index : nat)
    (entry : gmap string JS.value) :
  manageDataPairs ls = Some (Doc entries) →
  entries !! index = Some entry →
  scanCertificates ls now !! index = Some (normalize now index entry).
Proof.
  intros Hls Hentry. unfold scanCertificates. rewrite Hls.
  now rewrite list_lookup_imap, Hentry.
Qed.

(** C4, as the code has it. A stored certificate whose [time] is there
    but is no date is scanned without failure and keeps its [time]; it
    has no expiry date, its days until expiry are NaN, and its status is
    'valid' for every threshold. *)
Theorem malformed_time_is_valid (ls : LocalStorage) (now : Z)
    (entries : list (gmap string JS.value)) (index : nat)
    (entry : gmap string JS.value) (threshold : Z) :
  manageDataPairs ls = Some (Doc entries) →
  entries !! index = Some entry →
  JS.truthy (JS.get entry "time") = true →
  JSDate.construct (JS.get entry "time") = None →
  ∃ c, scanCertificates ls now !! index = Some c
       ∧ time c = JS.get entry "time"
       ∧ getExpiryDate c = None
       ∧ getDaysUntilExpiry now c = JS.NaN
       ∧ getCertificateStatus now c threshold = "valid".
Proof.
  intros Hls Hentry Htruthy Hdate.
  exists (normalize now index entry).
  assert (Htime : time (normalize now index entry) = JS.get entry "time").
  { cbn. unfold JS.or_else. now rewrite Htruthy. }
  assert (Hexp : getExpiryDate (normalize now index entry) = None).
  { apply getExpiryDate_invalid. now rewrite Htime. }
  split; [now apply scanCertificates_lookup with entries|].
  split; [exact Htime|]. split; [exact Hexp|].
  unfold getCertificateStatus, getDaysUntilExpiry. cbv zeta.
  now rewrite Hexp.
Qed.

End Expiry.

(** ** HistoryManager: the bounded history *)

Section History.

Import HistoryManager.

Lemma getHistory_recordRenewal (ls : LocalStorage) (c : HistoryCall) :
  getHistory (record_call ls c)
  = take MAX_RECORDS (record_of c :: getHistory ls).
Proof.
  unfold record_call, recordRenewal. cbv zeta.
  fold (record_of c).
  destruct (MAX_RECORDS <? length (record_of c :: getHistory ls))%nat eqn:Hlen.
  - reflexivity.
  - apply Nat.ltb_ge in Hlen. cbn [getHistory renewalHistory set_renewalHistory].
    now rewrite take_ge.
Qed.

Lemma renewalHistory_recordRenewal (ls : LocalStorage) (c : HistoryCall) :
  renewalHistory (record_call ls c) = Some (Doc (getHistory (record_call ls c))).
Proof.
  unfold record_call, recordRenewal. cbv zeta.
  now destruct (MAX_RECORDS <? _)%nat.
Qed.

Lemma take_cons_take {A} (n : nat) (x : A) (l : list A) :
  take n (x :: take n l) = take n (x :: l).
Proof.
  destruct n as [|n]; [reflexivity|]. cbn [take]. f_equal.
  rewrite take_take. f_equal. lia.
Qed.

(** After at least one call the history is the newest records first,
    then the old ones, cut after [MAX_RECORDS]. *)
Lemma getHistory_record_calls (ls : LocalStorage) (cs : list HistoryCall)
    (c : HistoryCall) :
  getHistory (record_calls ls (cs ++ [c]))
  = take MAX_RECORDS (rev (record_of <$> cs ++ [c]) ++ getHistory ls).
Proof.
  revert c. induction cs as [|c' cs IH] using rev_ind; intros c.
  - cbn [app record_calls fold_left]. apply getHistory_recordRenewal.
  - unfold record_calls in *. rewrite fold_left_app. cbn [fold_left].
    rewrite getHistory_recordRenewal, IH.
    rewrite (fmap_app _ (cs ++ [c']) [c]), rev_app_distr.
    cbn [fmap list_fmap rev app]. apply take_cons_take.
Qed.

(** C7. After any sequence of [recordRenewal] calls, whatever the
    domains and whatever the store held before, the history holds at
    most 10 records, the record of the last call is at index 0, and the
    records are the most recent ones, newest first: the tail is what is
    evicted. *)
Theorem history_bounded_newest_first (ls : LocalStorage)
    (cs : list HistoryCall) (c : HistoryCall) :
  let ls' := record_calls ls (cs ++ [c]) in
  renewalHistory ls' = Some (Doc (getHistory ls'))
  ∧ (length (getHistory ls') <= 10)%nat
  ∧ getHistory ls' !! 0%nat = Some (record_of c)
  ∧ getHistory ls'
    = take 10 (rev (record_of <$> cs ++ [c]) ++ getHistory ls).
Proof.
  cbv zeta. split; [|rewrite getHistory_record_calls; split; [|split]].
  - unfold record_calls. rewrite fold_left_app. cbn [fold_left].
    apply renewalHistory_recordRenewal.
  - rewrite length_take. unfold MAX_RECORDS. lia.
  - rewrite fmap_app, rev_app_distr. reflexivity.
  - reflexivity.
Qed.

End History.

(** ** ConfigManager: eligibility of a domain *)

Section Policy.

Import ConfigManager.

(** C8. Whatever policy is persisted: when the global [enabled] flag is
    false, no domain is eligible, whatever its own setting; when it is
    true, a domain whose own setting has [enabled = false] is not
    eligible, and a domain with no setting is. *)
Theorem domain_eligibility (ls : LocalStorage) (domain : JS.value) :
  let config := getAutoRenewalConfig ls in
  (enabled config = JS.Bool false →
     isCertAutoRenewalEnabled ls domain = false)
  ∧ (enabled config = JS.Bool true →
     (∀ setting,
        certSettings config !! JS.to_string domain = Some setting →
        cs_enabled setting = JS.Bool false →
        isCertAutoRenewalEnabled ls domain = false)
     ∧ (certSettings config !! JS.to_string domain = None →
        isCertAutoRenewalEnabled ls domain = true)).
Proof.
  cbv zeta. unfold isCertAutoRenewalEnabled. cbv zeta.
  split; [intros ->; reflexivity|].
  intros ->. cbn [JS.truthy negb]. split.
  - intros setting -> ->. reflexivity.
  - intros ->. reflexivity.
Qed.

End Policy.

(** ** CertificateScanner: what an update writes *)

Section Update.

Import CertificateScanner.

Lemma to_obj_dom (c : Certificate) :
  dom (to_obj c) = list_to_set schema.
Proof.
  unfold to_obj, schema. rewrite !dom_insert_L, dom_empty_L.
  cbn [list_to_set]. set_solver.
Qed.

Lemma to_obj_outside (c : Certificate) (k : string) :
  k ∉ schema → to_obj c !! k = None.
Proof.
  intros Hk. apply not_elem_of_dom. rewrite to_obj_dom.
  now rewrite elem_of_list_to_set.
Qed.

Lemma or_else_defined (x d : JS.value) :
  d ≠ JS.Undefined → JS.or_else x d ≠ JS.Undefined.
Proof.
  intros Hd. unfold JS.or_else.
  destruct (JS.truthy x) eqn:Hx; [|exact Hd].
  intros ->. discriminate.
Qed.

(** The scanner leaves no field [undefined]. *)
Lemma normalize_defined (now : Z) (i : nat) (e : gmap string JS.value)
    (k : string) (v : JS.value) :
  to_obj (normalize now i e) !! k = Some v → v ≠ JS.Undefined.
Proof.
  unfold to_obj, normalize.
  cbn [id domains cert key time autoRenewal renewalStatus lastRenewalAttempt].
  rewrite !lookup_insert, lookup_empty.
  repeat case_decide; intros Hv; simplify_eq;
    try done; try (by apply or_else_defined).
  by destruct (JS.get e "autoRenewal").
Qed.

Lemma stringify_defined (o : gmap string JS.value) :
  (∀ k v, o !! k = Some v → v ≠ JS.Undefined) → JS.stringify o = o.
Proof. intros Ho. unfold JS.stringify. apply map_filter_id. exact Ho. Qed.

Lemma stringify_lookup_None (o : gmap string JS.value) (k : string) :
  o !! k = None → JS.stringify o !! k = None.
Proof.
  intros Ho. unfold JS.stringify. apply map_lookup_filter_None. now left.
Qed.

(** A field that the stored entry lacks reads as in the scan of the
    empty object. *)
Lemma normalize_missing (now : Z) (i : nat) (e : gmap string JS.value)
    (k : string) :
  k ≠ "id" → e !! k = None →
  to_obj (normalize now i e) !! k = to_obj (normalize now i ∅) !! k.
Proof.
  intros Hid He. unfold to_obj, normalize.
  cbn [id domains cert key time autoRenewal renewalStatus lastRenewalAttempt].
  rewrite !lookup_insert.
  repeat case_decide; subst; try reflexivity; try congruence;
    unfold JS.get; now rewrite He, lookup_empty.
Qed.

(** C9. An update at an index of the collection writes the whole
    collection back as the scanner reads it: every record other than
    the updated one becomes its scanned form, with exactly the keys of
    the scanner's schema, the fields it lacked filled with the defaults;
    the updated record is its scanned form merged with the updates; and
    any other field, such as [renewalUrl] or [lastRenewalSuccess] from
    an earlier update, is gone unless this update writes it. *)
Theorem update_rewrites_collection (ls : LocalStorage) (now : Z)
    (entries : list (gmap string JS.value)) (id : nat)
    (updates : gmap string JS.value) :
  manageDataPairs ls = Some (Doc entries) →
  (id < length entries)%nat →
  ∃ entries',
    manageDataPairs (updateCertificate id updates ls now) = Some (Doc entries')
    ∧ length entries' = length entries
    ∧ ∀ j e, entries !! j = Some e →
        ∃ e', entries' !! j = Some e'
          ∧ (j ≠ id →
               e' = to_obj (normalize now j e)
               ∧ dom e' = list_to_set schema
               ∧ ∀ k, k ≠ "id" → e !! k = None →
                      e' !! k = to_obj (normalize now j ∅) !! k)
          ∧ (j = id →
               e' = JS.stringify (JS.spread (to_obj (normalize now j e)) updates))
          ∧ ∀ k, k ∉ schema → (j = id → updates !! k = None) → e' !! k = None.
Proof.
  intros Hls Hid.
  destruct (lookup_lt_is_Some_2 entries id Hid) as [e0 He0].
  unfold updateCertificate, scanCertificates. rewrite Hls. cbv zeta.
  rewrite list_lookup_fmap, list_lookup_imap, He0. cbn [fmap option_fmap option_map].
  eexists. split; [reflexivity|]. split.
  { now rewrite length_fmap, length_insert, length_fmap, length_imap. }
  intros j e He. rewrite list_lookup_fmap.
  destruct (decide (j = id)) as [->|Hne].
  - rewrite list_lookup_insert_eq
      by (rewrite length_fmap, length_imap; exact Hid).
    assert (e = e0) as -> by congruence.
    eexists. split; [reflexivity|]. split; [intros []; reflexivity|].
    split; [reflexivity|].
    intros k Hk Hup. apply stringify_lookup_None. unfold JS.spread.
    apply lookup_union_None. split; [now apply Hup|now apply to_obj_outside].
  - rewrite list_lookup_insert_ne by congruence.
    rewrite list_lookup_fmap, list_lookup_imap, He.
    cbn [fmap option_fmap option_map].
    rewrite stringify_defined by apply normalize_defined.
    eexists. split; [reflexivity|]. split; [|split; [congruence|]].
    + intros _. split; [reflexivity|]. split; [apply to_obj_dom|].
      intros k Hk Hek. now apply normalize_missing.
    + intros k Hk _. now apply to_obj_outside.
Qed.

(** An index outside the collection changes nothing. *)
Lemma update_out_of_range (ls : LocalStorage) (now : Z) (id : nat)
    (updates : gmap string JS.value) :
  (length (scanCertificates ls now) <= id)%nat →
  updateCertificate id updates ls now = ls.
Proof.
  intros Hid. unfold updateCertificate. cbv zeta.
  rewrite list_lookup_fmap, (lookup_ge_None_2 _ _ Hid). reflexivity.
Qed.

End Update.

(** ** ACMEClient: the re-entrancy flag *)

Section Reentrancy.

Import CertificateScanner ACMEClient.

Lemma returns_ret {A} (a : A) (P : A → Prop) : P a → returns (ret a) P.
Proof. intros Ha w. exact Ha. Qed.

Lemma returns_throw {A} (e : string) (P : A → Prop) : returns (throw e) P.
Proof. intros w. exact I. Qed.

Lemma returns_bind {A B} (m : M A) (k : A → M B) (P : B → Prop) :
  (∀ a, returns (k a) P) → returns (bind m k) P.
Proof.
  intros Hk w. unfold bind. destruct (m w) as [[a|e] w']; [apply Hk|exact I].
Qed.

Lemma returns_try_catch {A} (m : M A) (h : string → M A) (P : A → Prop) :
  returns m P → (∀ e, returns (h e) P) → returns (try_catch m h) P.
Proof.
  intros Hm Hh w. unfold try_catch. specialize (Hm w).
  destruct (m w) as [[a|e] w']; [exact Hm|apply Hh].
Qed.

Ltac returns_step :=
  lazymatch goal with
  | |- returns (ret _) _ => apply returns_ret
  | |- returns (throw _) _ => apply returns_throw
  | |- returns (bind _ _) _ => apply returns_bind; intros ?
  | |- returns (try_catch _ _) _ => apply returns_try_catch; [|intros ?]
  | |- returns (if ?b then _ else _) _ => destruct b
  | |- returns (match ?x with _ => _ end) _ => destruct x
  end.

(** An attempt that gets past the guard does not answer that a renewal
    is in progress. *)
Lemma attempt_not_inProgress (c : Certificate) :
  returns (try_catch (attempt c) (on_attempt_error c))
          (λ r, inProgress r = None).
Proof.
  unfold attempt, conclude, on_attempt_error, storeCertificate.
  repeat returns_step; reflexivity.
Qed.

(** [renewCertificate] never throws. *)
Lemma renewCertificate_returns (c : Certificate) (w : World) :
  ∃ r, (renewCertificate c w).1 = Ok r.
Proof.
  unfold renewCertificate, finally, try_catch, on_error.
  destruct (guarded c w) as [[r|e] w']; cbn; eauto.
Qed.

Lemma renewCertificate_idle (c : Certificate) (w : World) :
  isRenewing w = false →
  ∃ r, (renewCertificate c w).1 = Ok r ∧ inProgress r = None.
Proof.
  intros Hidle.
  unfold renewCertificate, finally, try_catch at 1, on_error, guarded.
  unfold bind at 1, gets at 1. cbv beta iota zeta.
  destruct (negb (canAutoRenew _)); [cbn; eauto|].
  destruct (negb (bool_decide _)); [cbn; eauto|].
  unfold bind at 1, gets at 1. cbv beta iota zeta. rewrite Hidle.
  unfold bind at 1, modify at 1. cbv beta iota zeta.
  pose proof (attempt_not_inProgress c (with_isRenewing true w)) as Hret.
  destruct (try_catch (attempt c) (on_attempt_error c) (with_isRenewing true w))
    as [[r|e] w']; cbn in *; eauto.
Qed.

(** C10. When an invocation of [renewCertificate] returns, whichever
    outcome it returns, the [isRenewing] flag is false; hence the
    invocation that follows is not answered that a renewal is in
    progress, even if the flag was set by a renewal that is still
    running. *)
Theorem flag_cleared_on_return (c c' : Certificate) (w : World) :
  let w' := (renewCertificate c w).2 in
  (∃ r, (renewCertificate c w).1 = Ok r)
  ∧ isRenewing w' = false
  ∧ ∃ r', (renewCertificate c' w').1 = Ok r' ∧ inProgress r' = None.
Proof.
  cbv zeta.
  assert (Hflag : isRenewing (renewCertificate c w).2 = false).
  { unfold renewCertificate, finally. now destruct (try_catch _ _ w). }
  split; [apply renewCertificate_returns|]. split; [exact Hflag|].
  now apply renewCertificate_idle.
Qed.

(** The body of the outer [try] when the flag is set. *)
Lemma guarded_reentrant (c : Certificate) (w : World) :
  isRenewing w = true →
  guarded c w
  = (if negb (canAutoRenew (checkRenewalCapability (localStorage w)))
     then Throw (capabilityMessage (checkRenewalCapability (localStorage w)))
     else if negb (bool_decide (validateCertificate c = []))
          then Throw ("Invalid certificate: "
                      +:+ JS.join ", " (validateCertificate c))
          else Ok alreadyInProgress,
     w).
Proof.
  intros Hflag. unfold guarded.
  unfold bind at 1, gets at 1. cbv beta iota zeta.
  destruct (negb (canAutoRenew _)); [reflexivity|].
  destruct (negb (bool_decide _)); [reflexivity|].
  unfold bind at 1, gets at 1. cbv beta iota zeta.
  now rewrite Hflag.
Qed.

(** C6, as the code has it. A call that finds the flag set changes
    nothing but the flag: no store or history mutation and no engine
    call. It answers that a renewal is in progress if the configuration
    and the certificate pass the checks that precede the guard, and
    with the failure of those checks otherwise. *)
Theorem reentrant_call (c : Certificate) (w : World) :
  isRenewing w = true →
  (renewCertificate c w).2 = with_isRenewing false w
  ∧ (canAutoRenew (checkRenewalCapability (localStorage w)) = true →
     validateCertificate c = [] →
     (renewCertificate c w).1 = Ok alreadyInProgress)
  ∧ (canAutoRenew (checkRenewalCapability (localStorage w)) = false →
     (renewCertificate c w).1
     = Ok (failed (capabilityMessage (checkRenewalCapability (localStorage w)))))
  ∧ (canAutoRenew (checkRenewalCapability (localStorage w)) = true →
     validateCertificate c ≠ [] →
     (renewCertificate c w).1
     = Ok (failed ("Invalid certificate: "
                   +:+ JS.join ", " (validateCertificate c)))).
Proof.
  intros Hflag.
  unfold renewCertificate, finally, try_catch, on_error, ret.
  rewrite (guarded_reentrant c w Hflag).
  destruct (canAutoRenew _); cbn [negb].
  - destruct (bool_decide_reflect (validateCertificate c = [])); cbn [negb fst snd].
    + repeat split; intros; congruence.
    + repeat split; intros; congruence.
  - cbn [fst snd]. repeat split; intros; congruence.
Qed.

End Reentrancy.

(** ** ACMEClient: the decision on the authorizations *)

Section Decision.

Import CertificateScanner ACMEClient.

(** Awaiting engine calls changes the clock and the log only. *)
Lemma awaited_localStorage (w : World) (cs : list AcmeCall) :
  localStorage (fold_left awaited cs w) = localStorage w.
Proof. revert w. induction cs as [|call cs IH]; intros w; [done|]. cbn. now rewrite IH. Qed.

Lemma awaited_calls (w : World) (cs : list AcmeCall) :
  calls (fold_left awaited cs w) = calls w ++ cs.
Proof.
  revert w. induction cs as [|call cs IH]; intros w; cbn.
  - now rewrite app_nil_r.
  - rewrite IH. cbn. now rewrite <- app_assoc.
Qed.

(** The loop over the authorizations collects the domains that are
    not valid. *)
Lemma checkAuthorizationStatus_spec (statuses : list (string * string)) :
  checkAuthorizationStatus statuses
  = {| allValid := bool_decide (non_valid statuses = []);
       pendingDomains := non_valid statuses |}.
Proof.
  unfold checkAuthorizationStatus.
  enough (Hgen : ∀ acc,
    allValid acc = bool_decide (pendingDomains acc = []) →
    fold_left
      (λ acc auth,
         if negb (String.eqb auth.2 "valid")
         then {| allValid := false;
                 pendingDomains := pendingDomains acc ++ [auth.1] |}
         else acc) statuses acc
    = {| allValid := bool_decide (pendingDomains acc ++ non_valid statuses = []);
         pendingDomains := pendingDomains acc ++ non_valid statuses |}).
  { now rewrite Hgen. }
  induction statuses as [|[d st] statuses IH]; intros acc Hacc.
  - cbn. rewrite app_nil_r, <- Hacc. now destruct acc.
  - cbn [fold_left]. unfold non_valid. rewrite filter_cons. cbn [snd fst].
    destruct (String.eqb_spec st "valid") as [->|Hst]; cbn [negb].
    + rewrite decide_False by (intros Hne; now apply Hne).
      now apply IH.
    + rewrite decide_True by exact Hst.
      rewrite IH; cbn.
      * now rewrite <- !app_assoc.
      * symmetry. apply bool_decide_eq_false. now destruct (pendingDomains acc).
Qed.

Lemma non_valid_all_valid (statuses : list (string * string)) :
  Forall (λ a, a.2 = "valid") statuses → non_valid statuses = [].
Proof.
  unfold non_valid. induction 1 as [|a statuses Ha _ IH]; [done|].
  rewrite filter_cons, decide_False by (intros Hne; now apply Hne). exact IH.
Qed.

Lemma non_valid_some_pending (statuses : list (string * string)) :
  Exists (λ a, a.2 ≠ "valid") statuses → non_valid statuses ≠ [].
Proof.
  unfold non_valid. induction 1 as [a statuses Ha|a statuses _ IH];
    rewrite filter_cons.
  - now rewrite decide_True by exact Ha.
  - destruct (decide (a.2 ≠ "valid")); [done|exact IH].
Qed.

Section Attempt.

Variables (c : Certificate) (w : World) (acme : ACMEEngine)
          (x509 : X509Engine) (privateKey : JS.value).
Hypothesis Hready : OrderCreated c w acme x509 privateKey.

(** The world once the order is created. *)
Let ordered : World :=
  fold_left awaited calls_to_order (with_isRenewing true w).

Lemma present_capable :
  present (acmeAccountKey (localStorage w)) = true
  ∧ present (email (localStorage w)) = true.
Proof.
  pose proof (oc_capable _ _ _ _ _ Hready) as Hcap.
  unfold checkRenewalCapability in Hcap. cbn in Hcap.
  now apply andb_prop in Hcap.
Qed.

Lemma truthy_key : JS.truthy (key c) = true.
Proof.
  pose proof (oc_complete _ _ _ _ _ Hready) as Hvalid.
  unfold validateCertificate in Hvalid.
  destruct (JS.truthy (key c)); [done|].
  destruct (JS.truthy (domains c)), (JS.truthy (cert c)); discriminate.
Qed.

Lemma loadConfiguration_ok (w0 : World) :
  localStorage w0 = localStorage w →
  ∃ config,
    cfg_privateKey config = privateKey
    ∧ loadConfiguration c x509 w0
      = (Ok config, awaited (awaited w0 CallKeyParse) CallKeyParse).
Proof.
  intros Hls.
  destruct present_capable as [Hkey Hmail].
  destruct (oc_accountKey _ _ _ _ _ Hready) as [accountKey Hak].
  destruct (oc_domains _ _ _ _ _ Hready) as [s Hs].
  pose proof (oc_privateKey _ _ _ _ _ Hready) as Hpk.
  unfold loadConfiguration.
  unfold bind at 1, gets at 1. cbv beta iota zeta.
  rewrite Hls, Hkey, Hmail. cbn [negb].
  unfold KeyParse_await, await, modify, bind, ret.
  rewrite Hak, truthy_key, Hpk, Hs.
  eexists. split; [|reflexivity]. reflexivity.
Qed.

Lemma step_resolved (call : AcmeCall) (outcome : settle) (prefix : string)
    (w0 : World) :
  outcome = Resolved →
  step call outcome prefix w0 = (Ok true, awaited w0 call).
Proof. now intros ->. Qed.

Lemma attempt_reaches_conclude :
  ∃ config,
    cfg_privateKey config = privateKey
    ∧ attempt c (with_isRenewing true w) = conclude c acme config ordered.
Proof.
  destruct (loadConfiguration_ok (with_isRenewing true w) eq_refl)
    as (config & Hpk & Hload).
  exists config. split; [exact Hpk|].
  unfold attempt. unfold bind at 1, gets at 1. cbv beta iota zeta.
  cbn [window with_isRenewing].
  rewrite (oc_ACME _ _ _ _ _ Hready), (oc_X509 _ _ _ _ _ Hready).
  unfold bind at 1. rewrite Hload.
  unfold bind at 1.
  rewrite (step_resolved _ _ _ _ (oc_directory _ _ _ _ _ Hready)). cbn [negb].
  unfold bind at 1.
  rewrite (step_resolved _ _ _ _ (oc_account _ _ _ _ _ Hready)). cbn [negb].
  unfold bind at 1.
  rewrite (step_resolved _ _ _ _ (oc_order _ _ _ _ _ Hready)). cbn [negb].
  reflexivity.
Qed.

Lemma guarded_idle :
  guarded c w
  = try_catch (attempt c) (on_attempt_error c) (with_isRenewing true w).
Proof.
  unfold guarded. unfold bind at 1, gets at 1. cbv beta iota zeta.
  rewrite (oc_capable _ _ _ _ _ Hready), (oc_complete _ _ _ _ _ Hready).
  cbn [negb bool_decide decide_rel]. rewrite bool_decide_eq_true_2 by done.
  cbn [negb].
  unfold bind at 1, gets at 1. cbv beta iota zeta.
  now rewrite (oc_idle _ _ _ _ _ Hready).
Qed.

(** A call that gets to the authorizations is the rest of the attempt,
    run in the world where the order is created. *)
Lemma renewCertificate_ordered :
  ∃ config,
    cfg_privateKey config = privateKey
    ∧ renewCertificate c w
      = finally
          (try_catch (try_catch (conclude c acme config) (on_attempt_error c))
                     on_error)
          (with_isRenewing false) ordered.
Proof.
  destruct attempt_reaches_conclude as (config & Hpk & Hattempt).
  exists config. split; [exact Hpk|].
  unfold renewCertificate, finally. unfold try_catch at 1 3.
  rewrite guarded_idle. unfold try_catch at 1 2.
  now rewrite Hattempt.
Qed.

End Attempt.

Lemma conclude_manual (c : Certificate) (acme : ACMEEngine)
    (config : Configuration) (w : World) :
  non_valid (auths acme) ≠ [] →
  conclude c acme config w
  = (Ok (manualRequired c (non_valid (auths acme))), w).
Proof.
  intros Hpending. unfold conclude. rewrite checkAuthorizationStatus_spec.
  cbn [allValid pendingDomains]. now rewrite bool_decide_eq_false_2.
Qed.

Lemma storeCertificate_calls (c : Certificate) (pem k : JS.value) (w : World) :
  calls (storeCertificate c pem k w).2 = calls w.
Proof.
  unfold storeCertificate. unfold bind at 1, gets at 1. cbv beta iota zeta.
  destruct (certs (localStorage w)) as [[|e|l]|]; try reflexivity.
  destruct (list_find _ l) as [[i e]|]; reflexivity.
Qed.

Lemma storeCertificate_found (c : Certificate) (pem k : JS.value) (w : World)
    (l : list (gmap string JS.value)) (i : nat) (e : gmap string JS.value) :
  certs (localStorage w) = Some (Doc l) →
  list_find (λ e, same_certificate c e = true) l = Some (i, e) →
  storeCertificate c pem k w
  = (Ok (),
     with_localStorage
       (set_certs
          (Doc (JS.stringify <$> <[i := renewed_entry e pem k (now w)]> l))
          (localStorage w)) w).
Proof.
  intros Hcerts Hfind. unfold storeCertificate.
  unfold bind at 1, gets at 1. cbv beta iota zeta.
  now rewrite Hcerts, Hfind.
Qed.

(** With every authorization valid the finalize step is called, once. *)
Lemma conclude_finalize_calls (c : Certificate) (acme : ACMEEngine)
    (config : Configuration) (w : World) :
  non_valid (auths acme) = [] →
  calls (conclude c acme config w).2 = calls w ++ [CallStepFinalizeOrder].
Proof.
  intros Hvalid. unfold conclude. rewrite checkAuthorizationStatus_spec.
  cbn [allValid pendingDomains]. rewrite bool_decide_eq_true_2 by exact Hvalid.
  cbn [negb]. unfold step, await, modify. unfold bind at 1 2. cbv beta iota zeta.
  destruct (StepFinalizeOrder acme); [|reflexivity].
  unfold ret at 1. cbn [negb].
  destruct (negb (JS.truthy (downloadPEM acme))); [reflexivity|].
  unfold bind at 1.
  pose proof (storeCertificate_calls c (downloadPEM acme) (cfg_privateKey config)
                (awaited w CallStepFinalizeOrder)) as Hstore.
  destruct (storeCertificate _ _ _ _) as [[[]|e] w']; cbn in Hstore |- *;
    exact Hstore.
Qed.

Lemma conclude_success (c : Certificate) (acme : ACMEEngine)
    (config : Configuration) (w : World)
    (l : list (gmap string JS.value)) (i : nat) (e : gmap string JS.value) :
  non_valid (auths acme) = [] →
  StepFinalizeOrder acme = Resolved →
  JS.truthy (downloadPEM acme) = true →
  certs (localStorage w) = Some (Doc l) →
  list_find (λ e, same_certificate c e = true) l = Some (i, e) →
  let finalized := awaited w CallStepFinalizeOrder in
  conclude c acme config w
  = (Ok (renewedAutomatically c (downloadPEM acme) (cfg_privateKey config)
           (now finalized)),
     with_localStorage
       (set_certs
          (Doc (JS.stringify
                  <$> <[i := renewed_entry e (downloadPEM acme)
                                (cfg_privateKey config) (now finalized)]> l))
          (localStorage w)) finalized).
Proof.
  intros Hvalid Hfinal Hpem Hcerts Hfind. cbv zeta.
  unfold conclude. rewrite checkAuthorizationStatus_spec.
  cbn [allValid pendingDomains]. rewrite bool_decide_eq_true_2 by exact Hvalid.
  cbn [negb]. unfold step, await, modify. unfold bind at 1 2. cbv beta iota zeta.
  rewrite Hfinal. unfold ret at 1. cbn [negb]. rewrite Hpem. cbn [negb].
  unfold bind at 1.
  rewrite (storeCertificate_found _ _ _ _ l i e) by assumption.
  reflexivity.
Qed.

(** The decision on the authorizations in general. In an attempt whose
    directory, account and order steps succeed: if every authorization
    is valid, the finalize step is invoked, and when it succeeds with a
    certificate and the certificate list of the client holds the
    certificate, the outcome is a success that carries that
    certificate; if some authorization is not valid, the outcome is
    manual_required with the domains that are not valid and a renewal
    URL, and the finalize step is not invoked and the store is not
    touched. *)
Theorem authorizations_decide (c : Certificate) (w : World) (acme : ACMEEngine)
    (x509 : X509Engine) (privateKey : JS.value) :
  OrderCreated c w acme x509 privateKey →
  let outcome := (renewCertificate c w).1 in
  let w' := (renewCertificate c w).2 in
  (Forall (λ a, a.2 = "valid") (auths acme) →
     calls w' = calls w ++ calls_to_order ++ [CallStepFinalizeOrder]
     ∧ (StepFinalizeOrder acme = Resolved →
        JS.truthy (downloadPEM acme) = true →
        ∀ l i e,
          certs (localStorage w) = Some (Doc l) →
          list_find (λ e, same_certificate c e = true) l = Some (i, e) →
          outcome
          = Ok (renewedAutomatically c (downloadPEM acme) privateKey (now w'))))
  ∧ (Exists (λ a, a.2 ≠ "valid") (auths acme) →
     outcome = Ok (manualRequired c (non_valid (auths acme)))
     ∧ non_valid (auths acme) ≠ []
     ∧ calls w' = calls w ++ calls_to_order
     ∧ localStorage w' = localStorage w).
Proof.
  intros Hready. cbv zeta.
  destruct (renewCertificate_ordered c w acme x509 privateKey Hready)
    as (config & <- & ->).
  set (ordered := fold_left awaited calls_to_order (with_isRenewing true w)).
  assert (Hcalls : calls ordered = calls w ++ calls_to_order)
    by (unfold ordered; now rewrite awaited_calls).
  assert (Hls : localStorage ordered = localStorage w)
    by (unfold ordered; now rewrite awaited_localStorage).
  clearbody ordered. split.
  - intros Hvalid%non_valid_all_valid. split.
    + pose proof (conclude_finalize_calls c acme config ordered Hvalid) as Hfin.
      unfold finally, try_catch, on_attempt_error, on_error, ret, throw.
      destruct (conclude c acme config ordered) as [[r|msg] w1]; cbn in Hfin |- *.
      * now rewrite Hfin, Hcalls, <- app_assoc.
      * destruct (_ || _); cbn; now rewrite Hfin, Hcalls, <- app_assoc.
    + intros Hfinal Hpem l i e Hcerts Hfind.
      rewrite <- Hls in Hcerts.
      unfold finally, try_catch.
      now rewrite (conclude_success c acme config ordered l i e
                     Hvalid Hfinal Hpem Hcerts Hfind).
  - intros Hpending%non_valid_some_pending.
    unfold finally, try_catch.
    rewrite (conclude_manual c acme config ordered Hpending). cbn.
    repeat split; assumption.
Qed.



End Decision.

(** ** RenewalScheduler: a job that meets a running renewal *)

Section Overlap.

Context `{Host}.

Import CertificateScanner RenewalScheduler.

Lemma capability_updateCertificate (id : nat) (updates : gmap string JS.value)
    (ls : LocalStorage) (now : Z) :
  ACMEClient.checkRenewalCapability (updateCertificate id updates ls now)
  = ACMEClient.checkRenewalCapability ls.
Proof.
  unfold updateCertificate. cbv zeta.
  now destruct (_ !! id).
Qed.

Lemma renewCertificate_reentrant (c : Certificate) (w : World) :
  isRenewing w = true →
  ACMEClient.canAutoRenew (ACMEClient.checkRenewalCapability (localStorage w))
  = true →
  ACMEClient.validateCertificate c = [] →
  ACMEClient.renewCertificate c w
  = (Ok ACMEClient.alreadyInProgress, with_isRenewing false w).
Proof.
  intros Hflag Hcap Hvalid.
  unfold ACMEClient.renewCertificate, finally, try_catch.
  rewrite (guarded_reentrant c w Hflag), Hcap, Hvalid.
  reflexivity.
Qed.

Lemma mark_in_progress_eq (job : Job) (w : World) :
  mark_in_progress job w
  = (Ok (started (now w) job),
     with_localStorage (marked job w) (with_draws (S (draws w)) w)).
Proof. reflexivity. Qed.

Lemma on_failure_eq (job : Job) (r : ACMEClient.RenewalResult) (w : World) :
  let errorMsg := or_string (ACMEClient.error r) "Unknown error occurred" in
  on_failure job r w
  = (Ok (finished "failure" (now w) (Some errorMsg) (newCert job)
           (renewalUrl job) job),
     with_notifications
       (notifications w ++ [NotifyRenewalFailure (domain job) errorMsg])
       (with_localStorage
          (failed_store job errorMsg (localStorage w) (now w)
             (random w (draws w)))
          (with_draws (S (draws w)) w))).
Proof. reflexivity. Qed.

Lemma executeRenewalJob_overlap (job : Job) (w : World) :
  isRenewing w = true →
  ACMEClient.canAutoRenew (ACMEClient.checkRenewalCapability (localStorage w))
  = true →
  ACMEClient.validateCertificate (certificate (originalCert job)) = [] →
  executeRenewalJob job w
  = (Ok (finished "failure" (now w) (Some "Unknown error occurred")
           (newCert job) (renewalUrl job) (started (now w) job)),
     overlapped job w).
Proof.
  intros Hflag Hcap Hvalid.
  unfold executeRenewalJob, try_catch, run.
  unfold bind at 1. rewrite mark_in_progress_eq.
  unfold bind at 1.
  rewrite renewCertificate_reentrant; cycle 1.
  { exact Hflag. }
  { cbn [localStorage with_localStorage]. unfold marked.
    change (ACMEClient.checkRenewalCapability
              (HistoryManager.recordRenewal ?d ?s ?e ?o ?n ?ls ?t ?r))
      with (ACMEClient.checkRenewalCapability ls).
    now rewrite capability_updateCertificate. }
  { exact Hvalid. }
  cbn [ACMEClient.success ACMEClient.requiresManual ACMEClient.alreadyInProgress].
  unfold bind at 1. rewrite on_failure_eq.
  reflexivity.
Qed.

Lemma getHistory_updateLastCheck (d : JS.value) (ls : LocalStorage) (t : Z) :
  HistoryManager.getHistory (ConfigManager.updateLastCheck d ls t)
  = HistoryManager.getHistory ls.
Proof.
  unfold ConfigManager.updateLastCheck, ConfigManager.saveAutoRenewalConfig.
  cbv zeta. cbn [ConfigManager.enabled ConfigManager.threshold].
  destruct (ConfigManager.enabled _); try reflexivity.
  now destruct (_ || _).
Qed.

Lemma manageDataPairs_updateLastCheck (d : JS.value) (ls : LocalStorage) (t : Z) :
  manageDataPairs (ConfigManager.updateLastCheck d ls t) = manageDataPairs ls.
Proof.
  unfold ConfigManager.updateLastCheck, ConfigManager.saveAutoRenewalConfig.
  cbv zeta. cbn [ConfigManager.enabled ConfigManager.threshold].
  destruct (ConfigManager.enabled _); try reflexivity.
  now destruct (_ || _).
Qed.

Lemma head_getHistory_recordRenewal (d : JS.value) (st : string)
    (e : option string) (o n : JS.number) (ls : LocalStorage) (t : Z)
    (rnd : string) :
  head (HistoryManager.getHistory
          (HistoryManager.recordRenewal d st e o n ls t rnd))
  = Some {| hr_id := HistoryManager.generateId t rnd; hr_domain := d;
            hr_timestamp := t; hr_status := st; hr_error := e;
            hr_oldExpiry := o; hr_newExpiry := n |}.
Proof.
  unfold HistoryManager.recordRenewal. cbv zeta.
  now destruct (_ <? _)%nat.
Qed.

(** An update within the collection leaves its fields at the index. *)
Lemma updateCertificate_writes (id : nat) (updates : gmap string JS.value)
    (ls : LocalStorage) (now : Z) (entries : list (gmap string JS.value))
    (k : string) (v : JS.value) :
  manageDataPairs ls = Some (Doc entries) →
  (id < length entries)%nat →
  updates !! k = Some v → v ≠ JS.Undefined →
  ∃ entries' e,
    manageDataPairs (updateCertificate id updates ls now) = Some (Doc entries')
    ∧ length entries' = length entries
    ∧ entries' !! id = Some e
    ∧ e !! k = Some v.
Proof.
  intros Hls Hid Hk Hv.
  destruct (lookup_lt_is_Some_2 entries id Hid) as [e0 He0].
  unfold updateCertificate, scanCertificates. rewrite Hls. cbv zeta.
  rewrite list_lookup_fmap, list_lookup_imap, He0.
  cbn [fmap option_fmap option_map].
  do 2 eexists. split; [reflexivity|]. split.
  { now rewrite length_fmap, length_insert, length_fmap, length_imap. }
  split.
  - rewrite list_lookup_fmap, list_lookup_insert_eq
      by (rewrite length_fmap, length_imap; exact Hid).
    reflexivity.
  - unfold JS.stringify, JS.spread. apply map_lookup_filter_Some.
    split; [|exact Hv]. now apply lookup_union_Some_l.
Qed.

(** The overlap in general. A job that starts while a renewal is
    running, for a complete certificate and with the account configured,
    is taken through the failure branch, whatever the store, the clock
    and the engine: the job ends as a failure, a 'failure' record heads
    the history, a failure is notified, and the certificate of the job,
    if the store still has it, is marked 'failure'. *)
Lemma overlapping_job_fails (job : Job) (w : World) :
  isRenewing w = true →
  ACMEClient.canAutoRenew (ACMEClient.checkRenewalCapability (localStorage w))
  = true →
  ACMEClient.validateCertificate (certificate (originalCert job)) = [] →
  let done := executeRenewalJob job w in
  done.1
  = Ok (finished "failure" (now w) (Some "Unknown error occurred")
          (newCert job) (renewalUrl job) (started (now w) job))
  ∧ head (HistoryManager.getHistory (localStorage done.2))
    = Some {| hr_id := HistoryManager.generateId (now w)
                         (random w (S (draws w)));
              hr_domain := domain job;
              hr_timestamp := now w;
              hr_status := "failure";
              hr_error := Some "Unknown error occurred";
              hr_oldExpiry := oldExpiry_of job;
              hr_newExpiry := None |}
  ∧ notifications done.2
    = notifications w
      ++ [NotifyRenewalFailure (domain job) "Unknown error occurred"]
  ∧ ∀ entries,
      manageDataPairs (localStorage w) = Some (Doc entries) →
      (id (certificate (originalCert job)) < length entries)%nat →
      ∃ entries' e,
        manageDataPairs (localStorage done.2) = Some (Doc entries')
        ∧ entries' !! id (certificate (originalCert job)) = Some e
        ∧ e !! "renewalStatus" = Some (JS.Str "failure").
Proof.
  intros Hflag Hcap Hvalid. cbv zeta.
  rewrite (executeRenewalJob_overlap job w Hflag Hcap Hvalid).
  cbn [fst snd]. unfold overlapped.
  cbn [localStorage notifications with_isRenewing with_notifications
       with_localStorage].
  split; [reflexivity|]. split.
  { rewrite getHistory_updateLastCheck. unfold failed_store.
    apply head_getHistory_recordRenewal. }
  split; [reflexivity|].
  intros entries Hentries Hid.
  rewrite manageDataPairs_updateLastCheck. unfold failed_store, marked.
  change (manageDataPairs (HistoryManager.recordRenewal ?d ?s ?e ?o ?n ?ls ?t ?r))
    with (manageDataPairs ls).
  destruct (updateCertificate_writes (id (certificate (originalCert job)))
              (<["renewalStatus" := JS.Str "in_progress"]> (
               <["lastRenewalAttempt" := JS.Num (now w)]> ∅))
              (localStorage w) (now w) entries "renewalStatus"
              (JS.Str "in_progress") Hentries Hid)
    as (entries1 & e1 & Hstore1 & Hlen1 & _); [reflexivity|discriminate|].
  destruct (updateCertificate_writes (id (certificate (originalCert job)))
              (<["renewalStatus" := JS.Str "failure"]> ∅)
              (marked job w) (now w) entries1 "renewalStatus"
              (JS.Str "failure"))
    as (entries2 & e2 & Hstore2 & _ & He2 & Hfield);
    [exact Hstore1|lia|reflexivity|discriminate|].
  eauto.
Qed.

End Overlap.

(** ** RenewalScheduler: what a job leaves of the scanned certificates *)

Section Frame.

Import CertificateScanner.

Lemma unchanged_ret {A B} (f : World → B) (a : A) : unchanged f (ret a).
Proof. intros w. reflexivity. Qed.

Lemma unchanged_throw {A B} (f : World → B) (e : string) :
  unchanged f (throw (A:=A) e).
Proof. intros w. reflexivity. Qed.

Lemma unchanged_gets {A B} (f : World → B) (g : World → A) :
  unchanged f (gets g).
Proof. intros w. reflexivity. Qed.

Lemma unchanged_modify {B} (f : World → B) (g : World → World) :
  (∀ w, f (g w) = f w) → unchanged f (modify g).
Proof. intros Hg w. apply Hg. Qed.

Lemma unchanged_bind {A A' B} (f : World → B) (m : M A) (k : A → M A') :
  unchanged f m → (∀ a, unchanged f (k a)) → unchanged f (bind m k).
Proof.
  intros Hm Hk w. unfold bind. specialize (Hm w).
  destruct (m w) as [[a|e] w']; cbn in Hm |- *; [|exact Hm].
  now rewrite Hk.
Qed.

Lemma unchanged_try_catch {A B} (f : World → B) (m : M A) (h : string → M A) :
  unchanged f m → (∀ e, unchanged f (h e)) → unchanged f (try_catch m h).
Proof.
  intros Hm Hh w. unfold try_catch. specialize (Hm w).
  destruct (m w) as [[a|e] w']; cbn in Hm |- *; [exact Hm|].
  now rewrite Hh.
Qed.

Lemma unchanged_finally {A B} (f : World → B) (m : M A) (g : World → World) :
  unchanged f m → (∀ w, f (g w) = f w) → unchanged f (finally m g).
Proof.
  intros Hm Hg w. unfold finally. specialize (Hm w).
  destruct (m w) as [r w']; cbn in Hm |- *. now rewrite Hg.
Qed.

Ltac unchanged_step :=
  lazymatch goal with
  | |- unchanged _ (ret _) => apply unchanged_ret
  | |- unchanged _ (throw _) => apply unchanged_throw
  | |- unchanged _ (gets _) => apply unchanged_gets
  | |- unchanged _ Date_now => apply unchanged_gets
  | |- unchanged _ (modify _) => apply unchanged_modify; intros ?
  | |- unchanged _ (bind _ _) => apply unchanged_bind; [|intros ?]
  | |- unchanged _ (try_catch _ _) => apply unchanged_try_catch; [|intros ?]
  | |- unchanged _ (finally _ _) => apply unchanged_finally; [|intros ?]
  | |- unchanged _ (if ?b then _ else _) => destruct b
  | |- unchanged _ (match ?x with _ => _ end) => destruct x
  end.

(** The client writes the store under the key 'q-certs' only: whatever
    is observed of the world that does not depend on that key, on the
    clock, on the log of engine calls or on the flag, is as it was when
    [renewCertificate] returns. *)
Lemma renewCertificate_unchanged {B} (f : World → B) (c : Certificate) :
  (∀ w b, f (with_isRenewing b w) = f w) →
  (∀ w call, f (awaited w call) = f w) →
  (∀ w v, f (with_localStorage (set_certs v (localStorage w)) w) = f w) →
  unchanged f (ACMEClient.renewCertificate c).
Proof.
  intros Hflag Hawait Hcerts.
  unfold ACMEClient.renewCertificate, ACMEClient.guarded, ACMEClient.on_error,
    ACMEClient.attempt, ACMEClient.on_attempt_error, ACMEClient.conclude,
    ACMEClient.loadConfiguration, ACMEClient.KeyParse_await,
    ACMEClient.storeCertificate, ACMEClient.step, await.
  repeat unchanged_step; auto.
Qed.

Lemma renewCertificate_scanner_store (c : Certificate) (w : World) :
  manageDataPairs (localStorage (ACMEClient.renewCertificate c w).2)
  = manageDataPairs (localStorage w).
Proof.
  apply (renewCertificate_unchanged (λ w, manageDataPairs (localStorage w)));
    reflexivity.
Qed.

Lemma renewCertificate_history (c : Certificate) (w : World) :
  renewalHistory (localStorage (ACMEClient.renewCertificate c w).2)
  = renewalHistory (localStorage w).
Proof.
  apply (renewCertificate_unchanged (λ w, renewalHistory (localStorage w)));
    reflexivity.
Qed.

(** An update within the collection leaves, at every index and for
    every key that it does not mention, what the scanner read there. *)
Lemma updateCertificate_keeps (id : nat) (updates : gmap string JS.value)
    (ls : LocalStorage) (now : Z) (entries : list (gmap string JS.value)) :
  manageDataPairs ls = Some (Doc entries) →
  (id < length entries)%nat →
  ∃ entries',
    manageDataPairs (updateCertificate id updates ls now) = Some (Doc entries')
    ∧ length entries' = length entries
    ∧ ∀ j e, entries !! j = Some e →
        ∃ e', entries' !! j = Some e'
              ∧ ∀ k, updates !! k = None →
                     e' !! k = to_obj (normalize now j e) !! k.
Proof.
  intros Hls Hid.
  destruct (lookup_lt_is_Some_2 entries id Hid) as [e0 He0].
  unfold updateCertificate, scanCertificates. rewrite Hls. cbv zeta.
  rewrite list_lookup_fmap, list_lookup_imap, He0.
  cbn [fmap option_fmap option_map].
  eexists. split; [reflexivity|]. split.
  { now rewrite length_fmap, length_insert, length_fmap, length_imap. }
  intros j e He. rewrite list_lookup_fmap.
  destruct (decide (j = id)) as [->|Hne].
  - rewrite list_lookup_insert_eq
      by (rewrite length_fmap, length_imap; exact Hid).
    assert (e = e0) as -> by congruence.
    eexists. split; [reflexivity|]. intros k Hk.
    unfold JS.stringify, JS.spread.
    destruct (to_obj (normalize now id e0) !! k) as [v|] eqn:Hv.
    + apply map_lookup_filter_Some. split.
      * rewrite lookup_union_r by exact Hk. exact Hv.
      * eapply normalize_defined. exact Hv.
    + apply map_lookup_filter_None. left.
      apply lookup_union_None. now split.
  - rewrite list_lookup_insert_ne by congruence.
    rewrite list_lookup_fmap, list_lookup_imap, He.
    cbn [fmap option_fmap option_map].
    rewrite stringify_defined by apply normalize_defined.
    eexists. split; reflexivity.
Qed.

Lemma or_else_idempotent (x d d' : JS.value) :
  JS.truthy d = true ∨ d = d' →
  JS.or_else (JS.or_else x d) d' = JS.or_else x d.
Proof.
  intros Hd. unfold JS.or_else.
  destruct (JS.truthy x) eqn:Hx; [now rewrite Hx|].
  destruct Hd as [Hd| <-]; [now rewrite Hd|].
  now destruct (JS.truthy d).
Qed.

Lemma toISOString_truthy (t : Z) :
  JS.truthy (JS.Str (JSDate.toISOString t)) = true.
Proof.
  unfold JSDate.toISOString. cbv zeta.
  match goal with |- context [?y +:+ "-" +:+ ?rest] =>
    generalize rest; generalize y end.
  intros y rest. now destruct y.
Qed.

Lemma to_obj_cert (c : Certificate) : to_obj c !! "cert" = Some (cert c).
Proof. reflexivity. Qed.

Lemma to_obj_key (c : Certificate) : to_obj c !! "key" = Some (key c).
Proof. reflexivity. Qed.

Lemma to_obj_time (c : Certificate) : to_obj c !! "time" = Some (time c).
Proof. reflexivity. Qed.

(** Scanning what an update wrote reads the same certificate, key and
    time, at whatever time the scan is made. *)
Lemma identity_of_rescan (now now' : Z) (j : nat) (e e' : gmap string JS.value) :
  e' !! "cert" = to_obj (normalize now j e) !! "cert" →
  e' !! "key" = to_obj (normalize now j e) !! "key" →
  e' !! "time" = to_obj (normalize now j e) !! "time" →
  identity_of now' j e' = identity_of now j e.
Proof.
  rewrite to_obj_cert, to_obj_key, to_obj_time.
  intros Hcert Hkey Htime. unfold identity_of. f_equal; [f_equal|].
  - change (cert (normalize now' j e'))
      with (JS.or_else (JS.get e' "cert") (JS.Str "")).
    unfold JS.get at 1. rewrite Hcert.
    apply or_else_idempotent. now right.
  - change (key (normalize now' j e'))
      with (JS.or_else (JS.get e' "key") (JS.Str "")).
    unfold JS.get at 1. rewrite Hkey.
    apply or_else_idempotent. now right.
  - change (time (normalize now' j e'))
      with (JS.or_else (JS.get e' "time") (JS.Str (JSDate.toISOString now'))).
    unfold JS.get at 1. rewrite Htime.
    apply or_else_idempotent. left. apply toISOString_truthy.
Qed.

Lemma Keeps_first (entries : list (gmap string JS.value)) (w : World)
    (id : nat) (updates : gmap string JS.value) :
  manageDataPairs (localStorage w) = Some (Doc entries) →
  (id < length entries)%nat →
  spares_identity updates →
  Keeps entries (now w)
    (with_localStorage (updateCertificate id updates (localStorage w) (now w)) w).
Proof.
  intros Hls Hid (Hcert & Hkey & Htime).
  destruct (updateCertificate_keeps id updates _ (now w) entries Hls Hid)
    as (entries' & Hstore & Hlen & Hkeep).
  exists entries'. split; [exact Hstore|]. split; [exact Hlen|].
  intros j e He. destruct (Hkeep j e He) as (e' & He' & Hfields).
  exists e'. split; [exact He'|]. intros t.
  apply identity_of_rescan; now apply Hfields.
Qed.

Lemma Keeps_next (entries : list (gmap string JS.value)) (now0 : Z) (w : World)
    (id : nat) (updates : gmap string JS.value) :
  (id < length entries)%nat →
  spares_identity updates →
  Keeps entries now0 w →
  Keeps entries now0
    (with_localStorage (updateCertificate id updates (localStorage w) (now w)) w).
Proof.
  intros Hid (Hcert & Hkey & Htime) (entries1 & Hls & Hlen1 & Hkeep1).
  destruct (updateCertificate_keeps id updates _ (now w) entries1 Hls)
    as (entries2 & Hstore & Hlen2 & Hkeep2); [lia|].
  exists entries2. split; [exact Hstore|]. split; [lia|].
  intros j e He. destruct (Hkeep1 j e He) as (e1 & He1 & Hid1).
  destruct (Hkeep2 j e1 He1) as (e2 & He2 & Hfields).
  exists e2. split; [exact He2|]. intros t.
  rewrite <- (Hid1 (now w)).
  apply identity_of_rescan; now apply Hfields.
Qed.

Lemma maintains_ret {A} (I : World → Prop) (a : A) : maintains I (ret a).
Proof. intros w Hw. exact Hw. Qed.

Lemma maintains_throw {A} (I : World → Prop) (e : string) :
  maintains I (throw (A:=A) e).
Proof. intros w Hw. exact Hw. Qed.

Lemma maintains_gets {A} (I : World → Prop) (g : World → A) :
  maintains I (gets g).
Proof. intros w Hw. exact Hw. Qed.

Lemma maintains_modify (I : World → Prop) (g : World → World) :
  (∀ w, I w → I (g w)) → maintains I (modify g).
Proof. intros Hg w Hw. now apply Hg. Qed.

Lemma maintains_bind {A A'} (I : World → Prop) (m : M A) (k : A → M A') :
  maintains I m → (∀ a, maintains I (k a)) → maintains I (bind m k).
Proof.
  intros Hm Hk w Hw. unfold bind. specialize (Hm w Hw).
  destruct (m w) as [[a|e] w']; cbn in Hm |- *; [|exact Hm].
  now apply Hk.
Qed.

Lemma maintains_try_catch {A} (I : World → Prop) (m : M A) (h : string → M A) :
  maintains I m → (∀ e, maintains I (h e)) → maintains I (try_catch m h).
Proof.
  intros Hm Hh w Hw. unfold try_catch. specialize (Hm w Hw).
  destruct (m w) as [[a|e] w']; cbn in Hm |- *; [exact Hm|].
  now apply Hh.
Qed.

Lemma maintains_unchanged {A B} (P : B → Prop) (f : World → B) (m : M A) :
  unchanged f m → maintains (λ w, P (f w)) m.
Proof. intros Hm w Hw. now rewrite Hm. Qed.

Ltac maintains_step :=
  lazymatch goal with
  | |- maintains _ (ret _) => apply maintains_ret
  | |- maintains _ (throw _) => apply maintains_throw
  | |- maintains _ (gets _) => apply maintains_gets
  | |- maintains _ Date_now => apply maintains_gets
  | |- maintains _ (bind _ _) => apply maintains_bind; [|intros ?]
  | |- maintains _ (try_catch _ _) => apply maintains_try_catch; [|intros ?]
  | |- maintains _ (if ?b then _ else _) => destruct b
  end.

Section Job.

Context `{Host}.

Import RenewalScheduler.

Lemma Keeps_renewCertificate (entries : list (gmap string JS.value)) (now0 : Z)
    (c : Certificate) :
  maintains (Keeps entries now0) (ACMEClient.renewCertificate c).
Proof.
  apply (maintains_unchanged
           (λ slot, ∃ entries', slot = Some (Doc entries') ∧ _)
           (λ w, manageDataPairs (localStorage w))).
  intros w. apply renewCertificate_scanner_store.
Qed.

Lemma Keeps_updateCertificate (entries : list (gmap string JS.value)) (now0 : Z)
    (id : nat) (updates : gmap string JS.value) :
  (id < length entries)%nat → spares_identity updates →
  maintains (Keeps entries now0) (scanner_updateCertificate id updates).
Proof.
  intros Hid Hspares. apply maintains_modify. intros w.
  now apply Keeps_next.
Qed.

Lemma Keeps_recordRenewal (entries : list (gmap string JS.value)) (now0 : Z)
    (d : JS.value) (st : string) (e : option string) (o : JS.number) :
  maintains (Keeps entries now0) (historyManager_recordRenewal d st e o).
Proof. intros w Hw. exact Hw. Qed.

Lemma Keeps_updateLastCheck (entries : list (gmap string JS.value)) (now0 : Z)
    (d : JS.value) :
  maintains (Keeps entries now0) (configManager_updateLastCheck d).
Proof.
  intros w (entries' & Hls & Hrest). exists entries'. split; [|exact Hrest].
  cbn. now rewrite manageDataPairs_updateLastCheck.
Qed.

Lemma try_catch_bind_ok {A A'} (m : M A) (k : A → M A') (h : string → M A')
    (w w1 : World) (a : A) :
  m w = (Ok a, w1) → try_catch (bind m k) h w = try_catch (k a) h w1.
Proof. intros Hm. unfold try_catch, bind. now rewrite Hm. Qed.

Ltac keeps_step :=
  first
    [ maintains_step
    | apply Keeps_renewCertificate
    | apply Keeps_recordRenewal
    | apply Keeps_updateLastCheck
    | apply Keeps_updateCertificate; [assumption|repeat split]
    | apply maintains_modify; intros ? Hkeeps; exact Hkeeps ].

(** The scanned certificates in general. Whatever the outcome of the renewal,
    success included, a job leaves at every index of the scanner's
    collection the certificate, the key and the issuance time that the
    scanner read there when the job started. *)
Lemma job_keeps_identity (entries : list (gmap string JS.value)) (job : Job)
    (w : World) :
  manageDataPairs (localStorage w) = Some (Doc entries) →
  (id (certificate (originalCert job)) < length entries)%nat →
  Keeps entries (now w) (executeRenewalJob job w).2.
Proof.
  intros Hls Hid. unfold executeRenewalJob, run.
  rewrite (try_catch_bind_ok _ _ _ _ _ _ (mark_in_progress_eq job w)).
  assert (Hfirst : Keeps entries (now w)
            (with_localStorage (marked job w) (with_draws (S (draws w)) w))).
  { exact (Keeps_first entries w (id (certificate (originalCert job)))
             (<["renewalStatus" := JS.Str "in_progress"]> (
              <["lastRenewalAttempt" := JS.Num (now w)]> ∅))
             Hls Hid ltac:(repeat split)). }
  revert Hfirst. generalize (with_localStorage (marked job w) (with_draws (S (draws w)) w)).
  change (maintains (Keeps entries (now w))
            (try_catch
               (let* renewalResult :=
                  ACMEClient.renewCertificate
                    (certificate (originalCert (started (now w) job))) in
                let* job1 :=
                  if ACMEClient.success renewalResult
                  then on_success (started (now w) job) renewalResult
                  else if ACMEClient.requiresManual renewalResult
                       then on_manual (started (now w) job) renewalResult
                       else on_failure (started (now w) job) renewalResult in
                configManager_updateLastCheck (domain job1) ;;; ret job1)
               (on_job_error job))).
  unfold on_success, on_manual, on_failure, on_job_error, notify.
  repeat keeps_step.
Qed.

End Job.

End Frame.

(** ** CertificateScanner: scans and updates *)

Section Rescan.

Import CertificateScanner.

Lemma or_else_truthy (x d : JS.value) :
  JS.truthy x = true → JS.or_else x d = x.
Proof. intros Hx. unfold JS.or_else. now rewrite Hx. Qed.

Lemma or_else_falsy (x d : JS.value) :
  JS.truthy x = false → JS.or_else x d = d.
Proof. intros Hx. unfold JS.or_else. now rewrite Hx. Qed.

(** The scan of what the scanner wrote is the certificate it read. *)
Lemma normalize_to_obj (now now' : Z) (j : nat) (e : gmap string JS.value) :
  normalize now' j (to_obj (normalize now j e)) = normalize now j e.
Proof.
  unfold normalize at 1.
  change (JS.get (to_obj (normalize now j e)) "domains")
    with (domains (normalize now j e)).
  change (JS.get (to_obj (normalize now j e)) "cert")
    with (cert (normalize now j e)).
  change (JS.get (to_obj (normalize now j e)) "key")
    with (key (normalize now j e)).
  change (JS.get (to_obj (normalize now j e)) "time")
    with (time (normalize now j e)).
  change (JS.get (to_obj (normalize now j e)) "autoRenewal")
    with (autoRenewal (normalize now j e)).
  change (JS.get (to_obj (normalize now j e)) "renewalStatus")
    with (renewalStatus (normalize now j e)).
  change (JS.get (to_obj (normalize now j e)) "lastRenewalAttempt")
    with (lastRenewalAttempt (normalize now j e)).
  unfold normalize.
  cbn [id domains cert key time autoRenewal renewalStatus lastRenewalAttempt].
  rewrite !or_else_idempotent
    by (first [now right | left; first [reflexivity | apply toISOString_truthy]]).
  f_equal.
  destruct (JS.strict_eq (JS.get e "autoRenewal") JS.Undefined) eqn:Hau;
    [reflexivity|now rewrite Hau].
Qed.

(** A field of a scanned certificate, other than its [id], depends on
    the same field of the stored entry only. *)
Lemma normalize_field_ext (now : Z) (j : nat) (e1 e2 : gmap string JS.value)
    (k : string) :
  k ∈ schema → k ≠ "id" → e1 !! k = e2 !! k →
  to_obj (normalize now j e1) !! k = to_obj (normalize now j e2) !! k.
Proof.
  intros Hk Hid He. unfold schema in Hk.
  repeat (apply elem_of_cons in Hk as [->|Hk]); try (now apply elem_of_nil in Hk);
    try congruence;
    unfold to_obj, normalize;
    cbn [id domains cert key time autoRenewal renewalStatus lastRenewalAttempt];
    rewrite !lookup_insert; repeat case_decide; try congruence;
    unfold JS.get; now rewrite He.
Qed.

Lemma normalize_field_truthy (now : Z) (j : nat) (e : gmap string JS.value)
    (k : string) (v : JS.value) :
  k ∈ schema → k ≠ "id" → e !! k = Some v → JS.truthy v = true →
  to_obj (normalize now j e) !! k = Some v.
Proof.
  intros Hk Hid He Hv. unfold schema in Hk.
  repeat (apply elem_of_cons in Hk as [->|Hk]); try (now apply elem_of_nil in Hk);
    try congruence;
    unfold to_obj, normalize;
    cbn [id domains cert key time autoRenewal renewalStatus lastRenewalAttempt];
    rewrite !lookup_insert; repeat case_decide; try congruence;
    unfold JS.get; rewrite He; cbn [default];
    try (now rewrite or_else_truthy).
  destruct v; try discriminate; reflexivity.
Qed.

(** X1. After an update at an index of the collection, a scan at any
    later time reads at every other index the certificate that the
    update itself scanned there, also where the stored entry lacked
    fields, such as its [time]; at the updated index it reads the same
    [id], the fields that the update does not mention as the update
    scanned them, and for a field of the schema that the update sets to
    a truthy value, that value. *)
Theorem scan_after_update (ls : LocalStorage) (now now' : Z)
    (entries : list (gmap string JS.value)) (id : nat)
    (updates : gmap string JS.value) :
  manageDataPairs ls = Some (Doc entries) →
  (id < length entries)%nat →
  let before := scanCertificates ls now in
  let after := scanCertificates (updateCertificate id updates ls now) now' in
  length after = length before
  ∧ (∀ j, j ≠ id → after !! j = before !! j)
  ∧ ∃ c c', before !! id = Some c ∧ after !! id = Some c'
      ∧ CertificateScanner.id c' = id
      ∧ ∀ k, k ∈ schema → k ≠ "id" →
          (updates !! k = None → to_obj c' !! k = to_obj c !! k)
          ∧ (∀ v, updates !! k = Some v → JS.truthy v = true →
                  to_obj c' !! k = Some v).
Proof.
  intros Hls Hid. cbv zeta.
  destruct (lookup_lt_is_Some_2 entries id Hid) as [e0 He0].
  assert (Hbefore : scanCertificates ls now = imap (normalize now) entries)
    by (unfold scanCertificates; now rewrite Hls).
  assert (Hafter :
    scanCertificates (updateCertificate id updates ls now) now'
    = imap (normalize now')
        (JS.stringify
           <$> <[id := JS.spread (to_obj (normalize now id e0)) updates]>
                 (to_obj <$> imap (normalize now) entries))).
  { unfold updateCertificate. cbv zeta. rewrite Hbefore.
    rewrite list_lookup_fmap, list_lookup_imap, He0.
    reflexivity. }
  rewrite Hbefore, Hafter. clear Hbefore Hafter.
  split; [|split].
  - now rewrite !length_imap, length_fmap, length_insert, length_fmap, length_imap.
  - intros j Hne. rewrite !list_lookup_imap, list_lookup_fmap.
    rewrite list_lookup_insert_ne by congruence.
    rewrite list_lookup_fmap, list_lookup_imap.
    destruct (entries !! j) as [e|]; [|reflexivity].
    cbn [fmap option_fmap option_map]. f_equal.
    rewrite stringify_defined by apply normalize_defined.
    apply normalize_to_obj.
  - exists (normalize now id e0). eexists.
    split; [now rewrite list_lookup_imap, He0|].
    split.
    { rewrite list_lookup_imap, list_lookup_fmap, list_lookup_insert_eq
        by (rewrite length_fmap, length_imap; exact Hid).
      reflexivity. }
    split; [reflexivity|].
    intros k Hk Hkid. split.
    + intros Hup.
      rewrite <- (normalize_to_obj now now' id e0) at 2.
      apply normalize_field_ext; [exact Hk|exact Hkid|].
      unfold JS.stringify, JS.spread.
      destruct (to_obj (normalize now id e0) !! k) as [v|] eqn:Hv.
      * apply map_lookup_filter_Some. split.
        -- rewrite lookup_union_r by exact Hup. exact Hv.
        -- eapply normalize_defined. exact Hv.
      * apply map_lookup_filter_None. left.
        apply lookup_union_None. now split.
    + intros v Hup Hv.
      apply normalize_field_truthy; [exact Hk|exact Hkid| |exact Hv].
      unfold JS.stringify, JS.spread. apply map_lookup_filter_Some.
      split; [now apply lookup_union_Some_l|].
      cbn. intros ->. discriminate.
Qed.

(** X2. An update writes nothing when the key of the collection is
    absent, empty or malformed, or when the index is not below the
    length of the collection: the collection is not created and no entry
    is appended. *)
Theorem update_outside_the_collection (ls : LocalStorage) (now : Z) (id : nat)
    (updates : gmap string JS.value) :
  (∀ entries, manageDataPairs ls ≠ Some (Doc entries))
  ∨ (∃ entries, manageDataPairs ls = Some (Doc entries)
                ∧ (length entries <= id)%nat) →
  updateCertificate id updates ls now = ls.
Proof.
  intros Houtside. apply update_out_of_range. unfold scanCertificates.
  destruct Houtside as [Hnone|(entries & -> & Hlen)].
  - destruct (manageDataPairs ls) as [[|e|entries]|]; cbn; try lia.
    now destruct (Hnone entries).
  - now rewrite length_imap.
Qed.

End Rescan.

(** ** CertificateScanner: detection, and the countdown of the page *)

Section Detection.

Context `{Host}.

Import CertificateScanner.

Lemma le_max_0 (d : JS.number) (threshold : Z) :
  JS.le d (Some (Z.max 0 threshold))
  = JS.le d (Some 0) || JS.le d (Some threshold).
Proof.
  destruct d as [d|]; [|reflexivity]. cbn.
  destruct (Z.leb_spec d 0), (Z.leb_spec d threshold), (Z.leb_spec d (Z.max 0 threshold));
    cbn; try reflexivity; lia.
Qed.

Lemma status_reported (now : Z) (c : Certificate) (threshold : Z) :
  String.eqb (getCertificateStatus now c threshold) "needs_renewal"
  || String.eqb (getCertificateStatus now c threshold) "expired"
  = JS.le (getDaysUntilExpiry now c) (Some (Z.max 0 threshold)).
Proof.
  rewrite le_max_0, status_cases.
  destruct (JS.le (getDaysUntilExpiry now c) (Some 0));
    destruct (JS.le (getDaysUntilExpiry now c) (Some threshold)); reflexivity.
Qed.

(** X3. [detectExpiringCertificates] returns, in the order of the scan,
    the scanned certificates whose days until expiry are a number that
    is at most the threshold or at most 0, each with the status and the
    days that the scanner computes for it; a certificate whose expiry is
    no date is never among them. *)
Theorem expiring_certificates_detected (ls : LocalStorage) (now threshold : Z) :
  let found := detectExpiringCertificates ls now threshold in
  certificate <$> found
  = filter (λ c, JS.le (getDaysUntilExpiry now c) (Some (Z.max 0 threshold)) = true)
           (scanCertificates ls now)
  ∧ Forall (λ e,
      status e = getCertificateStatus now (certificate e) threshold
      ∧ daysUntilExpiry e = getDaysUntilExpiry now (certificate e)
      ∧ (status e = "expired" ∨ status e = "needs_renewal")
      ∧ ∃ d, daysUntilExpiry e = Some d ∧ d <= Z.max 0 threshold) found.
Proof.
  cbv zeta. unfold detectExpiringCertificates. cbv zeta.
  induction (scanCertificates ls now) as [|c l [IH1 IH2]]; [split; [reflexivity|constructor]|].
  cbn [omap list_omap]. rewrite filter_cons.
  pose proof (status_reported now c threshold) as Hrep.
  destruct (JS.le (getDaysUntilExpiry now c) (Some (Z.max 0 threshold))) eqn:Hle.
  - rewrite Hrep. rewrite decide_True by reflexivity.
    cbn [fmap list_fmap certificate]. split; [now f_equal|].
    constructor; [|exact IH2].
    cbn [status daysUntilExpiry certificate].
    split; [reflexivity|]. split; [reflexivity|]. split.
    + apply orb_prop in Hrep as [Hs|Hs]; apply String.eqb_eq in Hs; auto.
    + destruct (getDaysUntilExpiry now c) as [d|]; [|discriminate].
      exists d. split; [reflexivity|]. now apply Z.leb_le.
  - rewrite Hrep. rewrite decide_False by discriminate.
    split; assumption.
Qed.

(** X4. A certificate that [isExpired] says is expired has the status
    'expired', whatever the threshold; the status 'expired' is that of a
    certificate that [isExpired] says is expired, or of one that expires
    at this very millisecond. *)
Theorem expired_when_past_expiry (now : Z) (c : Certificate) (threshold : Z) :
  (isExpired now c = true → getCertificateStatus now c threshold = "expired")
  ∧ (getCertificateStatus now c threshold = "expired" →
     isExpired now c = true ∨ getExpiryDate c = Some now).
Proof.
  rewrite status_cases. unfold isExpired, getDaysUntilExpiry. cbv zeta.
  destruct (getExpiryDate c) as [e|]; cbn [JS.sub JS.ceil_div JS.le].
  - change (1000 * 60 * 60 * 24) with 86400000.
    destruct (Z.ltb_spec e now) as [Hlt|Hge].
    + assert (Hd : - (- (e - now) / 86400000) <= 0)
        by (Z.to_euclidean_division_equations; lia).
      apply Z.leb_le in Hd. rewrite Hd. split; [reflexivity|now left].
    + split; [discriminate|].
      destruct (Z.leb_spec (- (- (e - now) / 86400000)) 0) as [Hd|Hd].
      * intros _. right. f_equal.
        Z.to_euclidean_division_equations; lia.
      * destruct (_ <=? threshold); discriminate.
  - split; discriminate.
Qed.

Lemma TimeClip_in_range (t : Z) :
  Z.abs t <= 8640000000000000 → JSDate.TimeClip t = Some t.
Proof.
  intros Ht. unfold JSDate.TimeClip.
  now destruct (Z.leb_spec (Z.abs t) 8640000000000000); [|lia].
Qed.

(** In a time zone whose offset from UTC does not change, the expiry
    date is 90 times 24 hours after the issuance. *)
Lemma getExpiryDate_fixed_offset (z : Z) (c : Certificate) :
  (∀ t b, LocalTZA t b = z) →
  getExpiryDate c
  = JS.add (JSDate.getTime (JSDate.construct (time c)))
           (Some (90 * 24 * 60 * 60 * 1000))
    ≫= JSDate.TimeClip.
Proof.
  intros Hz. rewrite getExpiryDate_calendar.
  destruct (JSDate.construct (time c)) as [issuedAt|]; [|reflexivity].
  cbn [mbind option_bind JSDate.getTime JS.add].
  unfold JSDate.UTC, JSDate.LocalTime. rewrite !Hz. f_equal.
  unfold JSDate.msPerDay. lia.
Qed.

(** X5. Where the time zone offset does not change, the countdown of
    the certificate page and the scanner agree on a certificate whose
    [time] is a text: the time left is the same, the page shows that the
    certificate has expired exactly when the status is 'expired', and
    the days that the page shows are the scanner's days until expiry or
    one less. *)
Theorem page_countdown_agrees_with_scanner (z now threshold : Z) (j : nat)
    (d : gmap string JS.value) (s : string) :
  (∀ t b, LocalTZA t b = z) →
  JS.get d "time" = JS.Str s → s ≠ "" →
  let c := normalize now j d in
  let cell := ManagePage.updateGuoqiTimes (ManagePage.data_time d) now in
  ManagePage.time_left (ManagePage.data_time d) now
  = JS.sub (getExpiryDate c) (Some now)
  ∧ (cell = ManagePage.Expired ↔ getCertificateStatus now c threshold = "expired")
  ∧ ∀ days hours minutes,
      cell = ManagePage.Left (Some days) hours minutes →
      ∃ n, getDaysUntilExpiry now c = Some n ∧ days <= n <= days + 1.
Proof.
  intros Hz Htime Hs. cbv zeta.
  assert (Hc : time (normalize now j d) = JS.Str s).
  { cbn. rewrite Htime. apply or_else_truthy. cbn.
    now destruct (String.eqb_spec s ""). }
  assert (Hleft : ManagePage.time_left (ManagePage.data_time d) now
                  = JS.sub (getExpiryDate (normalize now j d)) (Some now)).
  { unfold ManagePage.time_left, ManagePage.data_time. cbv zeta.
    rewrite (getExpiryDate_fixed_offset z) by exact Hz.
    now rewrite Hc, Htime. }
  split; [exact Hleft|].
  rewrite status_cases. unfold ManagePage.updateGuoqiTimes, getDaysUntilExpiry.
  cbv zeta. rewrite Hleft.
  destruct (getExpiryDate (normalize now j d)) as [e|];
    cbn [JS.sub JS.ceil_div JS.le].
  - change (1000 * 60 * 60 * 24) with 86400000.
    destruct (Z.ltb_spec (e - now) 0) as [Hlt|Hge]; cbn [orb].
    + assert (Hd : - (- (e - now) / 86400000) <= 0)
        by (Z.to_euclidean_division_equations; lia).
      apply Z.leb_le in Hd. rewrite Hd.
      split; [tauto|]. intros ? ? ?; discriminate.
    + destruct (Z.eqb_spec (e - now) 0) as [Heq|Hne].
      * rewrite Heq. cbn. split; [tauto|]. intros ? ? ?; discriminate.
      * assert (Hd : ¬ (- (- (e - now) / 86400000) <= 0))
          by (Z.to_euclidean_division_equations; lia).
        apply Z.leb_nle in Hd. rewrite Hd. split.
        -- split; [discriminate|].
           destruct (_ <=? threshold); discriminate.
        -- intros days hours minutes [= <- _ _].
           eexists. split; [reflexivity|].
           Z.to_euclidean_division_equations; lia.
  - split; [split; discriminate|]. intros ? ? ?; discriminate.
Qed.

(** X6. The countdown of the certificate page shows that the
    certificate has expired when no time is left, and otherwise days,
    hours below 24 and minutes below 60 that add up to the time left,
    to the minute; for a [data-time] that is no date it shows NaN three
    times. *)
Theorem page_countdown_splits (attr : string) (now : Z) :
  let cell := ManagePage.updateGuoqiTimes attr now in
  match ManagePage.time_left attr now with
  | Some time =>
      if time <=? 0 then cell = ManagePage.Expired
      else ∃ days hours minutes,
             cell = ManagePage.Left (Some days) (Some hours) (Some minutes)
             ∧ 0 <= days ∧ 0 <= hours < 24 ∧ 0 <= minutes < 60
             ∧ days * 86400000 + hours * 3600000 + minutes * 60000 <= time
               < days * 86400000 + hours * 3600000 + (minutes + 1) * 60000
  | None =>
      cell = ManagePage.Left JS.NaN JS.NaN JS.NaN
      ∧ ManagePage.textContent cell = "NaN 天 NaN 小时 NaN 分"
  end.
Proof.
  cbv zeta. unfold ManagePage.updateGuoqiTimes.
  destruct (ManagePage.time_left attr now) as [time|]; [|split; reflexivity].
  destruct (Z.leb_spec time 0) as [Hle|Hgt].
  - destruct (Z.ltb_spec time 0); [reflexivity|].
    now replace time with 0 by lia.
  - destruct (Z.ltb_spec time 0); [lia|].
    destruct (Z.eqb_spec time 0); [lia|]. cbn [orb].
    do 3 eexists. split; [reflexivity|].
    Z.to_euclidean_division_equations; lia.
Qed.

(** X7. A stored certificate without [time] is scanned as issued at
    the time of the scan: where the time zone offset does not change and
    [Date.parse] reads what [toISOString] writes, it has 90 days left at
    every scan, so its status is 'valid' for every threshold below 90. *)
Theorem missing_time_is_issued_now (z now : Z) (ls : LocalStorage)
    (entries : list (gmap string JS.value)) (index : nat)
    (entry : gmap string JS.value) (threshold : Z) :
  (∀ t b, LocalTZA t b = z) →
  DateParse (JSDate.toISOString now) = Some now →
  Z.abs now + 90 * JSDate.msPerDay <= 8640000000000000 →
  manageDataPairs ls = Some (Doc entries) →
  entries !! index = Some entry →
  JS.truthy (JS.get entry "time") = false →
  ∃ c, scanCertificates ls now !! index = Some c
       ∧ time c = JS.Str (JSDate.toISOString now)
       ∧ getExpiryDate c = Some (now + 90 * JSDate.msPerDay)
       ∧ getDaysUntilExpiry now c = Some 90
       ∧ getCertificateStatus now c threshold
         = if 90 <=? threshold then "needs_renewal" else "valid".
Proof.
  intros Hz Hparse Hrange Hls Hentry Htime.
  exists (normalize now index entry).
  assert (Hc : time (normalize now index entry)
               = JS.Str (JSDate.toISOString now)).
  { cbn. now apply or_else_falsy. }
  assert (He : getExpiryDate (normalize now index entry)
               = Some (now + 90 * JSDate.msPerDay)).
  { rewrite (getExpiryDate_fixed_offset z) by exact Hz.
    rewrite Hc. cbn [JSDate.construct]. rewrite Hparse.
    unfold JSDate.msPerDay in *.
    cbn [mbind option_bind].
    rewrite TimeClip_in_range by lia.
    cbn [JSDate.getTime JS.add mbind option_bind].
    rewrite TimeClip_in_range by lia. reflexivity. }
  split; [now apply scanCertificates_lookup with entries|].
  split; [exact Hc|]. split; [exact He|].
  assert (Hd : getDaysUntilExpiry now (normalize now index entry) = Some 90).
  { unfold getDaysUntilExpiry. cbv zeta. rewrite He. cbn [JS.sub JS.ceil_div].
    f_equal. unfold JSDate.msPerDay.
    replace (now + 90 * 86400000 - now) with (90 * 86400000) by lia.
    reflexivity. }
  split; [exact Hd|].
  rewrite status_cases, Hd. reflexivity.
Qed.

End Detection.

(** ** HistoryManager: queries *)

Section HistoryQueries.

Import HistoryManager.

Lemma strict_eq_refl (v : JS.value) : JS.strict_eq v v = true.
Proof.
  destruct v as [| |b|n|s]; cbn; try reflexivity.
  - now destruct b.
  - apply Z.eqb_refl.
  - apply String.eqb_refl.
Qed.

Lemma take_cons_pred {A} (x : A) (l : list A) :
  take MAX_RECORDS (x :: l) = x :: take (Nat.pred MAX_RECORDS) l.
Proof. reflexivity. Qed.

(** X8. After [recordRenewal] for a domain, [getLastRenewal] of that
    domain is the new record; the history of any domain is the new
    record, if it is of that domain, followed by the records of the
    domain among the nine most recent old ones: the tenth is evicted,
    whatever its domain. *)
Theorem last_renewal_after_record (ls : LocalStorage) (c : HistoryCall)
    (domain : JS.value) :
  let ls' := record_call ls c in
  let older :=
    filter (λ record, JS.strict_eq (hr_domain record) domain = true)
           (take 9 (getHistory ls)) in
  getLastRenewal ls' (call_domain c) = Some (record_of c)
  ∧ getDomainHistory ls' domain
    = if JS.strict_eq (call_domain c) domain then record_of c :: older
      else older.
Proof.
  cbv zeta. unfold getLastRenewal, getDomainHistory.
  rewrite getHistory_recordRenewal, take_cons_pred. cbn [Nat.pred MAX_RECORDS].
  rewrite !filter_cons. cbn [hr_domain record_of].
  rewrite strict_eq_refl. rewrite decide_True by reflexivity.
  split; [reflexivity|].
  destruct (JS.strict_eq (call_domain c) domain).
  - now rewrite decide_True.
  - now rewrite decide_False.
Qed.

Lemma fold_tally (records : list HistoryRecord) (stats : Statistics) :
  fold_left tally records stats
  = {| total := total stats;
       success := (success stats + count "success" records)%nat;
       failure := (failure stats + count "failure" records)%nat;
       inProgress := (inProgress stats + count "in_progress" records)%nat |}.
Proof.
  revert stats. induction records as [|r records IH]; intros stats.
  - destruct stats. unfold count. rewrite !filter_nil. cbn. f_equal; lia.
  - cbn [fold_left]. rewrite IH. unfold count. rewrite !filter_cons.
    unfold tally.
    destruct (String.eqb_spec (hr_status r) "success") as [Hs|Hs].
    { rewrite Hs. rewrite decide_True by reflexivity.
      rewrite !decide_False by discriminate.
      cbn [total success failure inProgress length]. f_equal; lia. }
    rewrite (decide_False (P:=hr_status r = "success")) by assumption.
    destruct (String.eqb_spec (hr_status r) "failure") as [Hf|Hf].
    { rewrite Hf. rewrite decide_True by reflexivity.
      rewrite !decide_False by discriminate.
      cbn [total success failure inProgress length]. f_equal; lia. }
    rewrite (decide_False (P:=hr_status r = "failure")) by assumption.
    destruct (String.eqb_spec (hr_status r) "in_progress") as [Hp|Hp].
    { rewrite Hp. rewrite decide_True by reflexivity.
      cbn [total success failure inProgress length]. f_equal; lia. }
    rewrite (decide_False (P:=hr_status r = "in_progress")) by assumption.
    reflexivity.
Qed.

Lemma count_partition (records : list HistoryRecord) :
  length records
  = (count "success" records + count "failure" records
     + count "in_progress" records
     + length (filter (λ record, hr_status record ∉ ["success"; "failure"; "in_progress"])
                      records))%nat.
Proof.
  unfold count. induction records as [|r records IH]; [reflexivity|].
  rewrite !filter_cons. cbn [length]. rewrite IH.
  destruct (decide (hr_status r = "success")) as [Hs|Hs].
  { rewrite Hs. rewrite decide_False by discriminate.
    rewrite decide_False by discriminate.
    rewrite decide_False by (intros Hn; apply Hn; rewrite !elem_of_cons; auto).
    cbn [length]. lia. }
  destruct (decide (hr_status r = "failure")) as [Hf|Hf].
  { rewrite Hf. rewrite decide_False by discriminate.
    rewrite decide_False by (intros Hn; apply Hn; rewrite !elem_of_cons; auto).
    cbn [length]. lia. }
  destruct (decide (hr_status r = "in_progress")) as [Hp|Hp].
  { rewrite Hp.
    rewrite decide_False by (intros Hn; apply Hn; rewrite !elem_of_cons; auto).
    cbn [length]. lia. }
  rewrite decide_True
    by (rewrite !not_elem_of_cons; repeat split;
        [assumption..|apply not_elem_of_nil]).
  cbn [length]. lia.
Qed.

(** X9. [getStatistics] counts all records in [total] and the records
    of each of the statuses 'success', 'failure' and 'in_progress' in
    its own field; a record of any other status, such as the
    'manual_required' that the scheduler writes, is counted in [total]
    only. *)
Theorem statistics_count (ls : LocalStorage) :
  let stats := getStatistics ls in
  let records := getHistory ls in
  total stats = length records
  ∧ success stats = count "success" records
  ∧ failure stats = count "failure" records
  ∧ inProgress stats = count "in_progress" records
  ∧ (total stats
     = success stats + failure stats + inProgress stats
       + length (filter (λ record, hr_status record
                                   ∉ ["success"; "failure"; "in_progress"])
                        records))%nat.
Proof.
  cbv zeta. unfold getStatistics. cbv zeta. rewrite fold_tally.
  cbn [total success failure inProgress]. repeat split; try reflexivity.
  apply count_partition.
Qed.

(** X10. [cleanupOldRecords] leaves the first ten records of the
    history; it writes nothing when the history has at most ten, hence
    nothing after a [recordRenewal]. *)
Theorem cleanup_keeps_ten (ls : LocalStorage) (c : HistoryCall) :
  getHistory (cleanupOldRecords ls) = take 10 (getHistory ls)
  ∧ ((length (getHistory ls) <= 10)%nat → cleanupOldRecords ls = ls)
  ∧ cleanupOldRecords (record_call ls c) = record_call ls c.
Proof.
  assert (Hsmall : ∀ ls0, (length (getHistory ls0) <= 10)%nat →
                          cleanupOldRecords ls0 = ls0).
  { intros ls0 Hlen. unfold cleanupOldRecords. cbv zeta.
    unfold MAX_RECORDS.
    now destruct (Nat.ltb_spec 10 (length (getHistory ls0))); [lia|]. }
  split; [|split].
  - unfold cleanupOldRecords. cbv zeta. unfold MAX_RECORDS.
    destruct (Nat.ltb_spec 10 (length (getHistory ls))); [reflexivity|].
    now rewrite take_ge.
  - apply Hsmall.
  - apply Hsmall. rewrite getHistory_recordRenewal, length_take.
    unfold MAX_RECORDS. lia.
Qed.

End HistoryQueries.

(** ** ConfigManager: saving the policy *)

Section PolicyStore.

Context `{Host}.

Import ConfigManager.

Lemma save_accepts (config : Config) (ls : LocalStorage) :
  acceptable config →
  saveAutoRenewalConfig config ls
  = (true, set_autoRenewalConfig (Doc (to_doc config)) ls).
Proof.
  intros [[b Hb] Hth]. unfold saveAutoRenewalConfig. rewrite Hb.
  destruct (threshold_number config) as [n|]; [|reflexivity].
  unfold JS.lt.
  destruct (Z.ltb_spec n 1); [lia|].
  destruct (Z.ltb_spec 60 n); [lia|]. reflexivity.
Qed.

Lemma save_rejects (config : Config) (ls : LocalStorage) :
  ¬ acceptable config → saveAutoRenewalConfig config ls = (false, ls).
Proof.
  intros Hno. unfold saveAutoRenewalConfig, acceptable in *.
  destruct (enabled config) as [| |b|n|s] eqn:Hb; try reflexivity.
  destruct (threshold_number config) as [n|].
  - unfold JS.lt.
    destruct (Z.ltb_spec n 1); [reflexivity|].
    destruct (Z.ltb_spec 60 n); [reflexivity|].
    exfalso. apply Hno. split; [now exists b|lia].
  - exfalso. apply Hno. split; [now exists b|exact I].
Qed.

(** What is read after a save: the configuration that was saved, with
    the default in the place of a threshold that is [undefined], and
    [null] in the place of one that is NaN. *)
Lemma get_saved (config : Config) (ls : LocalStorage) :
  getAutoRenewalConfig (set_autoRenewalConfig (Doc (to_doc config)) ls)
  = {| enabled := enabled config;
       threshold := match threshold config with
                    | None => Some JS.Null
                    | Some JS.Undefined => Some (JS.Num 30)
                    | given => given
                    end;
       checkInterval := checkInterval config;
       certSettings := certSettings config |}.
Proof. destruct config as [e [[]|] c s]; reflexivity. Qed.

(** The threshold of the configuration that is read is a value, and is
    defined. *)
Lemma read_threshold (ls : LocalStorage) :
  match threshold (getAutoRenewalConfig ls) with
  | None => Some JS.Null
  | Some JS.Undefined => Some (JS.Num 30)
  | given => given
  end
  = threshold (getAutoRenewalConfig ls).
Proof.
  unfold getAutoRenewalConfig.
  destruct (autoRenewalConfig ls) as [[| |config]|]; try reflexivity.
  cbn [threshold]. now destruct (doc_threshold config).
Qed.

(** A configuration that is read, with other settings, is read again
    as it was saved. *)
Lemma get_saved_settings (ls ls' : LocalStorage)
    (settings : gmap string CertSetting) :
  let config := getAutoRenewalConfig ls in
  let config' :=
    {| enabled := enabled config; threshold := threshold config;
       checkInterval := checkInterval config; certSettings := settings |} in
  getAutoRenewalConfig (set_autoRenewalConfig (Doc (to_doc config')) ls')
  = config'.
Proof.
  cbv zeta. rewrite get_saved. cbn [enabled threshold checkInterval certSettings].
  now rewrite read_threshold.
Qed.

Lemma acceptable_settings (config : Config) (settings : gmap string CertSetting) :
  acceptable config →
  acceptable {| enabled := enabled config; threshold := threshold config;
                checkInterval := checkInterval config;
                certSettings := settings |}.
Proof. intros Hok. exact Hok. Qed.

(** X11. [saveAutoRenewalConfig] succeeds exactly for a policy whose
    [enabled] is a boolean and whose threshold, read as a number, is
    neither below 1 nor above 60: a threshold between 1 and 60, and
    also one that is no number, such as [undefined], NaN or a text that
    is no numeral. When it fails the store is as it was; when it
    succeeds the other keys of the store are as they were, and
    [getAutoRenewalConfig] reads the saved policy, with the default of
    30 in the place of a threshold that is [undefined] and [null] in
    the place of one that is NaN, as JSON writes them. *)
Theorem save_config_roundtrip (config : Config) (ls : LocalStorage) :
  let saved := saveAutoRenewalConfig config ls in
  (saved.1 = true
   ↔ (∃ b, enabled config = JS.Bool b)
     ∧ match threshold config ≫= ToNumber with
       | Some n => 1 <= n <= 60
       | None => True
       end)
  ∧ (saved.1 = false → saved.2 = ls)
  ∧ (saved.1 = true →
     getAutoRenewalConfig saved.2
     = {| enabled := enabled config;
          threshold := match threshold config with
                       | None => Some JS.Null
                       | Some JS.Undefined => Some (JS.Num 30)
                       | given => given
                       end;
          checkInterval := checkInterval config;
          certSettings := certSettings config |}
     ∧ manageDataPairs saved.2 = manageDataPairs ls
     ∧ certs saved.2 = certs ls
     ∧ renewalHistory saved.2 = renewalHistory ls).
Proof.
  cbv zeta.
  change (_ ∧ match threshold config ≫= ToNumber with
              | Some n => _ | None => _ end)
    with (acceptable config).
  destruct (decide (acceptable config)) as [Hok|Hno].
  - rewrite (save_accepts _ _ Hok). cbn [fst snd].
    split; [tauto|]. split; [discriminate|]. intros _.
    split; [apply get_saved|]. repeat split.
  - rewrite (save_rejects _ _ Hno). cbn [fst snd].
    split; [split; [discriminate|tauto]|]. split; [reflexivity|discriminate].
Qed.

(** The test of [isCertAutoRenewalEnabled] on what [certSettings] shows
    for a domain. *)
Lemma eligibility_assign (settings : gmap string CertSetting) (key other : string)
    (setting : CertSetting) :
  other ≠ key → assign key setting settings !! other = settings !! other.
Proof.
  intros Hne. unfold assign.
  destruct (_ && _); [reflexivity|]. now rewrite lookup_insert_ne.
Qed.

(** X12. With a stored policy that can be saved, [setCertAutoRenewal]
    makes the domain eligible exactly when the global switch is on and
    the domain is switched on, for every domain but '__proto__'; for
    the domain '__proto__' without a stored setting the call stores no
    setting, and the domain is as eligible as before, which is as the
    global switch says, also when it is switched off. The global switch
    and the eligibility of every domain with another name are as
    before. *)
Theorem switch_for_one_domain (ls : LocalStorage) (domain other : JS.value)
    (enabled_ : bool) (now : Z) :
  acceptable (getAutoRenewalConfig ls) →
  let ls' := setCertAutoRenewal domain enabled_ ls now in
  let stored := certSettings (getAutoRenewalConfig ls) !! JS.to_string domain in
  (JS.to_string domain ≠ "__proto__" ∨ is_Some stored →
   isCertAutoRenewalEnabled ls' domain = isGloballyEnabled ls && enabled_)
  ∧ (JS.to_string domain = "__proto__" → stored = None →
     certSettings (getAutoRenewalConfig ls')
     = certSettings (getAutoRenewalConfig ls)
     ∧ isCertAutoRenewalEnabled ls' domain = isGloballyEnabled ls)
  ∧ isGloballyEnabled ls' = isGloballyEnabled ls
  ∧ (JS.to_string other ≠ JS.to_string domain →
     isCertAutoRenewalEnabled ls' other = isCertAutoRenewalEnabled ls other).
Proof.
  intros Hok. cbv zeta. unfold setCertAutoRenewal. cbv zeta.
  rewrite save_accepts by (apply acceptable_settings; exact Hok). cbn [snd].
  unfold isCertAutoRenewalEnabled, isGloballyEnabled. cbv zeta.
  rewrite !get_saved_settings. cbn [enabled certSettings].
  destruct Hok as [[b Hb] _]. rewrite Hb.
  split; [|split; [|split]].
  - intros Hown. unfold assign.
    assert (Hset : String.eqb (JS.to_string domain) "__proto__"
                   && bool_decide (certSettings (getAutoRenewalConfig ls)
                                     !! JS.to_string domain = None) = false).
    { destruct Hown as [Hne|[setting Hsome]].
      - apply String.eqb_neq in Hne. now rewrite Hne.
      - rewrite Hsome, bool_decide_eq_false_2 by discriminate.
        apply andb_false_r. }
    rewrite Hset, lookup_insert_eq. cbn. now destruct b, enabled_.
  - intros Hproto Hnone. unfold assign.
    rewrite Hproto in Hnone |- *.
    rewrite String.eqb_refl, bool_decide_eq_true_2 by exact Hnone.
    cbn [andb]. rewrite Hnone.
    split; [reflexivity|]. now destruct b.
  - reflexivity.
  - intros Hne. now rewrite eligibility_assign.
Qed.

Lemma rejected_updates (ls : LocalStorage) (domain : JS.value)
    (enabled_ : bool) (now : Z) :
  ¬ acceptable (getAutoRenewalConfig ls) →
  setCertAutoRenewal domain enabled_ ls now = ls
  ∧ updateLastCheck domain ls now = ls
  ∧ updateLastRenewal domain ls now = ls.
Proof.
  intros Hno.
  unfold setCertAutoRenewal, updateLastCheck, updateLastRenewal. cbv zeta.
  rewrite !save_rejects by exact Hno. repeat split.
Qed.

(** X13. With a stored policy that cannot be saved (an [enabled] that
    is no boolean, or a threshold that reads as a number outside 1 to
    60),
    [setCertAutoRenewal], [updateLastCheck] and [updateLastRenewal]
    write nothing. *)
Theorem unacceptable_policy_is_frozen (ls : LocalStorage) (domain : JS.value)
    (enabled_ : bool) (now : Z) :
  ¬ acceptable (getAutoRenewalConfig ls) →
  setCertAutoRenewal domain enabled_ ls now = ls
  ∧ updateLastCheck domain ls now = ls
  ∧ updateLastRenewal domain ls now = ls.
Proof. apply rejected_updates. Qed.

(** A time stamp leaves the test of [isCertAutoRenewalEnabled] as it
    was, for every domain: a setting that is there keeps its [enabled],
    one that is created is enabled, and under an inherited key nothing
    is stored. *)
Lemma eligibility_touch (settings : gmap string CertSetting) (key other : string)
    (stamp : CertSetting → CertSetting) :
  (∀ setting, cs_enabled (stamp setting) = cs_enabled setting) →
  match touch key stamp settings !! other with
  | Some certSetting =>
      if JS.strict_eq (cs_enabled certSetting) (JS.Bool false) then false
      else true
  | None => true
  end
  = match settings !! other with
    | Some certSetting =>
        if JS.strict_eq (cs_enabled certSetting) (JS.Bool false) then false
        else true
    | None => true
    end.
Proof.
  intros Hstamp. unfold touch.
  destruct (decide (key = other)) as [<-|Hne].
  - destruct (settings !! key) as [setting|] eqn:Hkey.
    + now rewrite lookup_insert_eq, Hstamp.
    + destruct (bool_decide _); [now rewrite Hkey|].
      now rewrite lookup_insert_eq, Hstamp.
  - destruct (settings !! key) as [setting|].
    + now rewrite lookup_insert_ne.
    + destruct (bool_decide _); [reflexivity|].
      now rewrite lookup_insert_ne.
Qed.

(** X14. [updateLastCheck] and [updateLastRenewal] change the
    eligibility of no domain, nor the global switch or the threshold;
    the entry that they create for a domain without one leaves the
    domain eligible. *)
Theorem time_stamps_keep_the_policy (ls : LocalStorage) (domain other : JS.value)
    (now : Z) :
  let checked := updateLastCheck domain ls now in
  let renewed := updateLastRenewal domain ls now in
  isCertAutoRenewalEnabled checked other = isCertAutoRenewalEnabled ls other
  ∧ isCertAutoRenewalEnabled renewed other = isCertAutoRenewalEnabled ls other
  ∧ isGloballyEnabled checked = isGloballyEnabled ls
  ∧ isGloballyEnabled renewed = isGloballyEnabled ls
  ∧ threshold (getAutoRenewalConfig checked) = threshold (getAutoRenewalConfig ls)
  ∧ threshold (getAutoRenewalConfig renewed) = threshold (getAutoRenewalConfig ls).
Proof.
  cbv zeta.
  destruct (decide (acceptable (getAutoRenewalConfig ls))) as [Hok|Hno].
  - unfold updateLastCheck, updateLastRenewal. cbv zeta.
    rewrite !save_accepts by (apply acceptable_settings; exact Hok). cbn [snd].
    unfold isCertAutoRenewalEnabled, isGloballyEnabled. cbv zeta.
    rewrite !get_saved_settings. cbn [enabled certSettings threshold].
    repeat split.
    + destruct (negb _); [reflexivity|].
      now apply eligibility_touch.
    + destruct (negb _); [reflexivity|].
      now apply eligibility_touch.
  - destruct (rejected_updates ls domain true now Hno)
      as (_ & -> & ->).
    repeat split.
Qed.

End PolicyStore.

(** ** ACMEClient: the outcomes of a renewal *)

Section Outcomes.

Import CertificateScanner ACMEClient.

Ltac returns_case :=
  lazymatch goal with
  | |- returns (ret _) _ => apply returns_ret
  | |- returns (throw _) _ => apply returns_throw
  | |- returns (bind _ _) _ => apply returns_bind; intros ?
  | |- returns (try_catch _ _) _ => apply returns_try_catch; [|intros ?]
  | |- returns (if ?b then _ else _) _ => destruct b eqn:?
  | |- returns (match ?x with _ => _ end) _ => destruct x eqn:?
  end.

Lemma attempt_settled (c : Certificate) :
  returns (try_catch (attempt c) (on_attempt_error c)) (settled c).
Proof.
  unfold attempt, conclude, on_attempt_error, storeCertificate.
  repeat returns_case; (split; [reflexivity|]).
  - right. repeat split.
  - left. repeat split. do 3 eexists. split; [reflexivity|].
    match goal with H : negb (JS.truthy _) = false |- _ =>
      now apply negb_false_iff in H end.
  - right. repeat split.
Qed.

Lemma renewCertificate_outcome (c : Certificate) (w : World) :
  ∃ r, (renewCertificate c w).1 = Ok r
       ∧ (settled c r ∨ (r = alreadyInProgress ∧ isRenewing w = true)).
Proof.
  unfold renewCertificate, finally, try_catch at 1, on_error, guarded.
  unfold bind at 1, gets at 1. cbv beta iota zeta.
  destruct (negb (canAutoRenew _));
    [cbn; eexists; split; [reflexivity|left; split; [reflexivity|right; repeat split]]|].
  destruct (negb (bool_decide _));
    [cbn; eexists; split; [reflexivity|left; split; [reflexivity|right; repeat split]]|].
  unfold bind at 1, gets at 1. cbv beta iota zeta.
  destruct (isRenewing w) eqn:Hflag.
  { cbn. eexists. split; [reflexivity|]. now right. }
  unfold bind at 1, modify at 1. cbv beta iota zeta.
  pose proof (attempt_settled c (with_isRenewing true w)) as Hret.
  destruct (try_catch (attempt c) (on_attempt_error c) (with_isRenewing true w))
    as [[r|e] w']; cbn in *.
  - eexists. split; [reflexivity|]. now left.
  - eexists. split; [reflexivity|]. left. split; [reflexivity|right; repeat split].
Qed.

(** X15. [renewCertificate] never throws, and its outcome is one of
    three: a success that carries a non-empty new certificate for the
    domains of the certificate, a request for a manual renewal
    ([requiresManual]), or, only if a renewal was running when it was
    called, the answer that a renewal is in progress. *)
Theorem renewal_outcomes (c : Certificate) (w : World) :
  ∃ r, (renewCertificate c w).1 = Ok r
       ∧ (settled c r ∨ (r = alreadyInProgress ∧ isRenewing w = true)).
Proof. apply renewCertificate_outcome. Qed.

Lemma renewCertificate_unprepared (c : Certificate) (w : World) :
  canAutoRenew (checkRenewalCapability (localStorage w)) = false
  ∨ validateCertificate c ≠ [] →
  renewCertificate c w
  = (Ok (failed (prerequisite_error c (localStorage w))), with_isRenewing false w).
Proof.
  intros Hpre.
  unfold renewCertificate, finally, try_catch, on_error, guarded, prerequisite_error.
  unfold bind at 1, gets at 1. cbv beta iota zeta.
  destruct (canAutoRenew _) eqn:Hcap; cbn [negb]; [|reflexivity].
  destruct Hpre as [|Hinvalid]; [discriminate|].
  now rewrite bool_decide_eq_false_2 by exact Hinvalid.
Qed.

(** X16. When the account key or the e-mail is missing, or the
    certificate is incomplete, [renewCertificate] answers with the
    message of the check that failed, makes no engine call and writes
    nothing; it leaves the [isRenewing] flag cleared. *)
Theorem failed_prerequisites_change_nothing (c : Certificate) (w : World) :
  canAutoRenew (checkRenewalCapability (localStorage w)) = false
  ∨ validateCertificate c ≠ [] →
  renewCertificate c w
  = (Ok (failed (prerequisite_error c (localStorage w))), with_isRenewing false w).
Proof. apply renewCertificate_unprepared. Qed.

Lemma truthy_or_else_empty (x : JS.value) :
  JS.truthy (JS.or_else x (JS.Str "")) = JS.truthy x.
Proof. unfold JS.or_else. now destruct (JS.truthy x) eqn:Hx. Qed.

(** X17. For a certificate as the scanner returns it,
    [validateCertificate] reports exactly the stored fields among
    [domains], [cert] and [key] that are missing or falsy, in that
    order, and never a missing time stamp. *)
Theorem scanned_certificate_validation (now : Z) (index : nat)
    (entry : gmap string JS.value) :
  validateCertificate (normalize now index entry)
  = (if JS.truthy (JS.get entry "domains") then [] else ["Missing domains"])
    ++ (if JS.truthy (JS.get entry "cert") then []
        else ["Missing certificate data"])
    ++ (if JS.truthy (JS.get entry "key") then [] else ["Missing private key"]).
Proof.
  unfold validateCertificate, normalize. cbn [domains cert key time].
  rewrite !truthy_or_else_empty.
  assert (Ht : JS.truthy (JS.or_else (JS.get entry "time")
                            (JS.Str (JSDate.toISOString now))) = true).
  { unfold JS.or_else. destruct (JS.truthy (JS.get entry "time")) eqn:Hx;
      [exact Hx|apply toISOString_truthy]. }
  rewrite Ht. now rewrite app_nil_r.
Qed.

(** X18. When the key 'q-certs' is absent or empty, a renewal whose
    authorizations are all valid and whose order is finalized with a
    certificate ends in the error 'Certificate storage not found': the
    finalize step was called, and nothing is written. *)
Theorem renewal_without_client_list (c : Certificate) (w : World)
    (acme : ACMEEngine) (x509 : X509Engine) (privateKey : JS.value) :
  OrderCreated c w acme x509 privateKey →
  Forall (λ a, a.2 = "valid") (auths acme) →
  StepFinalizeOrder acme = Resolved →
  JS.truthy (downloadPEM acme) = true →
  certs (localStorage w) = None ∨ certs (localStorage w) = Some Blank →
  let w' := (renewCertificate c w).2 in
  (renewCertificate c w).1 = Ok (failed "Certificate storage not found")
  ∧ calls w' = calls w ++ calls_to_order ++ [CallStepFinalizeOrder]
  ∧ localStorage w' = localStorage w.
Proof.
  intros Hready Hvalid%non_valid_all_valid Hfinal Hpem Hcerts. cbv zeta.
  destruct (renewCertificate_ordered c w acme x509 privateKey Hready)
    as (config & <- & ->).
  set (ordered := fold_left awaited calls_to_order (with_isRenewing true w)).
  assert (Hcalls : calls ordered = calls w ++ calls_to_order)
    by (unfold ordered; now rewrite awaited_calls).
  assert (Hls : localStorage ordered = localStorage w)
    by (unfold ordered; now rewrite awaited_localStorage).
  clearbody ordered.
  assert (Hconclude :
    conclude c acme config ordered
    = (Throw "Certificate storage not found",
       awaited ordered CallStepFinalizeOrder)).
  { unfold conclude. rewrite checkAuthorizationStatus_spec.
    cbn [allValid pendingDomains]. rewrite bool_decide_eq_true_2 by exact Hvalid.
    cbn [negb]. unfold step, await, modify. unfold bind at 1 2.
    cbv beta iota zeta. rewrite Hfinal. unfold ret at 1. cbn [negb].
    rewrite Hpem. cbn [negb]. unfold bind at 1.
    unfold storeCertificate. unfold bind at 1, gets at 1. cbv beta iota zeta.
    cbn [localStorage awaited with_now with_calls]. rewrite Hls.
    now destruct Hcerts as [->| ->]. }
  unfold finally, try_catch. rewrite Hconclude.
  unfold on_attempt_error.
  replace (JS.includes "Certificate storage not found" "authorization"
           || JS.includes "Certificate storage not found" "pending"
           || JS.includes "Certificate storage not found" "invalid")
    with false by (vm_compute; reflexivity).
  cbn. rewrite Hcalls, Hls. now rewrite <- app_assoc.
Qed.

End Outcomes.

(** ** ACMEClient: the order of the engine calls *)

Section EngineCalls.

Import CertificateScanner ACMEClient.

Lemma logs_ret {A} (a : A) (Q : result A → list AcmeCall → Prop) :
  Q (Ok a) [] → logs (ret a) Q.
Proof. intros HQ w. exists []. now rewrite app_nil_r. Qed.

Lemma logs_throw {A} (e : string) (Q : result A → list AcmeCall → Prop) :
  Q (Throw e) [] → logs (throw e) Q.
Proof. intros HQ w. exists []. now rewrite app_nil_r. Qed.

Lemma logs_gets {A B} (g : World → B) (k : B → M A)
    (Q : result A → list AcmeCall → Prop) :
  (∀ b, logs (k b) Q) → logs (bind (gets g) k) Q.
Proof. intros Hk w. exact (Hk (g w) w). Qed.

Lemma logs_bind {A B} (m : M A) (k : A → M B)
    (Q1 : result A → list AcmeCall → Prop)
    (Q : result B → list AcmeCall → Prop) :
  logs m Q1 →
  (∀ e l, Q1 (Throw e) l → Q (Throw e) l) →
  (∀ a l1, Q1 (Ok a) l1 → logs (k a) (λ r l2, Q r (l1 ++ l2))) →
  logs (bind m k) Q.
Proof.
  intros Hm Hthrow Hk w. unfold bind.
  destruct (Hm w) as (l1 & Hcalls & HQ1).
  destruct (m w) as [[a|e] w1]; cbn in *.
  - destruct (Hk a l1 HQ1 w1) as (l2 & Hcalls2 & HQ).
    exists (l1 ++ l2). split; [|exact HQ].
    now rewrite Hcalls2, Hcalls, app_assoc.
  - exists l1. split; [exact Hcalls|now apply Hthrow].
Qed.

Lemma logs_weaken {A} (m : M A) (Q Q' : result A → list AcmeCall → Prop) :
  logs m Q → (∀ r l, Q r l → Q' r l) → logs m Q'.
Proof.
  intros Hm HQ w. destruct (Hm w) as (l & Hcalls & Hl).
  exists l. split; [exact Hcalls|now apply HQ].
Qed.

Lemma logs_step (call : AcmeCall) (outcome : settle) (prefix : string) :
  logs (step call outcome prefix)
       (λ r l, l = [call] ∧ (match r with Ok b => b = true | Throw _ => True end)).
Proof.
  intros w. exists [call]. unfold step, await, modify, bind.
  destruct outcome; cbn; auto.
Qed.

Lemma logs_KeyParse (x509 : X509Engine) (pem : JS.value) :
  logs (KeyParse_await x509 pem) (λ _ l, l = [CallKeyParse]).
Proof.
  intros w. exists [CallKeyParse]. unfold KeyParse_await, await, modify, bind.
  destruct (KeyParse x509 pem); cbn; auto.
Qed.

Lemma logs_loadConfiguration (c : Certificate) (x509 : X509Engine) :
  logs (loadConfiguration c x509)
       (λ r l, match r with
               | Ok _ => l = [CallKeyParse; CallKeyParse]
               | Throw _ => l `prefix_of` [CallKeyParse; CallKeyParse]
               end).
Proof.
  unfold loadConfiguration. apply logs_gets. intros ls.
  destruct (negb (present (acmeAccountKey ls)));
    [apply logs_throw, prefix_nil|].
  destruct (negb (present (email ls))); [apply logs_throw, prefix_nil|].
  cbv zeta.
  eapply logs_bind; [apply logs_KeyParse| |].
  { intros e l ->. now exists [CallKeyParse]. }
  intros accountKey l1 ->.
  eapply logs_bind.
  { instantiate (1 := λ r l, match r with
                             | Ok _ => l = [CallKeyParse]
                             | Throw _ => l = [] ∨ l = [CallKeyParse]
                             end).
    destruct (JS.truthy (key c)).
    - eapply logs_weaken; [apply logs_KeyParse|].
      intros [k|e] l ->; auto.
    - apply logs_throw. now left. }
  { intros e l [->| ->]; [now exists [CallKeyParse]|reflexivity]. }
  intros privateKey l2 ->.
  eapply logs_bind.
  { instantiate (1 := λ _ l, l = []).
    destruct (domains c); first [now apply logs_ret | now apply logs_throw]. }
  { intros e l ->. reflexivity. }
  intros domains l3 ->. now apply logs_ret.
Qed.

Lemma logs_storeCertificate (c : Certificate) (pem k : JS.value) :
  logs (storeCertificate c pem k) (λ _ l, l = []).
Proof.
  intros w. exists []. rewrite app_nil_r. split; [|reflexivity].
  apply storeCertificate_calls.
Qed.

Lemma non_valid_nil (statuses : list (string * string)) :
  non_valid statuses = [] → Forall (λ a, a.2 = "valid") statuses.
Proof.
  unfold non_valid. induction statuses as [|a statuses IH]; [constructor|].
  rewrite filter_cons.
  destruct (decide (a.2 ≠ "valid")) as [Hne|Heq]; [discriminate|].
  intros Hrest. constructor; [|now apply IH].
  now destruct (decide (a.2 = "valid")).
Qed.

Lemma logs_conclude (c : Certificate) (acme : ACMEEngine)
    (config : Configuration) :
  logs (conclude c acme config)
       (λ r l, in_order acme r (calls_to_order ++ l)).
Proof.
  unfold conclude. rewrite checkAuthorizationStatus_spec.
  cbn [allValid pendingDomains].
  destruct (bool_decide_reflect (non_valid (auths acme) = [])) as [Hvalid|Hpending];
    cbn [negb].
  - apply non_valid_nil in Hvalid.
    assert (Hfull : ∀ r, in_order acme r (calls_to_order ++ [CallStepFinalizeOrder])).
    { intros r. split; [reflexivity|]. split; [intros _; exact Hvalid|]. reflexivity. }
    eapply logs_bind; [apply logs_step| |].
    { intros e l [-> _]. apply Hfull. }
    intros b l1 [-> _].
    destruct (negb b); [apply logs_throw; rewrite app_nil_r; apply Hfull|].
    destruct (negb (JS.truthy (downloadPEM acme)));
      [apply logs_throw; rewrite app_nil_r; apply Hfull|].
    eapply logs_bind; [apply logs_storeCertificate| |].
    { intros e l ->. rewrite app_nil_r. apply Hfull. }
    intros [] l2 ->. apply logs_gets. intros t. apply logs_ret.
    rewrite !app_nil_r. apply Hfull.
  - apply logs_ret. rewrite app_nil_r. split; [|split].
    + now exists [CallStepFinalizeOrder].
    + intros Hin. unfold calls_to_order in Hin.
      repeat (apply elem_of_cons in Hin as [Hin|Hin]; [discriminate|]).
      now apply elem_of_nil in Hin.
    + intros res [= <-]. discriminate.
Qed.

Lemma in_order_prefix (acme : ACMEEngine) (e : string) (l : list AcmeCall) :
  l `prefix_of` calls_to_order → in_order acme (Throw e) l.
Proof.
  intros Hl. split; [|split].
  - etransitivity; [exact Hl|]. now exists [CallStepFinalizeOrder].
  - intros Hin. apply (elem_of_prefix _ _ _ Hin) in Hl.
    unfold calls_to_order in Hl.
    repeat (apply elem_of_cons in Hl as [Hl|Hl]; [discriminate|]).
    now apply elem_of_nil in Hl.
  - discriminate.
Qed.

Lemma logs_attempt_with (c : Certificate) (acme : ACMEEngine) (x509 : X509Engine) :
  logs (let* config := loadConfiguration c x509 in
        let* directoryLoaded :=
          step CallDirectory (Directory acme) "Failed to load ACME directory: " in
        if negb directoryLoaded then throw "Failed to load ACME directory" else
        let* accountCreated :=
          step CallStepAccount (StepAccount acme) "ACME account error: " in
        if negb accountCreated then throw "Failed to create/verify ACME account" else
        let* orderCreated :=
          step CallStepOrder (StepOrder acme) "Order creation failed: " in
        if negb orderCreated then throw "Failed to create order" else
        conclude c acme config)
       (in_order acme).
Proof.
  eapply logs_bind; [apply logs_loadConfiguration| |].
  { intros e l Hl. apply in_order_prefix. etransitivity; [exact Hl|].
    now exists [CallDirectory; CallStepAccount; CallStepOrder]. }
  intros config l1 ->.
  eapply logs_bind; [apply logs_step| |].
  { intros e l [-> _]. apply in_order_prefix.
    now exists [CallStepAccount; CallStepOrder]. }
  intros b1 l2 [-> _].
  destruct (negb b1).
  { apply logs_throw. apply in_order_prefix.
    now exists [CallStepAccount; CallStepOrder]. }
  eapply logs_bind; [apply logs_step| |].
  { intros e l [-> _]. apply in_order_prefix. now exists [CallStepOrder]. }
  intros b2 l3 [-> _].
  destruct (negb b2).
  { apply logs_throw. apply in_order_prefix. now exists [CallStepOrder]. }
  eapply logs_bind; [apply logs_step| |].
  { intros e l [-> _]. apply in_order_prefix. now exists []. }
  intros b3 l4 [-> _].
  destruct (negb b3).
  { apply logs_throw. apply in_order_prefix. now exists []. }
  eapply logs_weaken; [apply logs_conclude|].
  intros r l Hl. exact Hl.
Qed.

Lemma ordered_none (w : World) (r : result RenewalResult) :
  (∀ res, r = Ok res → success res = false) → ordered_calls w r [].
Proof.
  intros Hr. split; [apply prefix_nil|].
  split; [intros Hin; now apply elem_of_nil in Hin|].
  intros res Hres Hs. rewrite (Hr res Hres) in Hs. discriminate.
Qed.

Lemma on_attempt_error_eq (c : Certificate) (e : string) (w : World) :
  ∃ r, on_attempt_error c e w = (r, w) ∧ ∀ res, r = Ok res → success res = false.
Proof.
  unfold on_attempt_error. destruct (_ || _); eexists; (split; [reflexivity|]).
  - now intros res [= <-].
  - intros res [=].
Qed.

Lemma attempt_calls (c : Certificate) (w : World) :
  ∃ l, calls (try_catch (attempt c) (on_attempt_error c) w).2 = calls w ++ l
       ∧ ordered_calls w (try_catch (attempt c) (on_attempt_error c) w).1 l.
Proof.
  assert (Hnone : ∀ e,
    ∃ l, calls (on_attempt_error c e w).2 = calls w ++ l
         ∧ ordered_calls w (on_attempt_error c e w).1 l).
  { intros e. destruct (on_attempt_error_eq c e w) as (r & -> & Hr).
    exists []. rewrite app_nil_r. split; [reflexivity|].
    apply ordered_none. exact Hr. }
  set (p := try_catch (attempt c) (on_attempt_error c) w).
  assert (Hp : p = try_catch (attempt c) (on_attempt_error c) w) by reflexivity.
  clearbody p.
  unfold try_catch, attempt in Hp. unfold bind at 1, gets at 1 in Hp.
  cbv beta iota zeta in Hp.
  destruct (ACME (window w)) as [acme|] eqn:Hacme;
    [|rewrite Hp; apply Hnone].
  destruct (X509 (window w)) as [x509|]; [|rewrite Hp; apply Hnone].
  destruct (logs_attempt_with c acme x509 w)
    as (l & Hcalls & Hprefix & Hvalid & Hsuccess).
  exists l.
  destruct (bind (loadConfiguration c x509) _ w) as [[r|e] w1];
    cbn [fst snd] in *; subst p.
  - split; [exact Hcalls|]. split; [exact Hprefix|].
    split; [eauto|]. exact Hsuccess.
  - destruct (on_attempt_error_eq c e w1) as (r & -> & Hr). cbn [fst snd].
    split; [exact Hcalls|]. split; [exact Hprefix|]. split; [eauto|].
    intros res Hres Hs. rewrite (Hr res Hres) in Hs. discriminate.
Qed.

Lemma guarded_calls (c : Certificate) (w : World) :
  ∃ l, calls (guarded c w).2 = calls w ++ l
       ∧ ordered_calls w (guarded c w).1 l.
Proof.
  assert (Hnone : ∀ r : result RenewalResult,
    (∀ res, r = Ok res → success res = false) →
    ∃ l, calls (r, w).2 = calls w ++ l ∧ ordered_calls w (r, w).1 l).
  { intros r Hr. exists []. rewrite app_nil_r. split; [reflexivity|].
    apply ordered_none. exact Hr. }
  set (p := guarded c w).
  assert (Hp : p = guarded c w) by reflexivity.
  clearbody p.
  unfold guarded in Hp. unfold bind at 1, gets at 1 in Hp.
  cbv beta iota zeta in Hp.
  destruct (negb (canAutoRenew _)); [rewrite Hp; apply Hnone; intros res [=]|].
  destruct (negb (bool_decide _)); [rewrite Hp; apply Hnone; intros res [=]|].
  unfold bind at 1, gets at 1 in Hp. cbv beta iota zeta in Hp.
  destruct (isRenewing w);
    [rewrite Hp; apply Hnone; now intros res [= <-]|].
  unfold bind at 1, modify at 1 in Hp. cbv beta iota zeta in Hp.
  rewrite Hp.
  exact (attempt_calls c (with_isRenewing true w)).
Qed.

Lemma renewCertificate_calls (c : Certificate) (w : World) :
  ∃ l, calls (renewCertificate c w).2 = calls w ++ l
       ∧ ordered_calls w (renewCertificate c w).1 l.
Proof.
  destruct (guarded_calls c w) as (l & Hcalls & Hprefix & Hvalid & Hsuccess).
  exists l. unfold renewCertificate, finally, try_catch, on_error, ret.
  destruct (guarded c w) as [[r|e] w1]; cbn [fst snd] in *.
  - split; [exact Hcalls|]. split; [exact Hprefix|]. split; assumption.
  - split; [exact Hcalls|]. split; [exact Hprefix|]. split; [exact Hvalid|].
    intros res [= <-]. discriminate.
Qed.

(** X19. The engine calls of a renewal are a prefix of: parse the
    account key, parse the certificate key, directory, account, order,
    finalize. The order is finalized only if every authorization of the
    engine is valid, and a renewal that succeeds has made all the
    calls. *)
Theorem engine_calls_in_order (c : Certificate) (w : World) :
  ∃ l, calls (renewCertificate c w).2 = calls w ++ l
       ∧ l `prefix_of` calls_of_renewal
       ∧ (CallStepFinalizeOrder ∈ l →
          ∃ acme, ACME (window w) = Some acme
                  ∧ Forall (λ a, a.2 = "valid") (auths acme))
       ∧ (∀ res, (renewCertificate c w).1 = Ok res → success res = true →
                 l = calls_of_renewal).
Proof. apply renewCertificate_calls. Qed.

End EngineCalls.

(** ** ACMEClient: what a renewal writes *)

Section ClientWrites.

Import CertificateScanner ACMEClient.

Lemma maintains_finally {A} (I : World → Prop) (m : M A) (g : World → World) :
  maintains I m → (∀ w, I w → I (g w)) → maintains I (finally m g).
Proof.
  intros Hm Hg w Hw. unfold finally. specialize (Hm w Hw).
  destruct (m w) as [r w']. cbn in *. now apply Hg.
Qed.

Lemma client_list_kept_refl (ls : LocalStorage) : client_list_kept ls ls.
Proof.
  unfold client_list_kept. destruct (certs ls) as [[| |l]|]; eauto.
Qed.

Lemma storeCertificate_kept (ls0 : LocalStorage) (c : Certificate)
    (pem k : JS.value) :
  maintains (λ w, client_list_kept ls0 (localStorage w))
            (storeCertificate c pem k).
Proof.
  intros w Hw. unfold storeCertificate. unfold bind at 1, gets at 1.
  cbv beta iota zeta.
  destruct (certs (localStorage w)) as [[|e|l]|] eqn:Hcerts; try exact Hw.
  destruct (list_find _ l) as [[i e]|]; [|exact Hw].
  cbn. unfold client_list_kept in *.
  destruct (certs ls0) as [[|e0|l0]|]; rewrite Hcerts in Hw;
    try discriminate.
  destruct Hw as (l' & [= <-] & Hlen).
  eexists. split; [reflexivity|].
  now rewrite length_fmap, length_insert.
Qed.

Ltac kept_step :=
  lazymatch goal with
  | |- maintains _ (ret _) => apply maintains_ret
  | |- maintains _ (throw _) => apply maintains_throw
  | |- maintains _ (gets _) => apply maintains_gets
  | |- maintains _ Date_now => apply maintains_gets
  | |- maintains _ (storeCertificate _ _ _) => apply storeCertificate_kept
  | |- maintains _ (modify _) => apply maintains_modify; intros ? ?; assumption
  | |- maintains _ (bind _ _) => apply maintains_bind; [|intros ?]
  | |- maintains _ (try_catch _ _) => apply maintains_try_catch; [|intros ?]
  | |- maintains _ (finally _ _) =>
      apply maintains_finally; [|intros ? ?; assumption]
  | |- maintains _ (if ?b then _ else _) => destruct b
  | |- maintains _ (match ?x with _ => _ end) => destruct x
  end.

Lemma renewCertificate_kept (ls0 : LocalStorage) (c : Certificate) :
  maintains (λ w, client_list_kept ls0 (localStorage w)) (renewCertificate c).
Proof.
  unfold renewCertificate, guarded, on_error, attempt, on_attempt_error,
    conclude, loadConfiguration, KeyParse_await, step, await.
  repeat kept_step.
Qed.

(** X20. [renewCertificate] writes to the store under 'q-certs' only,
    and never creates that key nor changes the length of its list; it
    sends no notification. *)
Theorem renewal_writes_the_client_list_only (c : Certificate) (w : World) :
  let ls := localStorage w in
  let ls' := localStorage (renewCertificate c w).2 in
  acmeAccountKey ls' = acmeAccountKey ls
  ∧ email ls' = email ls
  ∧ acmeURL ls' = acmeURL ls
  ∧ manageDataPairs ls' = manageDataPairs ls
  ∧ renewalHistory ls' = renewalHistory ls
  ∧ autoRenewalConfig ls' = autoRenewalConfig ls
  ∧ client_list_kept ls ls'
  ∧ notifications (renewCertificate c w).2 = notifications w
  ∧ notifiedDomains (renewCertificate c w).2 = notifiedDomains w.
Proof.
  cbv zeta.
  repeat match goal with
         | |- ?f (localStorage (renewCertificate c w).2) = _ ∧ _ =>
             split;
             [apply (renewCertificate_unchanged (λ w, f (localStorage w)));
              reflexivity|]
         end.
  split; [apply renewCertificate_kept, client_list_kept_refl|].
  split.
  - apply (renewCertificate_unchanged notifications); reflexivity.
  - apply (renewCertificate_unchanged notifiedDomains); reflexivity.
Qed.

End ClientWrites.

(** ** ACMEClient: the renewal queue *)

Section Queue.

Import ACMEClient.



End Queue.

(** ** RenewalScheduler: how a job ends *)

Section JobEnds.

Context `{Host}.

Import CertificateScanner RenewalScheduler.

Lemma renewCertificate_clears (c : Certificate) (w : World) :
  isRenewing (ACMEClient.renewCertificate c w).2 = false.
Proof.
  unfold ACMEClient.renewCertificate, finally. now destruct (try_catch _ _ w).
Qed.

Lemma on_success_eq (job : Job) (r : ACMEClient.RenewalResult) (w : World) :
  on_success job r w
  = (Ok (finished "completed" (now w) (error job) (ACMEClient.renewed r)
           (renewalUrl job) job),
     with_notifiedDomains
       (filter (λ d, JS.strict_eq d (domain job) = false) (notifiedDomains w))
       (with_localStorage
          (branch_store job
             (<["renewalStatus" := JS.Str "success"]> (
              <["lastRenewalSuccess" := JS.Num (now w)]> ∅))
             "success" None w)
          (with_draws (S (draws w)) w))).
Proof. reflexivity. Qed.

Lemma on_manual_eq (job : Job) (r : ACMEClient.RenewalResult) (w : World) :
  on_manual job r w
  = (Ok (finished "manual_required" (now w) (ACMEClient.message r) (newCert job)
           (ACMEClient.renewalUrl r) job),
     with_notifications
       (notifications w
        ++ [NotifyRenewalFailure (domain job)
              ("Manual renewal required: " +:+ shown (ACMEClient.message r)
               +:+ newline +:+ "Please visit: "
               +:+ shown (ACMEClient.renewalUrl r))])
       (with_localStorage
          (branch_store job
             (<["renewalStatus" := JS.Str "manual_required"]> (
              <["renewalUrl" :=
                  from_option JS.Str JS.Undefined (ACMEClient.renewalUrl r)]> ∅))
             "manual_required" (ACMEClient.message r) w)
          (with_draws (S (draws w)) w))).
Proof. reflexivity. Qed.

Lemma on_failure_store (job : Job) (r : ACMEClient.RenewalResult) (w : World) :
  let errorMsg := or_string (ACMEClient.error r) "Unknown error occurred" in
  on_failure job r w
  = (Ok (finished "failure" (now w) (Some errorMsg) (newCert job)
           (renewalUrl job) job),
     with_notifications
       (notifications w ++ [NotifyRenewalFailure (domain job) errorMsg])
       (with_localStorage
          (branch_store job (<["renewalStatus" := JS.Str "failure"]> ∅)
             "failure" (Some errorMsg) w)
          (with_draws (S (draws w)) w))).
Proof. reflexivity. Qed.

(** A job is its start, the renewal, the branch on the result and the
    time stamp of the check: none of them throws. *)
Lemma executeRenewalJob_eq (job : Job) (w : World) :
  let w1 := with_localStorage (marked job w) (with_draws (S (draws w)) w) in
  ∃ r w2 job' w3,
    ACMEClient.renewCertificate (certificate (originalCert job)) w1 = (Ok r, w2)
    ∧ branch (started (now w) job) r w2 = (Ok job', w3)
    ∧ executeRenewalJob job w
      = (Ok job',
         with_localStorage
           (ConfigManager.updateLastCheck (domain job') (localStorage w3) (now w3))
           w3).
Proof.
  cbv zeta.
  destruct (renewCertificate_returns (certificate (originalCert job))
              (with_localStorage (marked job w) (with_draws (S (draws w)) w)))
    as [r Hr].
  destruct (ACMEClient.renewCertificate _ _) as [r' w2] eqn:Hrenew.
  cbn in Hr. subst r'.
  assert (Hbranch : ∃ job' w3, branch (started (now w) job) r w2 = (Ok job', w3)).
  { unfold branch. destruct (ACMEClient.success r);
      [rewrite on_success_eq; eauto|].
    destruct (ACMEClient.requiresManual r);
      [rewrite on_manual_eq; eauto|rewrite on_failure_store; eauto]. }
  destruct Hbranch as (job' & w3 & Hbranch).
  exists r, w2, job', w3. split; [reflexivity|]. split; [exact Hbranch|].
  unfold executeRenewalJob, run.
  rewrite (try_catch_bind_ok _ _ _ _ _ _ (mark_in_progress_eq job w)).
  cbn [originalCert started].
  rewrite (try_catch_bind_ok _ _ _ _ _ _ Hrenew).
  fold (branch (started (now w) job) r).
  rewrite (try_catch_bind_ok _ _ _ _ _ _ Hbranch).
  reflexivity.
Qed.

Lemma renewCertificate_notifications (c : Certificate) (w : World) :
  notifications (ACMEClient.renewCertificate c w).2 = notifications w.
Proof. apply (renewCertificate_unchanged notifications); reflexivity. Qed.

Lemma head_branch_store (job : Job) (updates : gmap string JS.value)
    (status_ : string) (error_ : option string) (w : World) :
  head (HistoryManager.getHistory (branch_store job updates status_ error_ w))
  = Some {| hr_id := HistoryManager.generateId (now w) (random w (draws w));
            hr_domain := domain job; hr_timestamp := now w;
            hr_status := status_; hr_error := error_;
            hr_oldExpiry := oldExpiry_of job; hr_newExpiry := None |}.
Proof. apply head_getHistory_recordRenewal. Qed.

(** X22. [executeRenewalJob] never throws and leaves the job
    'completed', 'manual_required' or 'failure', with its start and
    completion times set; the [isRenewing] flag is cleared; the newest
    record of the history is of the job's domain and has the status of
    the job ('success' for 'completed'); and a failure is notified, once,
    exactly when the job is not 'completed'. *)
Theorem job_ends_settled (job : Job) (w : World) :
  let done := executeRenewalJob job w in
  ∃ job' record,
    done.1 = Ok job'
    ∧ status job' ∈ ["completed"; "manual_required"; "failure"]
    ∧ domain job' = domain job
    ∧ originalCert job' = originalCert job
    ∧ startedAt job' = Some (now w)
    ∧ is_Some (completedAt job')
    ∧ isRenewing done.2 = false
    ∧ head (HistoryManager.getHistory (localStorage done.2)) = Some record
    ∧ hr_domain record = domain job
    ∧ hr_status record = recorded_status (status job')
    ∧ notifications done.2
      = notifications w
        ++ if String.eqb (status job') "completed" then []
           else [NotifyRenewalFailure (domain job) (failure_notice job')].
Proof.
  cbv zeta.
  destruct (executeRenewalJob_eq job w) as (r & w2 & job' & w3 & Hrenew & Hbranch & ->).
  cbn [fst snd localStorage with_localStorage isRenewing notifications].
  rewrite getHistory_updateLastCheck.
  pose proof (renewCertificate_clears (certificate (originalCert job))
                (with_localStorage (marked job w) (with_draws (S (draws w)) w)))
    as Hflag.
  pose proof (renewCertificate_notifications (certificate (originalCert job))
                (with_localStorage (marked job w) (with_draws (S (draws w)) w)))
    as Hsent.
  rewrite Hrenew in Hflag, Hsent. cbn [snd] in Hflag, Hsent.
  cbn [notifications with_localStorage with_draws] in Hsent.
  unfold branch in Hbranch.
  destruct (ACMEClient.success r).
  - rewrite on_success_eq in Hbranch. injection Hbranch as <- <-.
    cbn [localStorage isRenewing notifications with_notifiedDomains
         with_notifications with_localStorage with_draws].
    rewrite head_branch_store. do 2 eexists.
    split; [reflexivity|]. split; [rewrite !elem_of_cons; auto|].
    repeat (split; [first [reflexivity | assumption | by eauto]|]).
    cbn. now rewrite app_nil_r.
  - destruct (ACMEClient.requiresManual r).
    + rewrite on_manual_eq in Hbranch. injection Hbranch as <- <-.
      cbn [localStorage isRenewing notifications with_notifiedDomains
           with_notifications with_localStorage with_draws].
      rewrite head_branch_store. do 2 eexists.
      split; [reflexivity|]. split; [rewrite !elem_of_cons; auto|].
      repeat (split; [first [reflexivity | assumption | by eauto]|]).
      now rewrite Hsent.
    + rewrite on_failure_store in Hbranch. injection Hbranch as <- <-.
      cbn [localStorage isRenewing notifications with_notifiedDomains
           with_notifications with_localStorage with_draws].
      rewrite head_branch_store. do 2 eexists.
      split; [reflexivity|]. split; [rewrite !elem_of_cons; auto|].
      repeat (split; [first [reflexivity | assumption | by eauto]|]).
      now rewrite Hsent.
Qed.

(** X23. A job that starts while no renewal is running does not end
    in 'failure': it is 'completed' with a new certificate, or
    'manual_required', which is also how every error of the client
    ends. *)
Theorem job_fails_only_on_overlap (job : Job) (w : World) :
  isRenewing w = false →
  ∃ job', (executeRenewalJob job w).1 = Ok job'
          ∧ (status job' = "completed" ∧ is_Some (newCert job')
             ∨ status job' = "manual_required" ∧ newCert job' = newCert job).
Proof.
  intros Hidle.
  destruct (executeRenewalJob_eq job w) as (r & w2 & job' & w3 & Hrenew & Hbranch & ->).
  exists job'. split; [reflexivity|].
  destruct (renewCertificate_outcome (certificate (originalCert job))
              (with_localStorage (marked job w) (with_draws (S (draws w)) w)))
    as (r' & Hr' & Hcases).
  rewrite Hrenew in Hr'. injection Hr' as <-.
  cbn [isRenewing with_localStorage with_draws] in Hcases.
  destruct Hcases as [(_ & Hsettled)|[_ Hflag]]; [|congruence].
  unfold branch in Hbranch.
  destruct Hsettled as [(Hs & _ & pem & k & t & Hnew & _)|(Hs & Hm & _)];
    rewrite Hs in Hbranch.
  - rewrite on_success_eq in Hbranch. injection Hbranch as <- _.
    left. split; [reflexivity|]. cbn. rewrite Hnew. eauto.
  - rewrite Hm, on_manual_eq in Hbranch. injection Hbranch as <- _.
    right. split; reflexivity.
Qed.

(** X24. When the account key or the e-mail is missing, or the
    certificate of the job is incomplete, the job ends as
    'manual_required' without an error or a renewal URL, no engine call
    is made, the history records no error, and the notice reads
    'Manual renewal required: undefined', 'Please visit: undefined': the
    message of the failed check is lost. *)
Theorem unprepared_renewal_reports_undefined (job : Job) (w : World) :
  ACMEClient.canAutoRenew (ACMEClient.checkRenewalCapability (localStorage w))
  = false
  ∨ ACMEClient.validateCertificate (certificate (originalCert job)) ≠ [] →
  let done := executeRenewalJob job w in
  ∃ job' record,
    done.1 = Ok job'
    ∧ status job' = "manual_required"
    ∧ error job' = None
    ∧ renewalUrl job' = None
    ∧ calls done.2 = calls w
    ∧ head (HistoryManager.getHistory (localStorage done.2)) = Some record
    ∧ hr_status record = "manual_required"
    ∧ hr_error record = None
    ∧ notifications done.2
      = notifications w
        ++ [NotifyRenewalFailure (domain job)
              ("Manual renewal required: undefined" +:+ newline
               +:+ "Please visit: undefined")].
Proof.
  intros Hcap. cbv zeta.
  destruct (executeRenewalJob_eq job w) as (r & w2 & job' & w3 & Hrenew & Hbranch & ->).
  rewrite renewCertificate_unprepared in Hrenew.
  2:{ destruct Hcap as [Hcap|Hinvalid]; [left|now right].
      cbn [localStorage with_localStorage]. unfold marked.
      change (ACMEClient.checkRenewalCapability
                (HistoryManager.recordRenewal ?d ?s ?e ?o ?n ?ls ?t ?r))
        with (ACMEClient.checkRenewalCapability ls).
      now rewrite capability_updateCertificate. }
  injection Hrenew as <- <-.
  unfold branch in Hbranch. cbn [ACMEClient.success ACMEClient.requiresManual
                                 ACMEClient.failed] in Hbranch.
  rewrite on_manual_eq in Hbranch. injection Hbranch as <- <-.
  cbn [fst snd localStorage isRenewing notifications calls with_notifiedDomains
       with_notifications with_localStorage with_draws with_isRenewing
       ACMEClient.message ACMEClient.renewalUrl ACMEClient.failed].
  rewrite getHistory_updateLastCheck, head_branch_store. do 2 eexists.
  repeat (split; [reflexivity|]). reflexivity.
Qed.

End JobEnds.

(** ** RenewalScheduler: a run of the check *)

Section Ticks.

Context `{Host}.

Import CertificateScanner RenewalScheduler.

(** X25. [checkAndRenew] never throws; when the stored [enabled] is
    not the boolean true, as when no policy is stored, it changes
    nothing. *)
Theorem check_without_the_global_switch (w : World) :
  (checkAndRenew w).1 = Ok ()
  ∧ (ConfigManager.enabled (ConfigManager.getAutoRenewalConfig (localStorage w))
     ≠ JS.Bool true →
     checkAndRenew w = (Ok (), w))
  ∧ (autoRenewalConfig (localStorage w) = None → checkAndRenew w = (Ok (), w)).
Proof.
  assert (Hoff : ConfigManager.isGloballyEnabled (localStorage w) = false →
                 checkAndRenew w = (Ok (), w)).
  { intros Hoff. unfold checkAndRenew, try_catch.
    unfold bind at 1, gets at 1. cbv beta iota zeta. now rewrite Hoff. }
  split; [|split].
  - unfold checkAndRenew, try_catch.
    destruct (bind _ _ w) as [[[]|e] w']; reflexivity.
  - intros Hne. apply Hoff. unfold ConfigManager.isGloballyEnabled. cbv zeta.
    destruct (ConfigManager.enabled _) as [| |[|]|n|s]; try reflexivity.
    now destruct Hne.
  - intros Hnone. apply Hoff. unfold ConfigManager.isGloballyEnabled,
      ConfigManager.getAutoRenewalConfig. now rewrite Hnone.
Qed.

(** X26. In a turn of the loop of [checkAndRenew], a certificate
    whose domain is not eligible changes nothing; one that is eligible
    and whose stored status is 'in_progress' starts no job: it makes no
    engine call and writes nothing, and is only notified as expiring if
    its domain was not notified before. *)
Theorem check_one_skips (c : ExpiringCertificate) (w : World) :
  let d := domains (certificate c) in
  let w' := (check_one c w).2 in
  (ConfigManager.isCertAutoRenewalEnabled (localStorage w) d = false →
   check_one c w = (Ok (), w))
  ∧ (ConfigManager.isCertAutoRenewalEnabled (localStorage w) d = true →
     renewalStatus (certificate c) = JS.Str "in_progress" →
     (check_one c w).1 = Ok ()
     ∧ localStorage w' = localStorage w
     ∧ calls w' = calls w
     ∧ isRenewing w' = isRenewing w
     ∧ notifications w'
       = notifications w
         ++ (if existsb (JS.strict_eq d) (notifiedDomains w) then []
             else [NotifyExpiring d (daysUntilExpiry c)])
     ∧ notifiedDomains w'
       = notifiedDomains w
         ++ (if existsb (JS.strict_eq d) (notifiedDomains w) then [] else [d])).
Proof.
  cbv zeta. split.
  - intros Hoff. unfold check_one. unfold bind at 1, gets at 1.
    cbv beta iota zeta. now rewrite Hoff.
  - intros Hon Hstatus.
    assert (Heq : check_one c w
      = (Ok (),
         if existsb (JS.strict_eq (domains (certificate c))) (notifiedDomains w)
         then w
         else with_notifiedDomains
                (notifiedDomains w ++ [domains (certificate c)])
                (with_notifications
                   (notifications w
                    ++ [NotifyExpiring (domains (certificate c))
                          (daysUntilExpiry c)]) w))).
    { unfold check_one. unfold bind at 1, gets at 1. cbv beta iota zeta.
      rewrite Hon, Hstatus. cbn [negb JS.strict_eq String.eqb Ascii.eqb Bool.eqb].
      unfold bind at 1, gets at 1. cbv beta iota zeta.
      unfold bind at 1.
      now destruct (existsb _ (notifiedDomains w)). }
    rewrite Heq. cbn [fst snd].
    destruct (existsb _ (notifiedDomains w)); cbn;
      rewrite ?app_nil_r; repeat split.
Qed.

(** The time that a scan reads for an entry that has one is the time
    of the entry, whenever the scan is made. *)
Lemma time_of_dated (t : Z) (j : nat) (e : gmap string JS.value) :
  JS.truthy (JS.get e "time") = true →
  time (normalize t j e) = JS.get e "time".
Proof.
  intros Htime.
  change (time (normalize t j e))
    with (JS.or_else (JS.get e "time") (JS.Str (JSDate.toISOString t))).
  unfold JS.or_else. now rewrite Htime.
Qed.

(** An update that mentions none of [cert], [key] and [time] retains
    them, whether its index is in the collection or not. *)
Lemma Retains_update (entries : list (gmap string JS.value)) (w : World)
    (id : nat) (updates : gmap string JS.value) :
  spares_identity updates →
  Retains entries w →
  Retains entries
    (with_localStorage (updateCertificate id updates (localStorage w) (now w)) w).
Proof.
  intros (Hcert & Hkey & Htime) (entries1 & Hls & Hlen1 & Hkeep1).
  destruct (decide (id < length entries1)%nat) as [Hid|Hid].
  - destruct (updateCertificate_keeps id updates _ (now w) entries1 Hls Hid)
      as (entries2 & Hstore & Hlen2 & Hkeep2).
    exists entries2. split; [exact Hstore|]. split; [lia|].
    intros j e He. destruct (Hkeep1 j e He) as (e1 & He1 & Hold).
    destruct (Hkeep2 j e1 He1) as (e2 & He2 & Hfields).
    exists e2. split; [exact He2|]. intros t.
    assert (Hid2 : identity_of t j e2 = identity_of (now w) j e1)
      by (apply identity_of_rescan; now apply Hfields).
    pose proof (f_equal (λ p, p.1.1) Hid2) as Hc.
    pose proof (f_equal (λ p, p.1.2) Hid2) as Hk.
    pose proof (f_equal snd Hid2) as Ht.
    cbn [identity_of fst snd] in Hc, Hk, Ht.
    destruct (Hold t) as (Hc1 & Hk1 & _).
    split; [|split].
    + rewrite Hc. exact Hc1.
    + rewrite Hk. exact Hk1.
    + intros Hdated. rewrite Ht.
      destruct (Hold (now w)) as (_ & _ & Ht1). rewrite (Ht1 Hdated).
      rewrite (time_of_dated (now w) j e Hdated).
      now rewrite (time_of_dated t j e Hdated).
  - rewrite update_out_of_range.
    + exists entries1. auto.
    + unfold scanCertificates. rewrite Hls, length_imap. lia.
Qed.

(** ** What every call of a run maintains

    A property of the world that depends on the scanner's collection
    only, and that the updates of the scheduler maintain, is maintained
    by a whole run of the check. *)

Section Maintained.

Variable I : World → Prop.

Hypothesis I_store : ∀ w w',
  manageDataPairs (localStorage w') = manageDataPairs (localStorage w) →
  I w → I w'.

Hypothesis I_update : ∀ w id updates,
  spares_identity updates →
  I w →
  I (with_localStorage (updateCertificate id updates (localStorage w) (now w)) w).

Lemma kept_by_renewCertificate (c : Certificate) :
  maintains I (ACMEClient.renewCertificate c).
Proof.
  intros w Hw. apply (I_store w); [|exact Hw].
  apply renewCertificate_scanner_store.
Qed.

Lemma kept_by_updateLastCheck (d : JS.value) :
  maintains I (configManager_updateLastCheck d).
Proof.
  intros w Hw. apply (I_store w); [|exact Hw].
  cbn. apply manageDataPairs_updateLastCheck.
Qed.

Lemma kept_by_updateCertificate (id : nat) (updates : gmap string JS.value) :
  spares_identity updates →
  maintains I (scanner_updateCertificate id updates).
Proof.
  intros Hspares. apply maintains_modify. intros w. now apply I_update.
Qed.

Lemma kept_aside {A} (m : M A) :
  (∀ w, manageDataPairs (localStorage (m w).2) = manageDataPairs (localStorage w)) →
  maintains I m.
Proof. intros Hm w Hw. apply (I_store w); [apply Hm|exact Hw]. Qed.

Ltac kept_any :=
  lazymatch goal with
  | |- maintains _ (ret _) => apply maintains_ret
  | |- maintains _ (throw _) => apply maintains_throw
  | |- maintains _ (gets _) => apply maintains_gets
  | |- maintains _ Date_now => apply maintains_gets
  | |- maintains _ Math_random => apply kept_aside; intros ?; reflexivity
  | |- maintains _ (ACMEClient.renewCertificate _) => apply kept_by_renewCertificate
  | |- maintains _ (historyManager_recordRenewal _ _ _ _) =>
      apply kept_aside; intros ?; reflexivity
  | |- maintains _ (configManager_updateLastCheck _) =>
      apply kept_by_updateLastCheck
  | |- maintains _ (scanner_updateCertificate _ _) =>
      apply kept_by_updateCertificate; repeat split
  | |- maintains _ (modify _) => apply kept_aside; intros ?; reflexivity
  | |- maintains _ (bind _ _) => apply maintains_bind; [|intros ?]
  | |- maintains _ (try_catch _ _) => apply maintains_try_catch; [|intros ?]
  | |- maintains _ (if ?b then _ else _) => destruct b
  end.

Lemma kept_by_executeRenewalJob (job : Job) :
  maintains I (executeRenewalJob job).
Proof.
  unfold executeRenewalJob, run, mark_in_progress, on_success, on_manual,
    on_failure, on_job_error, notify.
  repeat kept_any.
Qed.

Lemma kept_by_check_one (c : ExpiringCertificate) :
  maintains I (check_one c).
Proof.
  unfold check_one, createRenewalJob, notify.
  repeat first [apply kept_by_executeRenewalJob | kept_any].
Qed.

Lemma kept_by_for_each (l : list ExpiringCertificate) :
  maintains I (for_each check_one l).
Proof.
  induction l as [|c l IH]; cbn [for_each].
  - apply maintains_ret.
  - apply maintains_bind; [apply kept_by_check_one|intros _; exact IH].
Qed.

Lemma kept_by_checkAndRenew : maintains I checkAndRenew.
Proof.
  unfold checkAndRenew.
  repeat first [apply kept_by_for_each | kept_any].
Qed.

End Maintained.

Lemma Retains_checkAndRenew (entries : list (gmap string JS.value)) :
  maintains (Retains entries) checkAndRenew.
Proof.
  apply kept_by_checkAndRenew.
  - intros w w' Heq (entries' & Hls & Hrest). exists entries'.
    split; [now rewrite Heq|exact Hrest].
  - intros w id updates Hspares. now apply Retains_update.
Qed.

(** X27. A whole run of [checkAndRenew], whichever jobs it runs and
    however they end, leaves the scanner's collection with as many
    certificates, and a scan of it, whenever it is made, reads at every
    index the certificate and the key that a scan read there before the
    run, and the same issuance time if the entry was stored with a
    time. (An entry that was stored without a time is read with the
    time of the scan, and after an update of the collection with the
    time of that update.) *)
Theorem tick_keeps_certificates (entries : list (gmap string JS.value))
    (w : World) (t : Z) :
  manageDataPairs (localStorage w) = Some (Doc entries) →
  let before := scanCertificates (localStorage w) t in
  let after := scanCertificates (localStorage (checkAndRenew w).2) t in
  length after = length before
  ∧ ∀ j c, before !! j = Some c →
      ∃ c', after !! j = Some c'
            ∧ cert c' = cert c
            ∧ key c' = key c
            ∧ ∀ e, entries !! j = Some e →
                   JS.truthy (JS.get e "time") = true →
                   time c' = time c ∧ time c = JS.get e "time".
Proof.
  intros Hls. cbv zeta.
  assert (Hstart : Retains entries w).
  { exists entries. split; [exact Hls|]. split; [reflexivity|].
    intros j e He. exists e. split; [exact He|]. intros t'. auto. }
  destruct (Retains_checkAndRenew entries w Hstart)
    as (entries' & Hls' & Hlen & Hkeep).
  unfold scanCertificates. rewrite Hls, Hls', !length_imap.
  split; [exact Hlen|].
  intros j c Hc. rewrite list_lookup_imap in Hc.
  destruct (entries !! j) as [e|] eqn:He; [|discriminate].
  cbn in Hc. injection Hc as <-.
  destruct (Hkeep j e He) as (e' & He' & Hsame).
  exists (normalize t j e'). rewrite list_lookup_imap, He'.
  split; [reflexivity|].
  destruct (Hsame t) as (Hc & Hk & Ht).
  split; [exact Hc|]. split; [exact Hk|].
  intros e0 [= <-] Hdated. split; [now apply Ht|].
  exact (time_of_dated t j e Hdated).
Qed.

End Ticks.

(** ** RenewalScheduler: starting and stopping *)

Section StartStop.

Import RenewalScheduler.

Lemma filter_others (others : list (nat * Z)) (id : nat) :
  id ∉ others.*1 → filter (λ timer : nat * Z, timer.1 ≠ id) others = others.
Proof.
  intros Hid. induction others as [|[i d] others IH]; [reflexivity|].
  rewrite filter_cons. cbn [fst] in *.
  apply not_elem_of_cons in Hid as [Hne Hid].
  rewrite decide_True by (cbn; intros Heq; apply Hne; now rewrite Heq). f_equal. now apply IH.
Qed.

Lemma one_timer_call (others : list (nat * Z)) (state : Instance * Timers)
    (call : SchedulerCall) :
  one_timer others state → one_timer others (scheduler_call state call).
Proof.
  destruct state as [[running id] [timers n]]. unfold one_timer.
  intros (Hpos & Hfresh & Hstate). cbn in Hpos, Hfresh, Hstate.
  destruct call as [ls|]; cbn [scheduler_call fst snd].
  - unfold start. cbn [isRunning]. destruct running.
    + split; [exact Hpos|]. split; [exact Hfresh|exact Hstate].
    + destruct Hstate as [-> ->]. cbn.
      split; [lia|]. split.
      * apply Forall_app. split.
        -- eapply Forall_impl; [exact Hfresh|]. cbn. lia.
        -- constructor; [cbn; lia|constructor].
      * do 2 eexists. split; [reflexivity|]. split; [reflexivity|].
        split; [|exact Hpos].
        intros Hin. apply list_elem_of_fmap in Hin as ([i d] & -> & Hin).
        rewrite Forall_forall in Hfresh. apply Hfresh in Hin. cbn in Hin. lia.
  - unfold stop. cbn [isRunning intervalId]. destruct running; cbn [negb].
    + destruct Hstate as (i & d & -> & -> & Hi & Hi0).
      destruct (Nat.eqb_spec i 0) as [->|Hne]; cbn [negb]; [lia|].
      cbn. split; [exact Hpos|]. split.
      * rewrite Forall_forall in Hfresh |- *. intros timer Hin.
        apply list_elem_of_filter in Hin as [_ Hin]. now apply Hfresh.
      * split; [reflexivity|].
        rewrite filter_app, filter_others by exact Hi.
        rewrite filter_cons, decide_False by (cbn; congruence).
        rewrite filter_nil. apply app_nil_r.
    + split; [exact Hpos|]. split; [exact Hfresh|exact Hstate].
Qed.

Lemma one_timer_calls (others : list (nat * Z)) (state : Instance * Timers)
    (calls : list SchedulerCall) :
  one_timer others state → one_timer others (fold_left scheduler_call calls state).
Proof.
  revert state. induction calls as [|call calls IH]; intros state Hstate.
  - exact Hstate.
  - cbn [fold_left]. apply IH. now apply one_timer_call.
Qed.

(** X28. After any sequence of [start] and [stop] calls on a new
    scheduler, the timers that others set are as they were, and the
    scheduler has exactly one timer when it is running and none when it
    is not. *)
Theorem scheduler_keeps_one_timer (timers : Timers) (calls : list SchedulerCall) :
  (0 < next timers)%nat →
  Forall (λ timer, (timer.1 < next timers)%nat) (active timers) →
  let state := fold_left scheduler_call calls (constructed, timers) in
  if isRunning state.1
  then ∃ id delay,
         intervalId state.1 = Some id
         ∧ active state.2 = active timers ++ [(id, delay)]
  else intervalId state.1 = None ∧ active state.2 = active timers.
Proof.
  intros Hpos Hfresh. cbv zeta.
  destruct (one_timer_calls (active timers) (constructed, timers) calls)
    as (_ & _ & Hstate).
  { repeat split; assumption. }
  destruct (isRunning _); [|exact Hstate].
  destruct Hstate as (id & delay & Hid & Hactive & _ & _). eauto.
Qed.

End StartStop.

(** ** TelegramNotifier: the configuration and the requests *)

Section Telegram.

Import TelegramNotifier.

Lemma get_stringify (o : gmap string JS.value) (k : string) :
  JS.get (JS.stringify o) k = JS.get o k.
Proof.
  unfold JS.get, JS.stringify.
  destruct (o !! k) as [v|] eqn:Hk.
  - destruct (decide (v = JS.Undefined)) as [->|Hv].
    + cbn. rewrite (proj2 (map_lookup_filter_None _ _ _)); [reflexivity|].
      right. intros v' Hv'. cbn. rewrite Hk in Hv'. injection Hv' as <-.
      intros Hne. now apply Hne.
    + now rewrite (map_lookup_filter_Some_2 _ _ _ _ Hk Hv).
  - now rewrite (proj2 (map_lookup_filter_None _ _ _)) by now left.
Qed.

(** A field of the merged configuration: the stored one, or the default
    when the stored object lacks the key. *)
Lemma get_merged (config : gmap string JS.value) (k : string) :
  JS.get (JS.spread getDefaultConfig config) k
  = match config !! k with
    | Some v => v
    | None => JS.get getDefaultConfig k
    end.
Proof.
  unfold JS.get, JS.spread. rewrite lookup_union.
  destruct (config !! k) as [v|]; destruct (getDefaultConfig !! k); reflexivity.
Qed.

Lemma truthy_saved (config : gmap string JS.value) (k : string) :
  JS.truthy (JS.get getDefaultConfig k) = false →
  JS.truthy (JS.get (JS.spread getDefaultConfig (JS.stringify config)) k)
  = JS.truthy (JS.get config k).
Proof.
  intros Hdefault. rewrite get_merged.
  pose proof (get_stringify config k) as Hget. unfold JS.get in Hget |- *.
  destruct (JS.stringify config !! k) as [v|] eqn:Hk; cbn in Hget.
  - now rewrite Hget.
  - fold (JS.get getDefaultConfig k). rewrite Hdefault.
    now rewrite <- Hget.
Qed.

Lemma truthy_and_then (a b : JS.value) :
  JS.truthy (JS.and_then a b) = JS.truthy a && JS.truthy b.
Proof. unfold JS.and_then. now destruct (JS.truthy a) eqn:Ha. Qed.

Lemma truthy_isEnabled (slot : Slot) :
  JS.truthy (isEnabled slot)
  = JS.truthy (JS.get (getTelegramConfig slot) "enabled")
    && JS.truthy (JS.get (getTelegramConfig slot) "botToken")
    && JS.truthy (JS.get (getTelegramConfig slot) "chatId").
Proof. unfold isEnabled. cbv zeta. now rewrite !truthy_and_then. Qed.

(** X29. [saveTelegramConfig] fails exactly for a configuration that
    is enabled without a bot token or a chat id, and then writes
    nothing; when it succeeds, [getTelegramConfig] reads the saved
    fields, with the defaults for the missing ones, and the notifier is
    enabled exactly when the saved [enabled] is truthy. *)
Theorem telegram_config_roundtrip (config : gmap string JS.value) (slot : Slot) :
  let saved := saveTelegramConfig config slot in
  (saved.1 = false
   ↔ JS.truthy (JS.get config "enabled") = true
     ∧ (JS.truthy (JS.get config "botToken") = false
        ∨ JS.truthy (JS.get config "chatId") = false))
  ∧ (saved.1 = false → saved.2 = slot)
  ∧ (saved.1 = true →
     getTelegramConfig saved.2 = JS.spread getDefaultConfig (JS.stringify config)
     ∧ (∀ k v, config !! k = Some v → v ≠ JS.Undefined →
               JS.get (getTelegramConfig saved.2) k = v)
     ∧ JS.truthy (isEnabled saved.2) = JS.truthy (JS.get config "enabled")).
Proof.
  cbv zeta. unfold saveTelegramConfig.
  destruct (JS.truthy (JS.get config "enabled")
            && (negb (JS.truthy (JS.get config "botToken"))
                || negb (JS.truthy (JS.get config "chatId")))) eqn:Hreject;
    cbn [fst snd].
  - split; [|split; [reflexivity|discriminate]].
    split; [intros _|reflexivity].
    apply andb_prop in Hreject as [He Hmissing]. split; [exact He|].
    apply orb_prop in Hmissing as [Hm|Hm]; apply negb_true_iff in Hm; auto.
  - split; [|split; [discriminate|]].
    { split; [discriminate|]. intros [He Hmissing]. rewrite He in Hreject.
      destruct Hmissing as [Hm|Hm]; rewrite Hm in Hreject;
        cbn in Hreject; [discriminate|].
      now rewrite orb_true_r in Hreject. }
    intros _. split; [reflexivity|]. split.
    { intros k v Hk Hv. cbn [getTelegramConfig]. rewrite get_merged.
      unfold JS.stringify. now rewrite (map_lookup_filter_Some_2 _ _ _ _ Hk Hv). }
    rewrite truthy_isEnabled. cbn [getTelegramConfig].
    rewrite !truthy_saved by reflexivity.
    destruct (JS.truthy (JS.get config "enabled")) eqn:He; [|reflexivity].
    cbn [andb] in Hreject. apply orb_false_elim in Hreject as [Ht Hc].
    apply negb_false_iff in Ht, Hc. now rewrite Ht, Hc.
Qed.

Lemma sendMessage_requests (slot : Slot) (message : string) (net : Network) :
  (sendMessage slot message net).2
  = if JS.truthy (isEnabled slot)
    then {| answer := answer net;
            requests :=
              requests net
              ++ [{| url := "https://api.telegram.org/bot"
                            +:+ JS.to_string
                                  (JS.get (getTelegramConfig slot) "botToken")
                            +:+ "/sendMessage";
                     method := "POST"; contentType := "application/json";
                     chat_id := JS.get (getTelegramConfig slot) "chatId";
                     text := message; parse_mode := "HTML" |}] |}
    else net.
Proof.
  unfold sendMessage. destruct (JS.truthy (isEnabled slot)); [|reflexivity].
  cbn [negb]. cbv zeta. cbn [answer].
  destruct (answer net _) as [|ok description]; [reflexivity|].
  now destruct (negb (JS.truthy ok)).
Qed.

(** X30. A notification of the scheduler makes one request to the Bot
    API, at the address of the stored bot token and for the stored chat
    id, exactly when [enabled], the token, the chat id and the switch
    of its kind are all truthy in the stored configuration merged with
    the defaults; otherwise, and always when nothing is stored, it
    makes none. *)
Theorem notification_requests (toLocaleString : Z → string) (slot : Slot)
    (now : Z) (n : Notification) (net : Network) :
  let config := getTelegramConfig slot in
  let net' := deliver toLocaleString slot now n net in
  answer net' = answer net
  ∧ (if JS.truthy (JS.get config "enabled")
        && JS.truthy (JS.get config "botToken")
        && JS.truthy (JS.get config "chatId")
        && JS.truthy (JS.get config (switch_of n))
     then ∃ message,
            requests net'
            = requests net
              ++ [{| url := "https://api.telegram.org/bot"
                            +:+ JS.to_string (JS.get config "botToken")
                            +:+ "/sendMessage";
                     method := "POST"; contentType := "application/json";
                     chat_id := JS.get config "chatId";
                     text := message; parse_mode := "HTML" |}]
     else net' = net)
  ∧ (slot = None ∨ slot = Some Blank → net' = net).
Proof.
  cbv zeta. rewrite <- truthy_isEnabled.
  assert (Hdefault : slot = None ∨ slot = Some Blank →
                     JS.truthy (isEnabled slot) = false)
    by (intros [->| ->]; reflexivity).
  assert (Hsend : ∀ message,
    answer (sendMessage slot message net).2 = answer net
    ∧ (if JS.truthy (isEnabled slot)
       then ∃ message',
              requests (sendMessage slot message net).2
              = requests net
                ++ [{| url := "https://api.telegram.org/bot"
                              +:+ JS.to_string
                                    (JS.get (getTelegramConfig slot) "botToken")
                              +:+ "/sendMessage";
                       method := "POST"; contentType := "application/json";
                       chat_id := JS.get (getTelegramConfig slot) "chatId";
                       text := message'; parse_mode := "HTML" |}]
       else (sendMessage slot message net).2 = net)
    ∧ (slot = None ∨ slot = Some Blank → (sendMessage slot message net).2 = net)).
  { intros message. rewrite sendMessage_requests.
    destruct (JS.truthy (isEnabled slot)) eqn:Hon.
    - split; [reflexivity|]. split; [eexists; reflexivity|].
      intros Hslot. apply Hdefault in Hslot. congruence.
    - repeat split. }
  destruct n as [domain days|domain error];
    cbn [deliver switch_of]; unfold notifyExpiring, notifyRenewalFailure;
    cbv zeta.
  - destruct (JS.truthy (JS.get (getTelegramConfig slot) "notifyOnExpiring"));
      cbn [negb].
    + rewrite andb_true_r. apply Hsend.
    + rewrite andb_false_r. repeat split.
  - destruct (JS.truthy (JS.get (getTelegramConfig slot) "notifyOnRenewalFailure"));
      cbn [negb].
    + rewrite andb_true_r. apply Hsend.
    + rewrite andb_false_r. repeat split.
Qed.

End Telegram.


(** ** Worked instances *)


Import CertificateScanner ACMEClient.

(** Scenario A of the specification: a certificate issued 65 days ago,
    with a threshold of 30 days, has 25 days left and needs renewal. *)
Example issued_65_days_ago :
  let c := Sample.scanned Sample.both in
  getDaysUntilExpiry (H:=utcHost) Sample.t0 c = Some 25
  ∧ getCertificateStatus (H:=utcHost) Sample.t0 c 30 = "needs_renewal".
Proof. vm_compute. split; reflexivity. Qed.

(** The theorem on malformed time stamps, at a stored certificate whose
    [time] is the text not-a-date. *)
Lemma malformed_time_is_valid_witness :
  ∃ c, scanCertificates (Sample.store [Sample.undated] None) Sample.t0 !! 0%nat
       = Some c
       ∧ time c = JS.get Sample.undated "time"
       ∧ getExpiryDate (H:=utcHost) c = None
       ∧ getDaysUntilExpiry (H:=utcHost) Sample.t0 c = JS.NaN
       ∧ getCertificateStatus (H:=utcHost) Sample.t0 c 30 = "valid".
Proof.
  apply (@malformed_time_is_valid utcHost
           (Sample.store [Sample.undated] None) Sample.t0
           [Sample.undated] 0%nat Sample.undated 30);
    vm_compute; reflexivity.
Defined.

(** C4 as stated fails: a certificate whose [time] is there but is no
    date is classified 'valid', not 'needs_renewal'. *)
Lemma malformed_time_not_needs_renewal :
  let c := normalize Sample.t0 0 Sample.undated in
  scanCertificates (Sample.store [Sample.undated] None) Sample.t0 = [c]
  ∧ time c = JS.Str "not-a-date"
  ∧ JSDate.construct (H:=utcHost) (time c) = None
  ∧ getCertificateStatus (H:=utcHost) Sample.t0 c 30 = "valid"
  ∧ getCertificateStatus (H:=utcHost) Sample.t0 c 30 ≠ "needs_renewal".
Proof. vm_compute. repeat split; try reflexivity. discriminate. Qed.

Lemma sample_order_created (ls : LocalStorage) (acme : ACMEEngine) :
  ls = Sample.both →
  Directory acme = Resolved → StepAccount acme = Resolved →
  StepOrder acme = Resolved →
  OrderCreated (Sample.scanned ls) (Sample.world ls acme false) acme
               Sample.x509 (JS.Str "PEM PRIVATE-KEY").
Proof.
  intros -> Hd Ha Ho.
  split; try assumption; try reflexivity; eexists; reflexivity.
Qed.

(** The decision on the authorizations, at an engine that has every
    authorization cached and at one that has an authorization pending,
    on a store whose list of the client holds the certificate. *)
Lemma authorizations_decide_witness :
  let c := Sample.scanned Sample.both in
  let renewed := renewCertificate c (Sample.world Sample.both Sample.cached false) in
  let deferred := renewCertificate c (Sample.world Sample.both Sample.lapsed false) in
  (calls renewed.2 = calls_to_order ++ [CallStepFinalizeOrder]
   ∧ renewed.1
     = Ok (renewedAutomatically c (JS.Str "NEW-CERTIFICATE")
             (JS.Str "PEM PRIVATE-KEY") (now renewed.2)))
  ∧ (deferred.1 = Ok (manualRequired c ["www.example.com"])
     ∧ calls deferred.2 = calls_to_order
     ∧ localStorage deferred.2 = Sample.both).
Proof.
  cbv zeta. split.
  - destruct (authorizations_decide (Sample.scanned Sample.both)
                (Sample.world Sample.both Sample.cached false)
                Sample.cached Sample.x509 (JS.Str "PEM PRIVATE-KEY")
                (sample_order_created Sample.both Sample.cached
                   eq_refl eq_refl eq_refl eq_refl))
      as [Hvalid _].
    destruct (Hvalid ltac:(repeat constructor)) as [Hcalls Hsuccess].
    split; [exact Hcalls|].
    exact (Hsuccess eq_refl eq_refl [Sample.issued] 0%nat Sample.issued
             eq_refl eq_refl).
  - destruct (authorizations_decide (Sample.scanned Sample.both)
                (Sample.world Sample.both Sample.lapsed false)
                Sample.lapsed Sample.x509 (JS.Str "PEM PRIVATE-KEY")
                (sample_order_created Sample.both Sample.lapsed
                   eq_refl eq_refl eq_refl eq_refl))
      as [_ Hpending].
    destruct (Hpending ltac:(right; left; discriminate))
      as (Houtcome & _ & Hcalls & Hstore).
    repeat split; assumption.
Defined.

(** The finalize step can fail: the directory, account and order steps
    succeed and every authorization is valid, yet the outcome is the
    error of the finalize step. *)
Lemma finalize_failure_is_no_success :
  let c := Sample.scanned Sample.both in
  let w := Sample.world Sample.both Sample.refusing false in
  OrderCreated c w Sample.refusing Sample.x509 (JS.Str "PEM PRIVATE-KEY")
  ∧ Forall (λ a, a.2 = "valid") (auths Sample.refusing)
  ∧ (renewCertificate c w).1
    = Ok (failed "Order finalization failed: server error")
  ∧ success (failed "Order finalization failed: server error") = false.
Proof.
  cbv zeta. split; [now apply sample_order_created|].
  split; [repeat constructor|]. split; vm_compute; reflexivity.
Qed.

(** C1. The directory, account and order steps succeed, every
    authorization is valid and the finalize step succeeds with a
    certificate, on a store as the application writes it: the
    certificate is in the collection of the scanner, and nothing has
    written the list of the client under 'q-certs'. The finalize step is
    invoked, and the outcome is not a success but the error
    'Certificate storage not found', with [requiresManual] set. *)
Example valid_authorizations_without_success :
  let ls := Sample.store [Sample.issued] None in
  let c := Sample.scanned ls in
  let w := Sample.world ls Sample.cached false in
  OrderCreated c w Sample.cached Sample.x509 (JS.Str "PEM PRIVATE-KEY")
  ∧ Forall (λ a, a.2 = "valid") (auths Sample.cached)
  ∧ StepFinalizeOrder Sample.cached = Resolved
  ∧ downloadPEM Sample.cached = JS.Str "NEW-CERTIFICATE"
  ∧ calls (renewCertificate c w).2 = calls_to_order ++ [CallStepFinalizeOrder]
  ∧ (renewCertificate c w).1 = Ok (failed "Certificate storage not found")
  ∧ success (failed "Certificate storage not found") = false
  ∧ requiresManual (failed "Certificate storage not found") = true.
Proof.
  cbv zeta. split.
  { split; try reflexivity; eexists; reflexivity. }
  split; [repeat constructor|].
  split; [reflexivity|]. split; [reflexivity|].
  vm_compute. repeat split.
Qed.

(** The theorem on re-entrant calls, at a call that finds a renewal
    running. *)
Lemma reentrant_call_witness :
  let c := Sample.scanned Sample.both in
  let w := Sample.world Sample.both Sample.cached true in
  (renewCertificate c w).2 = with_isRenewing false w
  ∧ (renewCertificate c w).1 = Ok alreadyInProgress.
Proof.
  cbv zeta.
  destruct (reentrant_call (Sample.scanned Sample.both)
              (Sample.world Sample.both Sample.cached true) eq_refl)
    as (Hworld & Hguard & _).
  split; [exact Hworld|]. exact (Hguard eq_refl eq_refl).
Defined.

(** C6 as stated fails: a call that finds a renewal running, for a
    certificate that was stored without its private key, is answered
    with the failure of the validation, not that a renewal is in
    progress. *)
Lemma reentrant_call_with_incomplete_certificate :
  let ls := Sample.store [Sample.keyless] (Some (Doc [Sample.keyless])) in
  let c := Sample.scanned ls in
  let w := Sample.world ls Sample.cached true in
  isRenewing w = true
  ∧ (renewCertificate c w).1
    = Ok (failed "Invalid certificate: Missing private key")
  ∧ (renewCertificate c w).1 ≠ Ok alreadyInProgress.
Proof. vm_compute. repeat split; try reflexivity. discriminate. Qed.

(** The theorem on updates, at a collection of two certificates of which
    the first carries fields of earlier updates and the second is
    updated. *)
Lemma update_rewrites_collection_witness :
  let entries := [Sample.annotated; Sample.issued] in
  let ls := Sample.store entries None in
  let updates : gmap string JS.value := {["renewalStatus" := JS.Str "failure"]} in
  ∃ entries',
    manageDataPairs (updateCertificate 1 updates ls Sample.t0)
    = Some (Doc entries')
    ∧ length entries' = 2%nat
    ∧ ∀ j e, entries !! j = Some e →
        ∃ e', entries' !! j = Some e'
          ∧ (j ≠ 1%nat →
               e' = to_obj (normalize Sample.t0 j e)
               ∧ dom e' = list_to_set schema
               ∧ ∀ k, k ≠ "id" → e !! k = None →
                      e' !! k = to_obj (normalize Sample.t0 j ∅) !! k)
          ∧ (j = 1%nat →
               e' = JS.stringify
                      (JS.spread (to_obj (normalize Sample.t0 j e)) updates))
          ∧ ∀ k, k ∉ schema → (j = 1%nat → updates !! k = None) → e' !! k = None.
Proof.
  cbv zeta.
  apply (update_rewrites_collection
           (Sample.store [Sample.annotated; Sample.issued] None) Sample.t0
           [Sample.annotated; Sample.issued] 1%nat
           {["renewalStatus" := JS.Str "failure"]}).
  - reflexivity.
  - cbn. lia.
Defined.

(** The same update, computed: the annotations of the first certificate
    are lost, although the update was for the second. *)
Example update_drops_annotations :
  let ls := Sample.store [Sample.annotated; Sample.issued] None in
  let ls' := updateCertificate 1 {["renewalStatus" := JS.Str "failure"]} ls
               Sample.t0 in
  (Sample.annotated !! "renewalUrl"
   = Some (JS.Str "/?autoRenew=1&domain=example.com"))
  ∧ ∃ e0 e1, manageDataPairs ls' = Some (Doc [e0; e1])
             ∧ e0 !! "renewalUrl" = None
             ∧ e0 !! "lastRenewalSuccess" = None
             ∧ e0 !! "renewalStatus" = Some (JS.Str "idle")
             ∧ e1 !! "renewalStatus" = Some (JS.Str "failure").
Proof.
  cbv zeta. split; [reflexivity|].
  do 2 eexists. split; [reflexivity|]. vm_compute. repeat split.
Qed.


(** C2 on the code: a renewal that succeeds. The job completes with the
    new certificate and the list of the client ('q-certs') gets it, but
    the record that the scanner reads ('q-manageDataPairs') keeps the old
    certificate, the old key and the old issuance time; only its
    [renewalStatus] says success. *)
Theorem success_leaves_the_scanned_record :
  let w := Sample.world Sample.both Sample.cached false in
  let done := RenewalScheduler.executeRenewalJob (H:=utcHost)
                (Sample.job Sample.both) w in
  Sample.summary done.1
  = Some ("completed", None,
          Some {| rc_domains := JS.Str "example.com";
                  rc_cert := JS.Str "NEW-CERTIFICATE";
                  rc_key := JS.Str "PEM PRIVATE-KEY";
                  rc_time := Sample.t0 + 1500 |})
  ∧ Sample.fields (manageDataPairs (localStorage w))
    = [[JS.Undefined; JS.Str "OLD-CERTIFICATE"; JS.Str "PRIVATE-KEY";
        JS.Num (Sample.t0 - Sample.days 65)]]
  ∧ Sample.fields (manageDataPairs (localStorage done.2))
    = [[JS.Str "success"; JS.Str "OLD-CERTIFICATE"; JS.Str "PRIVATE-KEY";
        JS.Num (Sample.t0 - Sample.days 65)]]
  ∧ Sample.fields (certs (localStorage done.2))
    = [[JS.Str "success"; JS.Str "NEW-CERTIFICATE"; JS.Str "PEM PRIVATE-KEY";
        JS.Num (Sample.t0 + 1500)]].
Proof. vm_compute. repeat split. Qed.

(** C5 on the code: a job whose renewal is answered that a renewal is
    in progress. The scheduler takes the answer for a failure: it writes
    [renewalStatus] 'failure' to the store, appends a 'failure' record
    to the history and notifies of the failure. *)
Theorem in_progress_is_taken_for_a_failure :
  let w := Sample.world Sample.both Sample.cached true in
  let done := RenewalScheduler.executeRenewalJob (H:=utcHost)
                (Sample.job Sample.both) w in
  (renewCertificate (Sample.scanned Sample.both) w).1 = Ok alreadyInProgress
  ∧ Sample.summary done.1
    = Some ("failure", Some "Unknown error occurred", None)
  ∧ Sample.fields (manageDataPairs (localStorage done.2))
    = [[JS.Str "failure"; JS.Str "OLD-CERTIFICATE"; JS.Str "PRIVATE-KEY";
        JS.Num (Sample.t0 - Sample.days 65)]]
  ∧ HistoryManager.getHistory (localStorage done.2)
    = [ {| hr_id := "1700000000000-r1";
           hr_domain := JS.Str "example.com";
           hr_timestamp := Sample.t0;
           hr_status := "failure";
           hr_error := Some "Unknown error occurred";
           hr_oldExpiry := Some (Sample.t0 + Sample.days 25);
           hr_newExpiry := None |};
        {| hr_id := "1700000000000-r0";
           hr_domain := JS.Str "example.com";
           hr_timestamp := Sample.t0;
           hr_status := "in_progress";
           hr_error := None;
           hr_oldExpiry := Some (Sample.t0 + Sample.days 25);
           hr_newExpiry := None |} ]
  ∧ notifications done.2
    = [NotifyRenewalFailure (JS.Str "example.com") "Unknown error occurred"].
Proof. vm_compute. repeat split. Qed.

(** Twelve calls for twelve domains on an empty store leave the ten
    most recent records, the last call first. *)
Example twelve_calls_keep_ten :
  let ls := record_calls (Sample.store [] None) (Sample.call <$> seq 0 12) in
  hr_timestamp <$> HistoryManager.getHistory ls
  = (λ n, Sample.t0 + Z.of_nat n) <$> rev (seq 2 10).
Proof. vm_compute. reflexivity. Qed.

(** The three cases of the eligibility of a domain, and the default. *)
Example eligibility_cases :
  let disabled := set_autoRenewalConfig (Doc (Sample.policy false))
                    (Sample.store [] None) in
  let enabled := set_autoRenewalConfig (Doc (Sample.policy true))
                   (Sample.store [] None) in
  ConfigManager.isCertAutoRenewalEnabled disabled (JS.Str "on.example.com")
  = false
  ∧ ConfigManager.isCertAutoRenewalEnabled enabled (JS.Str "off.example.com")
    = false
  ∧ ConfigManager.isCertAutoRenewalEnabled enabled (JS.Str "on.example.com")
    = true
  ∧ ConfigManager.isCertAutoRenewalEnabled enabled (JS.Str "new.example.com")
    = true
  ∧ ConfigManager.isCertAutoRenewalEnabled (Sample.store [] None)
      (JS.Str "new.example.com")
    = false.
Proof. vm_compute. repeat split. Qed.

(** ** Worked instances of the further properties *)

(** The theorem on scans after updates, at a collection of two
    certificates of which the second, stored without its key, is
    updated. *)
Lemma scan_after_update_witness :
  let entries := [Sample.issued; Sample.keyless] in
  let ls := Sample.store entries None in
  let updates : gmap string JS.value := {["renewalStatus" := JS.Str "failure"]} in
  let before := scanCertificates ls Sample.t0 in
  let after := scanCertificates (updateCertificate 1 updates ls Sample.t0)
                 (Sample.t0 + 1000) in
  length after = length before
  ∧ (∀ j, j ≠ 1%nat → after !! j = before !! j)
  ∧ ∃ c c', before !! 1%nat = Some c ∧ after !! 1%nat = Some c'
      ∧ CertificateScanner.id c' = 1%nat
      ∧ ∀ k, k ∈ schema → k ≠ "id" →
          (updates !! k = None → to_obj c' !! k = to_obj c !! k)
          ∧ (∀ v, updates !! k = Some v → JS.truthy v = true →
                  to_obj c' !! k = Some v).
Proof.
  cbv zeta.
  apply (scan_after_update (Sample.store [Sample.issued; Sample.keyless] None)
           Sample.t0 (Sample.t0 + 1000) [Sample.issued; Sample.keyless] 1%nat
           {["renewalStatus" := JS.Str "failure"]}).
  - reflexivity.
  - cbn. lia.
Defined.

(** The theorem on updates outside the collection, at the index after
    the only certificate. *)
Lemma update_outside_the_collection_witness :
  updateCertificate 1 {["renewalStatus" := JS.Str "failure"]}
    (Sample.store [Sample.issued] None) Sample.t0
  = Sample.store [Sample.issued] None.
Proof.
  apply update_outside_the_collection. right. exists [Sample.issued].
  split; [reflexivity|cbn; lia].
Defined.

(** The theorem on the countdown of the page, in the UTC time zone, at a
    certificate issued 65 days ago. *)
Lemma page_countdown_agrees_with_scanner_witness :
  let c := normalize Sample.t0 0 Sample.dated in
  let cell := ManagePage.updateGuoqiTimes (H:=utcHost)
                (ManagePage.data_time Sample.dated) Sample.t0 in
  ManagePage.time_left (H:=utcHost) (ManagePage.data_time Sample.dated) Sample.t0
  = JS.sub (getExpiryDate (H:=utcHost) c) (Some Sample.t0)
  ∧ (cell = ManagePage.Expired
     ↔ getCertificateStatus (H:=utcHost) Sample.t0 c 30 = "expired")
  ∧ ∀ days hours minutes,
      cell = ManagePage.Left (Some days) hours minutes →
      ∃ n, getDaysUntilExpiry (H:=utcHost) Sample.t0 c = Some n
           ∧ days <= n <= days + 1.
Proof.
  apply (@page_countdown_agrees_with_scanner utcHost 0 Sample.t0 30 0%nat
           Sample.dated "2023-09-10T22:13:20.000Z").
  - intros t b. reflexivity.
  - reflexivity.
  - discriminate.
Defined.

(** The same certificate, computed: 25 days left for the scanner, 24
    days for the page, which rounds down. *)
Example page_countdown_rounds_down :
  ManagePage.updateGuoqiTimes (H:=utcHost) (ManagePage.data_time Sample.dated)
    (Sample.t0 + 1000)
  = ManagePage.Left (Some 24) (Some 23) (Some 59)
  ∧ getDaysUntilExpiry (H:=utcHost) (Sample.t0 + 1000)
      (normalize Sample.t0 0 Sample.dated) = Some 25.
Proof. vm_compute. split; reflexivity. Qed.

(** The theorem on certificates without a time stamp, in the UTC time
    zone. *)
Lemma missing_time_is_issued_now_witness :
  ∃ c, scanCertificates (Sample.store [Sample.timeless] None) Sample.t0 !! 0%nat
       = Some c
       ∧ time c = JS.Str (JSDate.toISOString Sample.t0)
       ∧ getExpiryDate (H:=utcHost) c = Some (Sample.t0 + 90 * JSDate.msPerDay)
       ∧ getDaysUntilExpiry (H:=utcHost) Sample.t0 c = Some 90
       ∧ getCertificateStatus (H:=utcHost) Sample.t0 c 30 = "valid".
Proof.
  apply (@missing_time_is_issued_now utcHost 0 Sample.t0
           (Sample.store [Sample.timeless] None) [Sample.timeless] 0%nat
           Sample.timeless 30).
  - intros t b. reflexivity.
  - vm_compute. reflexivity.
  - unfold Sample.t0, JSDate.msPerDay. lia.
  - reflexivity.
  - reflexivity.
  - reflexivity.
Defined.

(** The theorem on the switch of a domain, at a policy that is enabled:
    a domain is switched off, and a domain without a setting stays
    eligible. *)
Lemma switch_for_one_domain_witness :
  let ls := set_autoRenewalConfig (Doc (Sample.policy true))
              (Sample.store [] None) in
  let ls' := ConfigManager.setCertAutoRenewal (H:=utcHost)
               (JS.Str "on.example.com") false ls Sample.t0 in
  acceptable (H:=utcHost) (ConfigManager.getAutoRenewalConfig ls)
  ∧ ConfigManager.isCertAutoRenewalEnabled ls' (JS.Str "on.example.com")
    = ConfigManager.isGloballyEnabled ls && false
  ∧ ConfigManager.isGloballyEnabled ls' = ConfigManager.isGloballyEnabled ls
  ∧ ConfigManager.isCertAutoRenewalEnabled ls' (JS.Str "new.example.com")
    = ConfigManager.isCertAutoRenewalEnabled ls (JS.Str "new.example.com").
Proof.
  cbv zeta.
  assert (Hok : acceptable (H:=utcHost)
                  (ConfigManager.getAutoRenewalConfig
                     (set_autoRenewalConfig (Doc (Sample.policy true))
                        (Sample.store [] None)))).
  { split; [exists true; reflexivity|cbn; lia]. }
  split; [exact Hok|].
  destruct (switch_for_one_domain
              (set_autoRenewalConfig (Doc (Sample.policy true))
                 (Sample.store [] None))
              (JS.Str "on.example.com") (JS.Str "new.example.com") false
              Sample.t0 Hok) as (Hoff & _ & Hglobal & Hother).
  split; [apply Hoff; left; discriminate|].
  split; [exact Hglobal|]. apply Hother. discriminate.
Defined.

(** The domain '__proto__' cannot be switched off: the call stores no
    setting for it, and the scheduler goes on renewing it. *)
Example proto_stays_eligible :
  let ls := set_autoRenewalConfig (Doc (Sample.policy true))
              (Sample.store [] None) in
  let ls' := ConfigManager.setCertAutoRenewal (H:=utcHost)
               (JS.Str "__proto__") false ls Sample.t0 in
  ConfigManager.isCertAutoRenewalEnabled ls' (JS.Str "__proto__") = true
  ∧ ConfigManager.certSettings (ConfigManager.getAutoRenewalConfig ls')
    = ConfigManager.certSettings (ConfigManager.getAutoRenewalConfig ls).
Proof. vm_compute. split; reflexivity. Qed.

(** The theorem on policies that cannot be saved, at a stored threshold
    of 90 days. *)
Lemma unacceptable_policy_is_frozen_witness :
  let ls := set_autoRenewalConfig (Doc Sample.overlong) (Sample.store [] None) in
  ¬ acceptable (H:=utcHost) (ConfigManager.getAutoRenewalConfig ls)
  ∧ ConfigManager.setCertAutoRenewal (H:=utcHost) (JS.Str "example.com") false
      ls Sample.t0 = ls
  ∧ ConfigManager.updateLastCheck (H:=utcHost) (JS.Str "example.com") ls
      Sample.t0 = ls
  ∧ ConfigManager.updateLastRenewal (H:=utcHost) (JS.Str "example.com") ls
      Sample.t0 = ls.
Proof.
  cbv zeta.
  assert (Hno : ¬ acceptable (H:=utcHost)
                  (ConfigManager.getAutoRenewalConfig
                     (set_autoRenewalConfig (Doc Sample.overlong)
                        (Sample.store [] None)))).
  { intros [_ Hthreshold]. cbn in Hthreshold. lia. }
  split; [exact Hno|].
  apply (unacceptable_policy_is_frozen
           (set_autoRenewalConfig (Doc Sample.overlong) (Sample.store [] None))
           (JS.Str "example.com") false Sample.t0 Hno).
Defined.

(** A threshold that is no number is saved: the text 'soon' passes both
    comparisons, and is read again as it was written; a threshold that
    is [undefined] is saved too, and read again as the default. A
    threshold that is NaN is saved as [null], which reads as the number
    0: the policy that is stored is one that no later save accepts. *)
Example threshold_that_is_no_number :
  let config threshold_ :=
    {| ConfigManager.enabled := JS.Bool true;
       ConfigManager.threshold := threshold_;
       ConfigManager.checkInterval := 1000;
       ConfigManager.certSettings := ∅ |} in
  let saved threshold_ :=
    ConfigManager.saveAutoRenewalConfig (H:=utcHost) (config threshold_)
      (Sample.store [] None) in
  let read threshold_ :=
    ConfigManager.getAutoRenewalConfig (saved threshold_).2 in
  (saved (Some (JS.Str "soon"))).1 = true
  ∧ ConfigManager.threshold (read (Some (JS.Str "soon"))) = Some (JS.Str "soon")
  ∧ (saved (Some JS.Undefined)).1 = true
  ∧ ConfigManager.threshold (read (Some JS.Undefined)) = Some (JS.Num 30)
  ∧ (saved None).1 = true
  ∧ ConfigManager.threshold (read None) = Some JS.Null
  ∧ (ConfigManager.saveAutoRenewalConfig (H:=utcHost) (read None)
       (saved None).2).1 = false
  ∧ (saved (Some (JS.Num 0))).1 = false
  ∧ (saved (Some JS.Null)).1 = false.
Proof. vm_compute. repeat split. Qed.

(** The theorem on failed prerequisites, at a certificate that was
    stored without its private key. *)
Lemma failed_prerequisites_change_nothing_witness :
  let ls := Sample.store [Sample.keyless] None in
  let c := Sample.scanned ls in
  let w := Sample.world ls Sample.cached false in
  renewCertificate c w
  = (Ok (failed (prerequisite_error c ls)), with_isRenewing false w)
  ∧ prerequisite_error c ls = "Invalid certificate: Missing private key".
Proof.
  cbv zeta. split; [|vm_compute; reflexivity].
  apply (failed_prerequisites_change_nothing
           (Sample.scanned (Sample.store [Sample.keyless] None))
           (Sample.world (Sample.store [Sample.keyless] None) Sample.cached false)).
  right. vm_compute. discriminate.
Defined.

(** The theorem on renewals without the list of the client, at a store
    that has the certificate in the collection of the scanner only. *)
Lemma renewal_without_client_list_witness :
  let ls := Sample.store [Sample.issued] None in
  let c := Sample.scanned ls in
  let w := Sample.world ls Sample.cached false in
  (renewCertificate c w).1 = Ok (failed "Certificate storage not found")
  ∧ calls (renewCertificate c w).2
    = calls w ++ calls_to_order ++ [CallStepFinalizeOrder]
  ∧ localStorage (renewCertificate c w).2 = localStorage w.
Proof.
  cbv zeta.
  apply (renewal_without_client_list
           (Sample.scanned (Sample.store [Sample.issued] None))
           (Sample.world (Sample.store [Sample.issued] None) Sample.cached false)
           Sample.cached Sample.x509 (JS.Str "PEM PRIVATE-KEY")).
  - split; try reflexivity; eexists; reflexivity.
  - repeat constructor.
  - reflexivity.
  - reflexivity.
  - left. reflexivity.
Defined.

(** Two requests for one domain: the first call marks the first, the
    second call marks it again, and the second request stays pending. *)
Example second_request_stays_pending :
  let request t := {| q_domain := JS.Str "example.com"; q_timestamp := t;
                      q_status := "pending"; q_completedAt := None |} in
  let q := [request 1; request 2] in
  let q' := markRenewalCompleted (JS.Str "example.com") true 10 q in
  let q'' := markRenewalCompleted (JS.Str "example.com") false 20 q' in
  q' = [{| q_domain := JS.Str "example.com"; q_timestamp := 1;
           q_status := "completed"; q_completedAt := Some 10 |}; request 2]
  ∧ q'' = [{| q_domain := JS.Str "example.com"; q_timestamp := 1;
              q_status := "failed"; q_completedAt := Some 20 |}; request 2]
  ∧ getPendingRenewals q'' = [request 2].
Proof. vm_compute. repeat split. Qed.

(** The theorem on jobs that start while no renewal is running, at an
    engine whose finalize step fails. *)
Lemma job_fails_only_on_overlap_witness :
  let job := Sample.job Sample.both in
  let w := Sample.world Sample.both Sample.refusing false in
  ∃ job', (RenewalScheduler.executeRenewalJob (H:=utcHost) job w).1 = Ok job'
          ∧ (RenewalScheduler.status job' = "completed"
             ∧ is_Some (RenewalScheduler.newCert job')
             ∨ RenewalScheduler.status job' = "manual_required"
               ∧ RenewalScheduler.newCert job' = RenewalScheduler.newCert job).
Proof.
  cbv zeta.
  apply (@job_fails_only_on_overlap utcHost (Sample.job Sample.both)
           (Sample.world Sample.both Sample.refusing false)).
  reflexivity.
Defined.

(** The same job, computed: the finalize step fails with 'server
    error', and the job asks for a manual renewal without saying why. *)
Example finalize_failure_is_reported_as_manual :
  let w := Sample.world Sample.both Sample.refusing false in
  let done := RenewalScheduler.executeRenewalJob (H:=utcHost)
                (Sample.job Sample.both) w in
  Sample.summary done.1 = Some ("manual_required", None, None)
  ∧ notifications done.2
    = [NotifyRenewalFailure (JS.Str "example.com")
         ("Manual renewal required: undefined" +:+ RenewalScheduler.newline
          +:+ "Please visit: undefined")].
Proof. vm_compute. split; reflexivity. Qed.

(** The theorem on unprepared renewals, at a store in which the account
    key was never set. *)
Lemma unprepared_renewal_reports_undefined_witness :
  let job := Sample.job Sample.unconfigured in
  let w := Sample.world Sample.unconfigured Sample.cached false in
  let done := RenewalScheduler.executeRenewalJob (H:=utcHost) job w in
  ∃ job' record,
    done.1 = Ok job'
    ∧ RenewalScheduler.status job' = "manual_required"
    ∧ RenewalScheduler.error job' = None
    ∧ RenewalScheduler.renewalUrl job' = None
    ∧ calls done.2 = calls w
    ∧ head (HistoryManager.getHistory (localStorage done.2)) = Some record
    ∧ hr_status record = "manual_required"
    ∧ hr_error record = None
    ∧ notifications done.2
      = notifications w
        ++ [NotifyRenewalFailure (RenewalScheduler.domain job)
              ("Manual renewal required: undefined" +:+ RenewalScheduler.newline
               +:+ "Please visit: undefined")].
Proof.
  cbv zeta.
  apply (@unprepared_renewal_reports_undefined utcHost
           (Sample.job Sample.unconfigured)
           (Sample.world Sample.unconfigured Sample.cached false)).
  left. reflexivity.
Defined.

(** The theorem on a run of the check, at a policy that is enabled, a
    certificate that has 25 days left, which the run renews, and a
    certificate that was stored without a time; the scans are made a
    day after the run. *)
Lemma tick_keeps_certificates_witness :
  let ls := set_autoRenewalConfig (Doc (Sample.policy true))
              (Sample.store [Sample.issued; Sample.timeless]
                 (Some (Doc [Sample.issued]))) in
  let w := Sample.world ls Sample.cached false in
  let t := Sample.t0 + Sample.days 1 in
  let before := scanCertificates (localStorage w) t in
  let after :=
    scanCertificates
      (localStorage (RenewalScheduler.checkAndRenew (H:=utcHost) w).2) t in
  manageDataPairs (localStorage w)
  = Some (Doc [Sample.issued; Sample.timeless])
  ∧ length after = length before
  ∧ ∀ j c, before !! j = Some c →
      ∃ c', after !! j = Some c'
            ∧ cert c' = cert c
            ∧ key c' = key c
            ∧ ∀ e, [Sample.issued; Sample.timeless] !! j = Some e →
                   JS.truthy (JS.get e "time") = true →
                   time c' = time c ∧ time c = JS.get e "time".
Proof.
  cbv zeta. split; [reflexivity|].
  apply (@tick_keeps_certificates utcHost [Sample.issued; Sample.timeless]
           (Sample.world
              (set_autoRenewalConfig (Doc (Sample.policy true))
                 (Sample.store [Sample.issued; Sample.timeless]
                    (Some (Doc [Sample.issued]))))
              Sample.cached false)
           (Sample.t0 + Sample.days 1)).
  reflexivity.
Defined.

(** The time of the certificate that was stored without one is not
    kept: before the run a scan reads the time of the scan for it, and
    after the run the time of the first update of the run, which wrote
    it. *)
Example tick_dates_the_undated :
  let ls := set_autoRenewalConfig (Doc (Sample.policy true))
              (Sample.store [Sample.issued; Sample.timeless]
                 (Some (Doc [Sample.issued]))) in
  let w := Sample.world ls Sample.cached false in
  let t := Sample.t0 + Sample.days 1 in
  time <$> scanCertificates (localStorage w) t
  = [JS.Num (Sample.t0 - Sample.days 65); JS.Str "2023-11-15T22:13:20.000Z"]
  ∧ time <$> scanCertificates
               (localStorage (RenewalScheduler.checkAndRenew (H:=utcHost) w).2) t
    = [JS.Num (Sample.t0 - Sample.days 65); JS.Str "2023-11-14T22:13:20.000Z"].
Proof. vm_compute. split; reflexivity. Qed.

(** A run at the store that has the certificate in both lists,
    computed: the certificate is renewed into the list of the client,
    and the collection of the scanner keeps the old one. *)
Example tick_renews_into_the_client_list :
  let ls := set_autoRenewalConfig (Doc (Sample.policy true)) Sample.both in
  let w := Sample.world ls Sample.cached false in
  let w' := (RenewalScheduler.checkAndRenew (H:=utcHost) w).2 in
  Sample.fields (manageDataPairs (localStorage w'))
  = [[JS.Str "success"; JS.Str "OLD-CERTIFICATE"; JS.Str "PRIVATE-KEY";
      JS.Num (Sample.t0 - Sample.days 65)]]
  ∧ Sample.fields (certs (localStorage w'))
    = [[JS.Str "success"; JS.Str "NEW-CERTIFICATE"; JS.Str "PEM PRIVATE-KEY";
        JS.Num (Sample.t0 + 1500)]]
  ∧ notifications w' = [NotifyExpiring (JS.Str "example.com") (Some 25)].
Proof. vm_compute. repeat split. Qed.

(** The theorem on starting and stopping, at a page on which another
    timer is set: the scheduler is started twice, stopped and started
    again. *)
Lemma scheduler_keeps_one_timer_witness :
  let ls := Sample.store [] None in
  let state := fold_left scheduler_call [Start ls; Start ls; Stop; Start ls]
                 (RenewalScheduler.constructed, Sample.timers) in
  if RenewalScheduler.isRunning state.1
  then ∃ id delay,
         RenewalScheduler.intervalId state.1 = Some id
         ∧ active state.2 = active Sample.timers ++ [(id, delay)]
  else RenewalScheduler.intervalId state.1 = None
       ∧ active state.2 = active Sample.timers.
Proof.
  cbv zeta.
  apply (scheduler_keeps_one_timer Sample.timers
           [Start (Sample.store [] None); Start (Sample.store [] None); Stop;
            Start (Sample.store [] None)]).
  - cbn. lia.
  - repeat constructor; cbn; lia.
Defined.

(** The same calls, computed: the second timer of the scheduler runs
    every 24 hours beside the timer of the page. *)
Example scheduler_restarted :
  let ls := Sample.store [] None in
  fold_left scheduler_call [Start ls; Start ls; Stop; Start ls]
    (RenewalScheduler.constructed, Sample.timers)
  = ({| RenewalScheduler.isRunning := true;
        RenewalScheduler.intervalId := Some 9%nat |},
     {| active := [(7%nat, 1000); (9%nat, 86400000)]; next := 10 |}).
Proof. vm_compute. reflexivity. Qed.
